(** * Trading_model: signal generation, position lag, return composition
      and performance metrics

    A shallow embedding of the quantitative pipeline of the repository:

      - [strategies/base.py]            (BaseStrategy.get_positions)
      - [strategies/moving_average.py]  (MovingAverageCrossover.generate_signals)
      - [strategies/mean_reversion.py]  (MeanReversionZScore.generate_signals)
      - [strategies/momentum.py]        (MomentumStrategy.generate_signals)
      - [backtesting/engine.py]         (Backtester.run, Backtester._calculate_metrics,
                                         Backtester.export_results)
      - [data/collector.py]             (DataCollector.clean_data, calculate_returns,
                                         _get_cache_filename)
      - [main.py], [config.py]          (the strategy and ticker prompts, the settings)

    The Python code works on pandas Series of IEEE doubles.  A Series is
    modelled as the list of its (timestamp, value) rows, in index order.  A
    double is modelled as an exact rational extended with the two infinities
    and not-a-number: the rounding and overflow of an elementary operation
    and the sign of zero are not modelled, while the propagation of
    not-a-number through arithmetic, its behaviour under comparison (every
    comparison with it is false) and the results of dividing by zero are.

    The rolling mean and the rolling standard deviation, which the
    strategies compare to get their signals, are running computations in
    doubles whose rounding shows on ordinary prices (two windows with the
    same mean need not get the same rolling mean): their values on a full
    window are parameters of the development, and only where they are not a
    number is fixed.  So are square root and real exponentiation, which
    have no exact rational value.  The mean and standard deviation of the
    net returns in the metrics are the exact ones; no property below
    depends on their value on two or more returns.  Labels of an index are
    taken to be distinct: [reindex] on repeated labels, which pandas
    refuses, is not modelled, and the properties that depend on it say
    so. *)

From Stdlib Require Import String Ascii.
From Stdlib Require Import QArith Qabs Qpower ZArith List Bool Arith Lia Lqa.
Import ListNotations.

(* ================================================================== *)
(** ** Float values *)
(* ================================================================== *)

Inductive fval : Type :=
| Fin (q : Q)
| PInf
| NInf
| NaN.

Definition fzero : fval := Fin 0.
Definition fone : fval := Fin 1.

(** Equality of float values up to the representation of the rational. *)
Definition feq (x y : fval) : Prop :=
  match x, y with
  | Fin a, Fin b => a == b
  | PInf, PInf | NInf, NInf | NaN, NaN => True
  | _, _ => False
  end.

Definition isnan (x : fval) : bool :=
  match x with NaN => true | _ => false end.

(** The infinity (or not-a-number) that a non-finite product or quotient
    whose finite operand is [q] takes: the sign of [q], and not-a-number for
    zero. *)
Definition inf_of_sign (q : Q) : fval :=
  match q ?= 0 with
  | Gt => PInf
  | Lt => NInf
  | Eq => NaN
  end.

Definition fneg (x : fval) : fval :=
  match x with
  | Fin q => Fin (- q)
  | PInf => NInf
  | NInf => PInf
  | NaN => NaN
  end.

Definition fadd (x y : fval) : fval :=
  match x, y with
  | NaN, _ | _, NaN => NaN
  | Fin a, Fin b => Fin (a + b)
  | PInf, NInf | NInf, PInf => NaN
  | PInf, _ | _, PInf => PInf
  | NInf, _ | _, NInf => NInf
  end.

Definition fsub (x y : fval) : fval := fadd x (fneg y).

Definition fmul (x y : fval) : fval :=
  match x, y with
  | NaN, _ | _, NaN => NaN
  | Fin a, Fin b => Fin (a * b)
  | Fin a, PInf | PInf, Fin a => inf_of_sign a
  | Fin a, NInf | NInf, Fin a => inf_of_sign (- a)
  | PInf, PInf | NInf, NInf => PInf
  | PInf, NInf | NInf, PInf => NInf
  end.

Definition fdiv (x y : fval) : fval :=
  match x, y with
  | NaN, _ | _, NaN => NaN
  | Fin a, Fin b => if Qeq_bool b 0 then inf_of_sign a else Fin (a / b)
  | Fin _, PInf | Fin _, NInf => Fin 0
  | PInf, Fin b => if Qle_bool 0 b then PInf else NInf
  | NInf, Fin b => if Qle_bool 0 b then NInf else PInf
  | _, _ => NaN
  end.

Definition fabs (x : fval) : fval :=
  match x with
  | Fin q => Fin (Qabs q)
  | PInf | NInf => PInf
  | NaN => NaN
  end.

(** Ordering; [None] when an operand is not-a-number. *)
Definition fcompare (x y : fval) : option comparison :=
  match x, y with
  | NaN, _ | _, NaN => None
  | Fin a, Fin b => Some (a ?= b)
  | NInf, NInf | PInf, PInf => Some Eq
  | NInf, _ | _, PInf => Some Lt
  | _, NInf | PInf, _ => Some Gt
  end.

Definition fgt (x y : fval) : bool :=
  match fcompare x y with Some Gt => true | _ => false end.
Definition flt (x y : fval) : bool :=
  match fcompare x y with Some Lt => true | _ => false end.
Definition fle (x y : fval) : bool :=
  match fcompare x y with Some Lt | Some Eq => true | _ => false end.
Definition feqb (x y : fval) : bool :=
  match fcompare x y with Some Eq => true | _ => false end.
(** Python's [!=]: true when an operand is not-a-number. *)
Definition fne (x y : fval) : bool := negb (feqb x y).

Definition of_Z (z : Z) : fval := Fin (inject_Z z).
Definition of_nat (n : nat) : fval := Fin (inject_Z (Z.of_nat n)).

(* ================================================================== *)
(** ** Series *)
(* ================================================================== *)

(** Timestamps are integers; a Series is its rows in index order. *)
Definition Series (A : Type) : Type := list (Z * A).

Definition index {A} (s : Series A) : list Z := map fst s.
Definition values {A} (s : Series A) : list A := map snd s.

(** [pd.Series(vs, index=idx)]. *)
Definition mk_series {A} (idx : list Z) (vs : list A) : Series A :=
  combine idx vs.

(** Element-wise binary operation of two columns on one index. *)
Definition map2 {A B C} (f : A -> B -> C) (xs : list A) (ys : list B) : list C :=
  map (fun p => f (fst p) (snd p)) (combine xs ys).

(** [s.shift(k)] on the values: every value moves [k] rows down, the first
    [k] rows are not-a-number, the length is kept. *)
Definition shift (k : nat) (vs : list fval) : list fval :=
  firstn (length vs) (repeat NaN k ++ vs).

(** [s.fillna(v)]. *)
Definition fillna (v : fval) (vs : list fval) : list fval :=
  map (fun x => if isnan x then v else x) vs.

(** [signals[mask] = v] on an integer column. *)
Definition mask_assign (sig : list Z) (mask : list bool) (v : Z) : list Z :=
  map2 (fun s (m : bool) => if m then v else s) sig mask.

(** A price column as floats. *)
Definition as_float (ps : list Q) : list fval := map Fin ps.

(* ================================================================== *)
(** ** strategies/momentum.py *)
(* ================================================================== *)

(** [data.pct_change(periods=k)]: [data / data.shift(k) - 1]. *)
Definition pct_change (k : nat) (vs : list fval) : list fval :=
  map2 (fun x prev => fsub (fdiv x prev) fone) vs (shift k vs).

Definition momentum_of (lookback : nat) (data : Series Q) : list fval :=
  pct_change lookback (as_float (values data)).

(** MomentumStrategy.generate_signals *)
Definition momentum_generate_signals (lookback : nat) (data : Series Q)
  : Series Z :=
  let momentum := momentum_of lookback data in
  let signals := repeat 0%Z (length data) in
  let signals := mask_assign signals (map (fun m => fgt m fzero) momentum) 1%Z in
  let signals := mask_assign signals (map (fun m => fle m fzero) momentum) (-1)%Z in
  mk_series (index data) signals.

(* ================================================================== *)
(** ** Column statistics *)
(* ================================================================== *)

Definition fsum (vs : list fval) : fval := fold_right fadd fzero vs.

(** [mean()]: not-a-number on an empty column (0/0). *)
Definition fmean (vs : list fval) : fval := fdiv (fsum vs) (of_nat (length vs)).

Definition fsquare (x : fval) : fval := fmul x x.

(** Sample variance ([ddof=1]): not-a-number with fewer than two values. *)
Definition fvar (vs : list fval) : fval :=
  if (length vs <=? 1)%nat then NaN
  else
    let m := fmean vs in
    fdiv (fsum (map (fun x => fsquare (fsub x m)) vs))
         (of_nat (length vs - 1)).

(** The [w] rows that end at row [i]. *)
Definition window {A} (w i : nat) (xs : list A) : list A :=
  firstn w (skipn (i + 1 - w) xs).

(** [data.rolling(window=w).agg()] on a column of prices, with
    [min_periods = w]: not-a-number until [w] rows are available, and from
    then on the statistic of the window.  pandas does not recompute it from
    the window: it updates a running value, in doubles, as rows enter and
    leave, so the statistic [agg] is given the window size and the rows so
    far. *)
Definition rolling (w : nat) (agg : nat -> list Q -> fval) (prices : list Q)
  : list fval :=
  map (fun i => if (w <=? i + 1)%nat then agg w (firstn (i + 1) prices)
                else NaN)
      (seq 0 (length prices)).

(* ================================================================== *)
(** ** strategies/moving_average.py *)
(* ================================================================== *)

Section MovingAverage.

(** The value that [rolling(window=w).mean()] has on the last of the rows
    so far, for a window of [w >= 1] rows that is full: a running sum in
    doubles divided by [w], which is a double near the mean of the last
    [w] prices and need not be that mean.  It is a parameter of the
    development ([mean_exact] below is the mean itself); overflow is not
    modelled, so it is a number. *)
Variable roll_mean : nat -> list Q -> Q.

(** The mean of a window of no row is not a number. *)
Definition rolling_mean (w : nat) (rows : list Q) : fval :=
  if (w =? 0)%nat then NaN else Fin (roll_mean w rows).

Definition ma_of (w : nat) (data : Series Q) : list fval :=
  rolling w rolling_mean (values data).

(** MovingAverageCrossover.generate_signals *)
Definition crossover_generate_signals (fast slow : nat) (data : Series Q)
  : Series Z :=
  let ma_fast := ma_of fast data in
  let ma_slow := ma_of slow data in
  let signals := repeat 0%Z (length data) in
  let signals := mask_assign signals (map2 fgt ma_fast ma_slow) 1%Z in
  let signals := mask_assign signals (map2 fle ma_fast ma_slow) (-1)%Z in
  mk_series (index data) signals.

End MovingAverage.

(* ================================================================== *)
(** ** strategies/base.py *)
(* ================================================================== *)

(** An integer signal column read as floats (what [shift] does to it). *)
Definition signals_as_float (sig : list Z) : list fval := map of_Z sig.

(** BaseStrategy.get_positions: [signals.shift(1).fillna(0)]. *)
Definition get_positions (signals : Series Z) : Series fval :=
  mk_series (index signals)
            (fillna fzero (shift 1 (signals_as_float (values signals)))).

(** BaseStrategy.calculate_returns *)
Definition calculate_returns (positions market_returns : list fval)
  : list fval :=
  map2 fmul positions market_returns.

(* ================================================================== *)
(** ** backtesting/engine.py: return composition *)
(* ================================================================== *)

Fixpoint lookup (t : Z) (s : Series fval) : option fval :=
  match s with
  | [] => None
  | (t', v) :: rest => if Z.eqb t t' then Some v else lookup t rest
  end.

(** [s.reindex(idx)]: the rows of [s] at the labels of [idx], not-a-number
    at a label [s] does not have.  (Labels of an index are distinct.) *)
Definition reindex (s : Series fval) (idx : list Z) : Series fval :=
  map (fun t => (t, match lookup t s with Some v => v | None => NaN end)) idx.

(** [s.diff()]: [s - s.shift(1)]. *)
Definition diff (vs : list fval) : list fval :=
  map2 fsub vs (shift 1 vs).

(** [s.cumprod()]: a not-a-number row is skipped (it stays not-a-number
    and does not enter the product). *)
Fixpoint cumprod_from (acc : fval) (vs : list fval) : list fval :=
  match vs with
  | [] => []
  | NaN :: rest => NaN :: cumprod_from acc rest
  | v :: rest => let a := fmul acc v in a :: cumprod_from a rest
  end.

Definition cumprod (vs : list fval) : list fval := cumprod_from fone vs.

(** [s.cummax()], skipping not-a-number rows in the same way. *)
Fixpoint cummax_from (acc : option fval) (vs : list fval) : list fval :=
  match vs with
  | [] => []
  | NaN :: rest => NaN :: cummax_from acc rest
  | v :: rest =>
      let m := match acc with
               | None => v
               | Some a => if fgt v a then v else a
               end in
      m :: cummax_from (Some m) rest
  end.

Definition cummax (vs : list fval) : list fval := cummax_from None vs.

(** [s.min()]: the least value that is a number, not-a-number if none. *)
Definition fmin_step (acc v : fval) : fval :=
  match acc, v with
  | _, NaN => acc
  | NaN, _ => v
  | _, _ => if flt v acc then v else acc
  end.

Definition fmin_list (vs : list fval) : fval := fold_left fmin_step vs NaN.

(** [s.dropna()] *)
Definition dropna (vs : list fval) : list fval :=
  filter (fun x => negb (isnan x)) vs.

Record Backtester : Type := mkBacktester {
  initial_capital : Q;
  transaction_cost : Q
}.

(** Lines 69-70 of engine.py: the positions on the index of the returns. *)
Definition align_positions (positions returns_series : Series fval)
  : list fval :=
  fillna fzero (values (reindex positions (index returns_series))).

(** Lines 76-77. *)
Definition trades_of (positions : list fval) : list fval :=
  map fabs (diff positions).

Definition costs_of (cost_rate : Q) (positions : list fval) : list fval :=
  map (fun t => fmul t (Fin cost_rate)) (trades_of positions).

(** Lines 73-78: the net strategy returns of aligned positions. *)
Definition net_returns (cost_rate : Q) (positions market : list fval)
  : list fval :=
  map2 fsub (calculate_returns positions market) (costs_of cost_rate positions).

(** Lines 81 and 84. *)
Definition equity_curve (rets : list fval) : list fval :=
  cumprod (map (fadd fone) rets).

(** Lines 130-132. *)
Definition drawdown_of (cum_returns : list fval) : list fval :=
  map2 (fun c m => fdiv (fsub c m) m) cum_returns (cummax cum_returns).

Definition max_drawdown_of (cum_returns : list fval) : fval :=
  fmin_list (drawdown_of cum_returns).

(* ================================================================== *)
(** ** backtesting/engine.py: the results of a run *)
(* ================================================================== *)

(** The thirteen entries of the metrics dictionary. *)
Record Metrics : Type := mkMetrics {
  m_total_return : fval;
  m_cagr : fval;
  m_volatility : fval;
  m_sharpe : fval;
  m_max_drawdown : fval;
  m_calmar : fval;
  m_win_rate : fval;
  m_total_trades : Z;
  m_avg_win : fval;
  m_avg_loss : fval;
  m_win_loss_ratio : fval;
  m_buy_hold_return : fval;
  m_outperformance : fval
}.

(** [self.results] before the metrics are added (the strategy's name,
    used for printing only, is left out). *)
Record RunData : Type := mkRunData {
  r_signals : Series Z;
  r_positions : Series fval;
  r_strategy_returns : Series fval;
  r_cumulative_returns : Series fval;
  r_buy_hold_cumulative : Series fval;
  r_price_data : Series Q;
  r_market_returns : Series fval
}.

Record Results : Type := mkResults {
  res_data : RunData;
  res_metrics : Metrics
}.

Inductive Strategy : Type :=
| MovingAverageCrossover (fast slow : nat)
| MeanReversionZScore (window : nat) (threshold : Q)
| MomentumStrategy (lookback : nat).

(** [x.iloc[-1]]: fails on an empty column. *)
Definition iloc_last (vs : list fval) : option fval :=
  match rev vs with
  | [] => None
  | v :: _ => Some v
  end.

Definition count (p : fval -> bool) (vs : list fval) : nat :=
  length (filter p vs).

(* ================================================================== *)
(** ** Code that takes square roots and powers *)
(* ================================================================== *)

Section Numerics.

(** The rolling mean, as for the crossover, and the value that
    [rolling(window=w).std()] has on the last of the rows so far, for a
    window of [w >= 2] rows that is full: the square root of a variance
    that pandas updates in doubles.  Nothing is assumed of it
    ([std_exact] below is the sample standard deviation itself). *)
Variable roll_mean : nat -> list Q -> Q.
Variable roll_std : nat -> list Q -> fval.

(** [np.sqrt] and [**] on doubles. *)
Variable fsqrt : fval -> fval.
Variable fpow : fval -> fval -> fval.

(** [std()], with [ddof=1]. *)
Definition fstd (vs : list fval) : fval :=
  if (length vs <=? 1)%nat then NaN else fsqrt (fvar vs).

(* ---------------------------------------------------------------- *)
(** *** strategies/mean_reversion.py *)

(** The sample standard deviation ([ddof=1]) of a window of fewer than two
    rows is not a number. *)
Definition rolling_std (w : nat) (rows : list Q) : fval :=
  if (w <=? 1)%nat then NaN else roll_std w rows.

Definition rolling_mean_of (w : nat) (data : Series Q) : list fval :=
  rolling w (rolling_mean roll_mean) (values data).

Definition rolling_std_of (w : nat) (data : Series Q) : list fval :=
  rolling w rolling_std (values data).

Definition zscore_of (w : nat) (data : Series Q) : list fval :=
  let prices := as_float (values data) in
  map2 fdiv (map2 fsub prices (rolling_mean_of w data)) (rolling_std_of w data).

(** MeanReversionZScore.generate_signals *)
Definition zscore_generate_signals (w : nat) (threshold : Q)
           (data : Series Q) : Series Z :=
  let zscore := zscore_of w data in
  let signals := repeat 0%Z (length data) in
  let signals :=
    mask_assign signals (map (fun z => fgt z (Fin threshold)) zscore) (-1)%Z in
  let signals :=
    mask_assign signals (map (fun z => flt z (Fin (- threshold))) zscore) 1%Z in
  mk_series (index data) signals.

Definition generate_signals (s : Strategy) (data : Series Q) : Series Z :=
  match s with
  | MovingAverageCrossover fast slow =>
      crossover_generate_signals roll_mean fast slow data
  | MeanReversionZScore w threshold => zscore_generate_signals w threshold data
  | MomentumStrategy lookback => momentum_generate_signals lookback data
  end.

(* ---------------------------------------------------------------- *)
(** *** backtesting/engine.py: Backtester._calculate_metrics *)

(** [None] stands for the IndexError of [iloc[-1]] on an empty column,
    the one exception the function can raise. *)
Definition calculate_metrics (d : RunData) : option Metrics :=
  let returns := dropna (values (r_strategy_returns d)) in
  let cum_returns := values (r_cumulative_returns d) in
  match iloc_last cum_returns with
  | None => None
  | Some last_cum =>
      let total_return := fsub last_cum fone in
      let n_days := length returns in
      let n_years := fdiv (of_nat n_days) (Fin 252) in
      let cagr :=
        if fgt n_years fzero
        then fsub (fpow (fadd fone total_return) (fdiv fone n_years)) fone
        else fzero in
      let volatility := fmul (fstd returns) (fsqrt (Fin 252)) in
      let sharpe :=
        if fgt (fstd returns) fzero
        then fdiv (fmul (fmean returns) (Fin 252))
                  (fmul (fstd returns) (fsqrt (Fin 252)))
        else fzero in
      let max_drawdown := max_drawdown_of cum_returns in
      let calmar :=
        if fne max_drawdown fzero
        then fdiv cagr (fabs max_drawdown)
        else fzero in
      let wins := count (fun r => fgt r fzero) returns in
      let total_trades := count (fun r => fne r fzero) returns in
      let win_rate :=
        if (0 <? total_trades)%nat
        then fdiv (of_nat wins) (of_nat total_trades)
        else fzero in
      let avg_win :=
        if (0 <? count (fun r => fgt r fzero) returns)%nat
        then fmean (filter (fun r => fgt r fzero) returns)
        else fzero in
      let avg_loss :=
        if (0 <? count (fun r => flt r fzero) returns)%nat
        then fmean (filter (fun r => flt r fzero) returns)
        else fzero in
      let win_loss_ratio :=
        if fne avg_loss fzero
        then fabs (fdiv avg_win avg_loss)
        else fzero in
      match iloc_last (values (r_buy_hold_cumulative d)) with
      | None => None
      | Some last_bh =>
          let buy_hold_return := fsub last_bh fone in
          let outperformance := fsub total_return buy_hold_return in
          Some (mkMetrics total_return cagr volatility sharpe max_drawdown
                          calmar win_rate (Z.of_nat total_trades)
                          avg_win avg_loss win_loss_ratio
                          buy_hold_return outperformance)
      end
  end.

(* ---------------------------------------------------------------- *)
(** *** backtesting/engine.py: Backtester.run (Series input) *)

Definition run_data (bt : Backtester) (strategy : Strategy)
           (price_series : Series Q) (returns_series : Series fval)
  : RunData :=
  let signals := generate_signals strategy price_series in
  let positions := get_positions signals in
  let idx := index returns_series in
  let positions := align_positions positions returns_series in
  let strategy_returns :=
    net_returns (transaction_cost bt) positions (values returns_series) in
  let cumulative_returns := equity_curve strategy_returns in
  let buy_hold_cumulative := equity_curve (values returns_series) in
  mkRunData signals
            (mk_series idx positions)
            (mk_series idx strategy_returns)
            (mk_series idx cumulative_returns)
            (mk_series idx buy_hold_cumulative)
            price_series
            returns_series.

Definition run (bt : Backtester) (strategy : Strategy)
           (price_data : Series Q) (returns_data : Series fval)
  : option Results :=
  let d := run_data bt strategy price_data returns_data in
  match calculate_metrics d with
  | None => None
  | Some metrics => Some (mkResults d metrics)
  end.

End Numerics.

(* ================================================================== *)
(** ** Computable square root and power, to run the model *)
(* ================================================================== *)

(** Newton's iteration for the [k]-th root of [a], from [y]. *)
Fixpoint newton_root (steps : nat) (k : positive) (a y : Q) : Q :=
  match steps with
  | O => y
  | S n =>
      let km1 := inject_Z (Z.pos k - 1) in
      let y' := Qred ((km1 * y + a / Qpower y (Z.pos k - 1)) / inject_Z (Z.pos k)) in
      newton_root n k a y'
  end.

Definition root_approx (k : positive) (a : Q) : Q :=
  newton_root 5 k a (Qred ((a + 1) / 2)).

Definition sqrt_approx (x : fval) : fval :=
  match x with
  | Fin q =>
      match q ?= 0 with
      | Lt => NaN
      | Eq => Fin 0
      | Gt => Fin (root_approx 2 q)
      end
  | PInf => PInf
  | NInf | NaN => NaN
  end.

(** [x ** y] for finite operands, with the exponent [n/d] in lowest
    terms: for a positive base the [d]-th root of [x^n]; for a negative
    base [x^n] when the exponent is an integer and not-a-number otherwise.
    Infinite operands are not computed. *)
Definition pow_approx (x y : fval) : fval :=
  match x, y with
  | Fin b, Fin e =>
      let e' := Qred e in
      match b ?= 0 with
      | Gt => Fin (root_approx (Qden e') (Qpower b (Qnum e')))
      | Eq =>
          match e' ?= 0 with
          | Gt => Fin 0
          | Eq => Fin 1
          | Lt => PInf
          end
      | Lt =>
          if Pos.eqb (Qden e') 1 then Fin (Qpower b (Qnum e')) else NaN
      end
  | _, _ => NaN
  end.

(* ================================================================== *)
(** ** Reference values for the rolling statistics *)
(* ================================================================== *)

Definition Qsum (xs : list Q) : Q := fold_right Qplus 0 xs.

(** The mean of the [w] prices that end at row [i]. *)
Definition window_mean (w i : nat) (prices : list Q) : Q :=
  Qsum (window w i prices) / inject_Z (Z.of_nat w).

(** Sum of the squared deviations from [mu]. *)
Definition sq_dev_sum (mu : Q) (xs : list Q) : Q :=
  Qsum (map (fun x => (x + - mu) * (x + - mu)) xs).

(** The rolling statistics in exact arithmetic, to run the model: the mean
    of the last [w] of the rows so far and, given a square root, their
    sample standard deviation. *)
Definition mean_exact (w : nat) (rows : list Q) : Q :=
  window_mean w (length rows - 1) rows.

Definition std_exact (fsqrt : fval -> fval) (w : nat) (rows : list Q)
  : fval :=
  fstd fsqrt (as_float (window w (length rows - 1) rows)).

Definition std_approx : nat -> list Q -> fval := std_exact sqrt_approx.

(* ================================================================== *)
(** ** Conditions on values and tables *)
(* ================================================================== *)

Definition is_finite (x : fval) : bool :=
  match x with Fin _ => true | _ => false end.

(** A net return that leaves some equity: a number above -1, or
    not-a-number (a row that is skipped). *)
Definition above_total_loss (x : fval) : bool :=
  match x with
  | Fin q => negb (Qle_bool q (-1))
  | NaN => true
  | PInf | NInf => false
  end.

(** A price: a number other than zero. *)
Definition is_price (v : fval) : bool :=
  match v with
  | Fin q => negb (Qeq_bool q 0)
  | _ => false
  end.

(** A signal: sell, neutral or buy. *)
Definition is_signal (s : Z) : Prop := s = (-1)%Z \/ s = 0%Z \/ s = 1%Z.

(** A position: short, flat or long. *)
Definition is_position (p : fval) : Prop :=
  p = of_Z (-1) \/ p = of_Z 0 \/ p = of_Z 1.

(** The one-period relative changes of a column after a value [prev]. *)
Fixpoint relative_changes (prev : fval) (vs : list fval) : list fval :=
  match vs with
  | [] => []
  | v :: rest => fsub (fdiv v prev) fone :: relative_changes v rest
  end.

(** [y] is not-a-number where [x] is, and is elsewhere a number that
    satisfies [P]. *)
Definition number_where (P : Q -> Prop) (x y : fval) : Prop :=
  (x = NaN /\ y = NaN) \/ (x <> NaN /\ exists q, y = Fin q /\ P q).

(** The entries of a metrics table that are reported as 0 when no net
    return is a number. *)
Definition reports_zeros (m : Metrics) : Prop :=
  m_cagr m = fzero /\ m_sharpe m = fzero /\ m_win_rate m = fzero /\
  m_total_trades m = 0%Z /\ m_avg_win m = fzero /\ m_avg_loss m = fzero /\
  m_win_loss_ratio m = fzero.

(* ================================================================== *)
(** ** Sample inputs *)
(* ================================================================== *)

(** The prices of the specification's scenario A, on rows 0 to 9. *)
Definition scenario_a_prices : Series Q :=
  [(0%Z, 10); (1%Z, 11); (2%Z, 12); (3%Z, 11); (4%Z, 10);
   (5%Z, 9); (6%Z, 10); (7%Z, 11); (8%Z, 12); (9%Z, 13)].

(** Two rows held long, and a market that moves on both. *)
Definition always_long : Series fval := [(0%Z, Fin 1); (1%Z, Fin 1)].
Definition two_day_market : Series fval :=
  [(0%Z, Fin (1 # 100)); (1%Z, Fin (1 # 50))].

(** Two rows of a flat market entered on the second. *)
Definition enter_on_second : Series fval := [(0%Z, Fin 0); (1%Z, Fin 1)].
Definition flat_market : Series fval := [(0%Z, Fin 0); (1%Z, Fin 0)].

(** Three prices whose last one is the mean of the three. *)
Definition back_to_mean : Series Q := [(0%Z, 1); (1%Z, 3); (2%Z, 2)].

(** Prices that stay at 2 for three rows. *)
Definition constant_segment : Series Q :=
  [(0%Z, 1); (1%Z, 3); (2%Z, 2); (3%Z, 2); (4%Z, 2); (5%Z, 7)].

(** A short position held while the price more than doubles. *)
Definition squeeze_prices : Series Q :=
  [(0%Z, 10); (1%Z, 9); (2%Z, 8); (3%Z, 20)].
Definition squeeze_returns : Series fval :=
  [(0%Z, Fin 0); (1%Z, Fin (-1 # 10)); (2%Z, Fin (-1 # 9)); (3%Z, Fin (3 # 2))].

(** A quiet market over the same four rows. *)
Definition quiet_prices : Series Q :=
  [(0%Z, 10); (1%Z, 11); (2%Z, 12); (3%Z, 11)].
Definition quiet_returns : Series fval :=
  [(0%Z, Fin 0); (1%Z, Fin (1 # 10)); (2%Z, Fin (1 # 11)); (3%Z, Fin (-1 # 12))].

Definition default_backtester : Backtester := mkBacktester 100000 (1 # 1000).

(** The same cost rate with another starting capital. *)
Definition small_backtester : Backtester := mkBacktester 500 (1 # 1000).

(** A run over a single row. *)
Definition one_row_prices : Series Q := [(0%Z, 10)].
Definition one_row_returns : Series fval := [(0%Z, Fin 0)].

(* ================================================================== *)
(** ** Readings of the specification that the code does not meet *)
(* ================================================================== *)

(** Momentum: +1 where the momentum is positive, -1 where it is at most
    zero or not a number. *)
Definition momentum_sell_when_undefined (lookback : nat) (data : Series Q)
  : Prop :=
  forall i, (i < length data)%nat ->
    let m := nth i (momentum_of lookback data) NaN in
    let s := nth i (values (momentum_generate_signals lookback data)) 0%Z in
    (fgt m fzero = true -> s = 1%Z) /\
    (fle m fzero = true \/ m = NaN -> s = (-1)%Z).

(** Flat market: cost and net return are zero on every row. *)
Definition flat_market_costless (cost_rate : Q)
           (positions returns_series : Series fval) : Prop :=
  Forall (fun r => feq r fzero) (values returns_series) ->
  let p := align_positions positions returns_series in
  forall i, (i < length returns_series)%nat ->
    feq (nth i (costs_of cost_rate p) NaN) fzero /\
    feq (nth i (net_returns cost_rate p (values returns_series)) NaN) fzero.

(** Mean reversion: -1 where the z-score is above the threshold, +1 where
    it is below the negated threshold, 0 elsewhere. *)
Definition zscore_sell_above_threshold (roll_mean : nat -> list Q -> Q)
           (roll_std : nat -> list Q -> fval) (w : nat) (threshold : Q)
           (data : Series Q) : Prop :=
  forall i, (i < length data)%nat ->
    let z := nth i (zscore_of roll_mean roll_std w data) NaN in
    let s := nth i (values (zscore_generate_signals roll_mean roll_std w
                                                    threshold data)) 0%Z in
    (fgt z (Fin threshold) = true -> s = (-1)%Z) /\
    (flt z (Fin (- threshold)) = true -> s = 1%Z) /\
    (fgt z (Fin threshold) = false -> flt z (Fin (- threshold)) = false ->
     s = 0%Z).

(** First row: the trade is measured from an implicit position 0. *)
Definition first_trade_from_flat (cost_rate : Q)
           (positions returns_series : Series fval) : Prop :=
  returns_series <> [] ->
  let p := align_positions positions returns_series in
  feq (nth 0 (trades_of p) NaN) (fabs (fsub (nth 0 p NaN) fzero)) /\
  feq (nth 0 (costs_of cost_rate p) NaN)
      (fmul (fabs (nth 0 p NaN)) (Fin cost_rate)).

(** No cost, always long: net returns are the market returns on every
    row, the first included. *)
Definition zero_cost_long_is_market (positions returns_series : Series fval)
  : Prop :=
  let p := align_positions positions returns_series in
  Forall (fun x => feq x fone) p ->
  forall i, (i < length returns_series)%nat ->
    feq (nth i (net_returns 0 p (values returns_series)) NaN)
        (nth i (values returns_series) NaN).

(** Max drawdown of a run with a net return that is a number lies in
    [-1, 0]. *)
Definition drawdown_in_unit_interval (roll_mean : nat -> list Q -> Q)
           (roll_std : nat -> list Q -> fval) (fsqrt : fval -> fval)
           (fpow : fval -> fval -> fval) (bt : Backtester)
           (strategy : Strategy) (price_data : Series Q)
           (returns_data : Series fval) : Prop :=
  dropna (values (r_strategy_returns
                    (run_data roll_mean roll_std bt strategy price_data returns_data)))
  <> [] ->
  exists res d,
    run roll_mean roll_std fsqrt fpow bt strategy price_data returns_data = Some res /\
    m_max_drawdown (res_metrics res) = Fin d /\ -1 <= d /\ d <= 0.

(** No metrics table when no net return is a number. *)
Definition empty_returns_rejected (fsqrt : fval -> fval)
           (fpow : fval -> fval -> fval) (d : RunData) : Prop :=
  dropna (values (r_strategy_returns d)) = [] ->
  calculate_metrics fsqrt fpow d = None.

(* ================================================================== *)
(** ** DataFrames *)
(* ================================================================== *)

(** A DataFrame is its index and its named columns; every column of a
    pandas frame has one value per label of the index ([well_formed]).
    Column names are distinct. *)
Record DataFrame : Type := mkFrame {
  df_index : list Z;
  df_columns : list (string * list fval)
}.

Definition well_formed (df : DataFrame) : Prop :=
  Forall (fun c => length (snd c) = length (df_index df)) (df_columns df).

Definition nrows (df : DataFrame) : nat := length (df_index df).

Fixpoint find_column (name : string) (cols : list (string * list fval))
  : option (list fval) :=
  match cols with
  | [] => None
  | (n, vs) :: rest => if String.eqb name n then Some vs else find_column name rest
  end.

(** [df[name]]: [None] stands for the KeyError of a missing column. *)
Definition frame_column (name : string) (df : DataFrame)
  : option (Series fval) :=
  match find_column name (df_columns df) with
  | None => None
  | Some vs => Some (mk_series (df_index df) vs)
  end.

Definition map_columns (f : list fval -> list fval) (df : DataFrame)
  : DataFrame :=
  mkFrame (df_index df) (map (fun c => (fst c, f (snd c))) (df_columns df)).

(** [ffill()] on a column: a missing value takes the last value before it
    that is not missing, and stays missing when there is none. *)
Fixpoint ffill_from (last : fval) (vs : list fval) : list fval :=
  match vs with
  | [] => []
  | v :: rest =>
      let v' := if isnan v then last else v in
      v' :: ffill_from v' rest
  end.

Definition ffill (vs : list fval) : list fval := ffill_from NaN vs.

(** [bfill()] on a column: the same from the other end. *)
Fixpoint bfill (vs : list fval) : list fval :=
  match vs with
  | [] => []
  | v :: rest =>
      let rest' := bfill rest in
      (if isnan v then hd NaN rest' else v) :: rest'
  end.

(** [df.isnull().sum().sum()] *)
Definition count_missing (df : DataFrame) : nat :=
  list_sum (map (fun c => count isnan (snd c)) (df_columns df)).

(** No column is missing a value on row [i]. *)
Definition row_complete (cols : list (string * list fval)) (i : nat) : bool :=
  forallb (fun c => negb (isnan (nth i (snd c) NaN))) cols.

(** [df.dropna()]: the rows with no missing value, in order. *)
Definition frame_dropna (df : DataFrame) : DataFrame :=
  let kept := filter (row_complete (df_columns df)) (seq 0 (nrows df)) in
  mkFrame (map (fun i => nth i (df_index df) 0%Z) kept)
          (map (fun c => (fst c, map (fun i => nth i (snd c) NaN) kept))
               (df_columns df)).

(** [df.pct_change()], one period, column by column, on a frame without
    missing values (what [clean_data] leaves): there the filling of missing
    prices that older versions of pandas do first changes nothing. *)
Definition frame_pct_change (df : DataFrame) : DataFrame :=
  map_columns (pct_change 1) df.

(* ================================================================== *)
(** ** data/collector.py *)
(* ================================================================== *)

Module Collector.

(** The attributes of a DataCollector that its methods read and write.
    [price_data] is set by [fetch_data] and [returns] by
    [calculate_returns]; before that the attribute does not exist. *)
Record t : Type := mk {
  cache_dir : string;
  use_cache : bool;
  price_data : option DataFrame;
  returns : option DataFrame
}.

Definition set_price_data (c : t) (df : DataFrame) : t :=
  mk (cache_dir c) (use_cache c) (Some df) (returns c).

Definition set_returns (c : t) (df : DataFrame) : t :=
  mk (cache_dir c) (use_cache c) (price_data c) (Some df).

(** Lines 146-151 and 154-158 of [clean_data] on the frame. *)
Definition clean_frame (method : string) (df : DataFrame) : DataFrame :=
  let df :=
    if String.eqb method "ffill" then map_columns bfill (map_columns ffill df)
    else if String.eqb method "bfill" then map_columns ffill (map_columns bfill df)
    else if String.eqb method "drop" then frame_dropna df
    else df in
  if (0 <? count_missing df)%nat then frame_dropna df else df.

(** DataCollector.clean_data: the cleaned frame and the collector that
    holds it; [None] stands for the AttributeError raised when no price
    data was fetched. *)
Definition clean_data (method : string) (c : t) : option (DataFrame * t) :=
  match price_data c with
  | None => None
  | Some df =>
      let df := clean_frame method df in
      Some (df, set_price_data c df)
  end.

Section Log.

(** [np.log] on doubles. *)
Variable flog : fval -> fval.

Definition frame_log_returns (df : DataFrame) : DataFrame :=
  map_columns (fun vs => map flog (map2 fdiv vs (shift 1 vs))) df.

(** DataCollector.calculate_returns: with a method other than 'simple' and
    'log' nothing is assigned and the returns of an earlier call, if any,
    are returned; [None] stands for the AttributeError raised when the
    attribute that is read does not exist. *)
Definition calculate_returns (method : string) (c : t)
  : option (DataFrame * t) :=
  let updated :=
    if String.eqb method "simple" then
      match price_data c with
      | None => None
      | Some df => Some (set_returns c (frame_dropna (frame_pct_change df)))
      end
    else if String.eqb method "log" then
      match price_data c with
      | None => None
      | Some df => Some (set_returns c (frame_dropna (frame_log_returns df)))
      end
    else Some c in
  match updated with
  | None => None
  | Some c' =>
      match returns c' with
      | None => None
      | Some r => Some (r, c')
      end
  end.

End Log.

Definition replace_char (a b : ascii) (s : string) : string :=
  string_of_list_ascii
    (map (fun ch => if Ascii.eqb ch a then b else ch) (list_ascii_of_string s)).

Definition starts_with_sep (s : string) : bool :=
  match s with
  | String ch _ => Ascii.eqb ch "/"
  | EmptyString => false
  end.

Definition ends_with_sep (s : string) : bool :=
  match rev (list_ascii_of_string s) with
  | ch :: _ => Ascii.eqb ch "/"
  | [] => false
  end.

(** [os.path.join(a, b)] (POSIX). *)
Definition path_join (a b : string) : string :=
  if starts_with_sep b then b
  else if String.eqb a "" || ends_with_sep a then String.append a b
  else String.append a (String.append "/" b).

(** DataCollector._get_cache_filename *)
Definition get_cache_filename (c : t) (ticker start_date end_date
                                       data_type : string) : string :=
  let safe_data_type := replace_char " " "_" data_type in
  let filename :=
    String.append ticker
      (String.append "_"
         (String.append start_date
            (String.append "_"
               (String.append end_date
                  (String.append "_"
                     (String.append safe_data_type ".pkl")))))) in
  path_join (cache_dir c) filename.

End Collector.

(* ================================================================== *)
(** ** backtesting/engine.py: Backtester.export_results *)
(* ================================================================== *)

(** One row of the exported table. *)
Record ExportRow : Type := mkExportRow {
  e_date : Z;
  e_price : Q;
  e_signal : Z;
  e_position : fval;
  e_strategy_returns : fval;
  e_cumulative_returns : fval;
  e_buy_hold_returns : fval
}.

Definition same_length3 {A B C} (a : list A) (b : list B) (c : list C)
  : bool :=
  (length a =? length b)%nat && (length a =? length c)%nat.

Fixpoint export_rows (dates : list Z) (prices : list Q) (signals : list Z)
         (positions srets cum bh : list fval) : list ExportRow :=
  match dates, prices, signals, positions, srets, cum, bh with
  | d :: dates', p :: prices', s :: signals', x :: positions',
    r :: srets', c :: cum', b :: bh' =>
      mkExportRow d p s x r c b
      :: export_rows dates' prices' signals' positions' srets' cum' bh'
  | _, _, _, _, _, _, _ => []
  end.

(** The table that [export_results] builds from the seven arrays and
    writes with [to_csv]; [None] stands for the ValueError that
    [pd.DataFrame] raises when the arrays do not all have the same
    length. *)
Definition export_results (res : Results) : option (list ExportRow) :=
  let d := res_data res in
  let dates := index (r_cumulative_returns d) in
  let prices := values (r_price_data d) in
  let signals := values (r_signals d) in
  let positions := values (r_positions d) in
  let srets := values (r_strategy_returns d) in
  let cum := values (r_cumulative_returns d) in
  let bh := values (r_buy_hold_cumulative d) in
  if same_length3 dates prices signals
     && same_length3 dates positions srets
     && same_length3 dates cum bh
  then Some (export_rows dates prices signals positions srets cum bh)
  else None.

(* ================================================================== *)
(** ** config.py and main.py *)
(* ================================================================== *)

Definition DEFAULT_TICKERS : list string :=
  ["SPY"; "QQQ"; "IWM"; "GLD"; "TLT"]%string.
Definition MA_FAST : nat := 20.
Definition MA_SLOW : nat := 50.
Definition ZSCORE_WINDOW : nat := 20.
Definition ZSCORE_THRESHOLD : Q := 2.
Definition MOMENTUM_LOOKBACK : nat := 20.
Definition INITIAL_CAPITAL : Q := 100000.
Definition TRANSACTION_COST : Q := 1 # 1000.

(** [main], lines 70-89: the strategies selected by the (stripped) answer
    to the strategy prompt, an empty answer standing for "1". *)
Definition select_strategies (answer : string) : list Strategy :=
  let choice := if String.eqb answer "" then "1"%string else answer in
  (if String.eqb choice "1" || String.eqb choice "4"
   then [MovingAverageCrossover MA_FAST MA_SLOW] else [])
  ++ (if String.eqb choice "2" || String.eqb choice "4"
      then [MeanReversionZScore ZSCORE_WINDOW ZSCORE_THRESHOLD] else [])
  ++ (if String.eqb choice "3" || String.eqb choice "4"
      then [MomentumStrategy MOMENTUM_LOOKBACK] else []).

Definition string_in (s : string) (l : list string) : bool :=
  existsb (String.eqb s) l.

(** [main], lines 92-97: the ticker selected by the (stripped) answer to
    the ticker prompt. *)
Definition select_ticker (answer : string) : string :=
  let default := hd ""%string DEFAULT_TICKERS in
  let ticker := if String.eqb answer "" then default else answer in
  if string_in ticker DEFAULT_TICKERS then ticker else default.

(** A price column read as floats, with its index. *)
Definition series_as_float (s : Series Q) : Series fval :=
  map (fun r => (fst r, Fin (snd r))) s.

(* ================================================================== *)
(** ** Sample frames and collectors *)
(* ================================================================== *)

(** A computable logarithm, to run the model: the first terms of
    [2 * atanh ((x - 1) / (x + 1))]. *)
Definition log_approx (x : fval) : fval :=
  match x with
  | Fin q =>
      match q ?= 0 with
      | Gt =>
          let y := (q - 1) / (q + 1) in
          Fin (Qred (2 * (y + y ^ 3 / 3 + y ^ 5 / 5 + y ^ 7 / 7)))
      | Eq => NInf
      | Lt => NaN
      end
  | PInf => PInf
  | NInf | NaN => NaN
  end.

(** Two tickers with gaps: each column has values, none is complete. *)
Definition gappy_frame : DataFrame :=
  mkFrame [0; 1; 2; 3]%Z
          [("SPY"%string, [NaN; Fin 10; NaN; Fin 12]);
           ("QQQ"%string, [Fin 5; NaN; NaN; Fin 8])].

(** A ticker for which nothing was recorded next to a complete one. *)
Definition frame_with_empty_column : DataFrame :=
  mkFrame [0; 1]%Z
          [("SPY"%string, [Fin 10; Fin 11]);
           ("BAD"%string, [NaN; NaN])].

(** The quiet market as a one-column frame. *)
Definition quiet_frame : DataFrame :=
  mkFrame [0; 1; 2; 3]%Z [("SPY"%string, [Fin 10; Fin 11; Fin 12; Fin 11])].

(** Its simple returns: the rows after the first. *)
Definition quiet_simple_returns : Series fval := tl quiet_returns.


Definition collector_with (df : DataFrame) : Collector.t :=
  Collector.mk "data/data_cache" true (Some df) None.

(** A collector before [fetch_data]. *)
Definition fresh_collector : Collector.t :=
  Collector.mk "data/data_cache" true None None.

(* ================================================================== *)
(** * Properties *)
(* ================================================================== *)

(** ** Lists and columns *)

Lemma length_map2 {A B C} (f : A -> B -> C) xs ys :
  length (map2 f xs ys) = Nat.min (length xs) (length ys).
Proof.
  unfold map2. now rewrite length_map, length_combine.
Qed.

Lemma nth_map2 {A B C} (f : A -> B -> C) xs ys i dc da db :
  (i < length xs)%nat -> (i < length ys)%nat ->
  nth i (map2 f xs ys) dc = f (nth i xs da) (nth i ys db).
Proof.
  revert ys i. induction xs as [|x xs IH]; intros [|y ys] [|i] Hx Hy;
    simpl in *; try lia; auto.
  apply IH; lia.
Qed.

Lemma length_shift k vs : length (shift k vs) = length vs.
Proof.
  unfold shift. rewrite length_firstn, length_app. lia.
Qed.

Lemma nth_shift k vs i :
  (i < length vs)%nat ->
  nth i (shift k vs) NaN = if (i <? k)%nat then NaN else nth (i - k) vs NaN.
Proof.
  intros Hi. unfold shift.
  rewrite nth_firstn. 
  destruct (Nat.ltb_spec i (length vs)); try lia.
  destruct (Nat.ltb_spec i k).
  - rewrite app_nth1 by (rewrite repeat_length; lia).
    apply nth_repeat.
  - rewrite app_nth2 by (rewrite repeat_length; lia).
    now rewrite repeat_length.
Qed.

Lemma index_mk_series {A} idx (vs : list A) :
  length idx = length vs -> index (mk_series idx vs) = idx.
Proof.
  unfold index, mk_series. revert vs.
  induction idx as [|t idx IH]; intros [|v vs] H; simpl in *; try lia; auto.
  f_equal. apply IH. lia.
Qed.

Lemma values_mk_series {A} idx (vs : list A) :
  length idx = length vs -> values (mk_series idx vs) = vs.
Proof.
  unfold values, mk_series. revert vs.
  induction idx as [|t idx IH]; intros [|v vs] H; simpl in *; try lia; auto.
  f_equal. apply IH. lia.
Qed.

Lemma length_index {A} (s : Series A) : length (index s) = length s.
Proof. apply length_map. Qed.

Lemma length_values {A} (s : Series A) : length (values s) = length s.
Proof. apply length_map. Qed.

Lemma length_mask_assign sig mask v :
  length mask = length sig -> length (mask_assign sig mask v) = length sig.
Proof.
  intros H. unfold mask_assign. rewrite length_map2. lia.
Qed.

Lemma nth_mask_assign sig mask v i :
  (i < length sig)%nat -> (i < length mask)%nat ->
  nth i (mask_assign sig mask v) 0%Z =
  if nth i mask false then v else nth i sig 0%Z.
Proof.
  intros Hs Hm. unfold mask_assign.
  now rewrite (nth_map2 _ sig mask _ 0%Z 0%Z false).
Qed.

Lemma nth_map_in {A B} (f : A -> B) xs i db da :
  (i < length xs)%nat -> nth i (map f xs) db = f (nth i xs da).
Proof.
  intros H. rewrite (nth_indep _ db (f da)) by now rewrite length_map.
  apply map_nth.
Qed.

Lemma length_fillna v vs : length (fillna v vs) = length vs.
Proof. apply length_map. Qed.

Lemma nth_fillna v vs i :
  (i < length vs)%nat ->
  nth i (fillna v vs) NaN = if isnan (nth i vs NaN) then v else nth i vs NaN.
Proof.
  intros H. unfold fillna.
  now rewrite (nth_map_in _ vs _ NaN NaN).
Qed.

(* ================================================================== *)
(** ** Position translator (strategies/base.py) *)
(* ================================================================== *)

Lemma length_get_positions_values (signals : Series Z) :
  length (fillna fzero (shift 1 (signals_as_float (values signals))))
  = length signals.
Proof.
  rewrite length_fillna, length_shift. unfold signals_as_float.
  now rewrite length_map, length_values.
Qed.

(** C5.  [get_positions] keeps the timestamps of the signal series; its
    value on the first row is 0 and its value on every later row is the
    signal of the row before, unchanged. *)
Theorem get_positions_one_period_lag (signals : Series Z) :
  index (get_positions signals) = index signals /\
  length (get_positions signals) = length signals /\
  forall i, (i < length signals)%nat ->
    nth i (values (get_positions signals)) NaN =
    match i with
    | O => fzero
    | S j => of_Z (nth j (values signals) 0%Z)
    end.
Proof.
  pose proof (length_get_positions_values signals) as Hlen.
  assert (Hidx : length (index signals)
                 = length (fillna fzero (shift 1 (signals_as_float (values signals)))))
    by (rewrite Hlen; apply length_index).
  unfold get_positions. split; [|split].
  - now apply index_mk_series.
  - rewrite <- (length_values (mk_series _ _)), values_mk_series by exact Hidx.
    exact Hlen.
  - intros i Hi. rewrite values_mk_series by exact Hidx.
    assert (Hf : length (signals_as_float (values signals)) = length signals)
      by (unfold signals_as_float; now rewrite length_map, length_values).
    rewrite nth_fillna by (rewrite length_shift; lia).
    rewrite nth_shift by lia.
    destruct i as [|j]; simpl; [reflexivity|].
    rewrite Nat.sub_0_r. unfold signals_as_float.
    rewrite (nth_map_in of_Z (values signals) _ NaN 0%Z)
      by (rewrite length_values; lia).
    reflexivity.
Qed.

Lemma get_positions_one_period_lag_witness :
  nth 2 (values (get_positions [(10, 1); (11, -1); (12, 0)]%Z)) NaN
  = of_Z (-1).
Proof.
  exact (proj2 (proj2 (get_positions_one_period_lag
                         [(10, 1); (11, -1); (12, 0)]%Z))
               2%nat ltac:(simpl; lia)).
Defined.

(* ================================================================== *)
(** ** Momentum (strategies/momentum.py) *)
(* ================================================================== *)

Lemma length_pct_change k vs : length (pct_change k vs) = length vs.
Proof.
  unfold pct_change. rewrite length_map2, length_shift. lia.
Qed.

Lemma length_momentum_of lookback (data : Series Q) :
  length (momentum_of lookback data) = length data.
Proof.
  unfold momentum_of, as_float.
  now rewrite length_pct_change, length_map, length_values.
Qed.

Lemma momentum_warmup lookback (data : Series Q) i :
  (i < length data)%nat -> (i < lookback)%nat ->
  nth i (momentum_of lookback data) NaN = NaN.
Proof.
  intros Hi Hk. unfold momentum_of, pct_change.
  assert (Hl : length (as_float (values data)) = length data)
    by (unfold as_float; now rewrite length_map, length_values).
  rewrite (nth_map2 _ _ _ _ NaN NaN NaN) by (rewrite ?length_shift; lia).
  rewrite nth_shift by lia.
  destruct (Nat.ltb_spec i lookback); [|lia].
  now destruct (nth i (as_float (values data)) NaN).
Qed.

Lemma fgt_fle_exclusive x y : fgt x y = true -> fle x y = false.
Proof.
  unfold fgt, fle. now destruct (fcompare x y) as [[]|].
Qed.

Lemma fcompare_nan_l y : fcompare NaN y = None.
Proof. now destruct y. Qed.

(** Two masked assignments on a column of zeros, row by row: the second
    wins where both masks hold. *)
Lemma two_way_signal n (first second : list bool) (v1 v2 : Z) i :
  length first = n -> length second = n -> (i < n)%nat ->
  nth i (mask_assign (mask_assign (repeat 0%Z n) first v1) second v2) 0%Z =
  (if nth i second false then v2 else if nth i first false then v1 else 0)%Z.
Proof.
  intros Hu Hd Hi.
  assert (H1 : length (mask_assign (repeat 0%Z n) first v1) = n)
    by (rewrite length_mask_assign; rewrite repeat_length; auto).
  rewrite nth_mask_assign by lia.
  rewrite nth_mask_assign by (rewrite ?repeat_length; lia).
  now rewrite nth_repeat.
Qed.

(** C1 (as the code has it).  The momentum signal keeps the timestamps of
    the prices; it is +1 where the momentum is a number above 0, -1 where
    it is a number at most 0, and 0 where it is not a number, which
    includes every one of the first [lookback] rows. *)
Theorem momentum_signal_by_case (lookback : nat) (data : Series Q) :
  index (momentum_generate_signals lookback data) = index data /\
  forall i, (i < length data)%nat ->
    let m := nth i (momentum_of lookback data) NaN in
    let s := nth i (values (momentum_generate_signals lookback data)) 0%Z in
    (fgt m fzero = true -> s = 1%Z) /\
    (fle m fzero = true -> s = (-1)%Z) /\
    (m = NaN -> s = 0%Z) /\
    ((i < lookback)%nat -> m = NaN /\ s = 0%Z).
Proof.
  pose proof (length_momentum_of lookback data) as Hm.
  set (up := map (fun m => fgt m fzero) (momentum_of lookback data)).
  set (down := map (fun m => fle m fzero) (momentum_of lookback data)).
  assert (Hu : length up = length data) by (unfold up; now rewrite length_map).
  assert (Hd : length down = length data) by (unfold down; now rewrite length_map).
  assert (Hlen : length (index data)
                 = length (mask_assign
                             (mask_assign (repeat 0%Z (length data)) up 1%Z)
                             down (-1)%Z)).
  { rewrite length_index, !length_mask_assign; rewrite ?repeat_length; auto.
    rewrite length_mask_assign; rewrite repeat_length; auto. }
  unfold momentum_generate_signals. fold up down. split.
  - now apply index_mk_series.
  - intros i Hi. cbv zeta. rewrite values_mk_series by exact Hlen.
    rewrite (two_way_signal _ up down 1%Z (-1)%Z i Hu Hd Hi).
    unfold up, down.
    rewrite (nth_map_in (fun m => fle m fzero) _ _ false NaN) by lia.
    rewrite (nth_map_in (fun m => fgt m fzero) _ _ false NaN) by lia.
    assert (Hnan : nth i (momentum_of lookback data) NaN = NaN ->
                   (if fle (nth i (momentum_of lookback data) NaN) fzero
                    then -1
                    else if fgt (nth i (momentum_of lookback data) NaN) fzero
                         then 1 else 0)%Z = 0%Z)
      by (intros ->; reflexivity).
    repeat split.
    + intros Hgt. rewrite (fgt_fle_exclusive _ _ Hgt), Hgt. reflexivity.
    + intros Hle. now rewrite Hle.
    + exact Hnan.
    + now apply momentum_warmup.
    + apply Hnan. now apply momentum_warmup.
Qed.

Lemma momentum_signal_by_case_witness :
  nth 0 (values (momentum_generate_signals 1 [(0%Z, 10); (1%Z, 11)])) 0%Z
  = 0%Z.
Proof.
  destruct (momentum_signal_by_case 1 [(0%Z, 10); (1%Z, 11)]) as [_ H].
  destruct (H 0%nat ltac:(simpl; lia)) as (_ & _ & _ & Hw).
  exact (proj2 (Hw ltac:(lia))).
Defined.

(** C1 as stated fails: on prices 10, 11 with a lookback of one row the
    momentum of the first row is not a number and its signal is 0, not -1. *)
Lemma momentum_warmup_is_not_sell :
  ~ momentum_sell_when_undefined 1 [(0%Z, 10); (1%Z, 11)].
Proof.
  intros H. specialize (H 0%nat ltac:(simpl; lia)).
  cbv zeta in H. destruct H as [_ H].
  specialize (H (or_intror eq_refl)). vm_compute in H. discriminate H.
Qed.

(* ================================================================== *)
(** ** Comparisons and rolling windows *)
(* ================================================================== *)

Lemma fgt_fin a b : fgt (Fin a) (Fin b) = true <-> b < a.
Proof.
  unfold fgt; simpl. rewrite Qlt_alt. rewrite <- (Qcompare_antisym a b).
  destruct (a ?= b); simpl; split; congruence.
Qed.

Lemma flt_fin a b : flt (Fin a) (Fin b) = true <-> a < b.
Proof.
  unfold flt; simpl. rewrite Qlt_alt.
  destruct (a ?= b); simpl; split; congruence.
Qed.

Lemma fle_fin a b : fle (Fin a) (Fin b) = true <-> a <= b.
Proof.
  unfold fle; simpl. rewrite Qle_alt.
  destruct (a ?= b); simpl; split; congruence.
Qed.

Lemma Qeq_bool_of_nat_pos w :
  (0 < w)%nat -> Qeq_bool (inject_Z (Z.of_nat w)) 0 = false.
Proof.
  intros H. destruct (Qeq_bool (inject_Z (Z.of_nat w)) 0) eqn:E; auto.
  apply Qeq_bool_eq in E. unfold Qeq in E. simpl in E. lia.
Qed.

Lemma fsum_as_float xs : fsum (as_float xs) = Fin (Qsum xs).
Proof.
  induction xs as [|x xs IH]; simpl; [reflexivity|].
  unfold fsum, as_float in *. simpl. now rewrite IH.
Qed.

Lemma length_window {A} w i (xs : list A) :
  (w <= i + 1)%nat -> (i < length xs)%nat -> length (window w i xs) = w.
Proof.
  intros Hw Hi. unfold window. rewrite length_firstn, length_skipn. lia.
Qed.

Lemma length_rolling w agg ps : length (rolling w agg ps) = length ps.
Proof.
  unfold rolling. now rewrite length_map, length_seq.
Qed.

Lemma nth_rolling w agg ps i :
  (i < length ps)%nat ->
  nth i (rolling w agg ps) NaN =
  if (w <=? i + 1)%nat then agg w (firstn (i + 1) ps) else NaN.
Proof.
  intros Hi. unfold rolling.
  rewrite (nth_map_in _ (seq 0 (length ps)) _ NaN 0%nat)
    by now rewrite length_seq.
  now rewrite seq_nth.
Qed.

Lemma length_as_float_values (data : Series Q) :
  length (as_float (values data)) = length data.
Proof.
  unfold as_float. now rewrite length_map, length_values.
Qed.

Lemma fmean_as_float xs :
  (0 < length xs)%nat ->
  fmean (as_float xs)
  = Fin (Qsum xs / inject_Z (Z.of_nat (length xs))).
Proof.
  intros H. unfold fmean. rewrite fsum_as_float.
  unfold as_float. rewrite length_map. unfold of_nat, fdiv.
  now rewrite Qeq_bool_of_nat_pos.
Qed.

(** The window that ends at row [i] is within the rows up to row [i]. *)
Lemma window_of_firstn {A} w i (xs : list A) :
  (w <= i + 1)%nat -> window w i (firstn (i + 1) xs) = window w i xs.
Proof.
  intros Hw. unfold window.
  rewrite skipn_firstn_comm, firstn_firstn. f_equal. lia.
Qed.

(* ================================================================== *)
(** ** Crossover (strategies/moving_average.py) *)
(* ================================================================== *)

Section Crossover.

Variable roll_mean : nat -> list Q -> Q.

Lemma length_ma_of w (data : Series Q) :
  length (ma_of roll_mean w data) = length data.
Proof.
  unfold ma_of. now rewrite length_rolling, length_values.
Qed.

(** The rolling mean is a number exactly when the window is not empty and
    is full; it is then the value computed from the rows so far. *)
Lemma ma_defined w (data : Series Q) i :
  (i < length data)%nat -> (0 < w)%nat -> (w <= i + 1)%nat ->
  nth i (ma_of roll_mean w data) NaN
  = Fin (roll_mean w (firstn (i + 1) (values data))).
Proof.
  intros Hi H0 Hw. unfold ma_of.
  rewrite nth_rolling by (rewrite length_values; lia).
  destruct (Nat.leb_spec w (i + 1)); [|lia].
  unfold rolling_mean. destruct (Nat.eqb_spec w 0); [lia | reflexivity].
Qed.

Lemma ma_undefined w (data : Series Q) i :
  (i < length data)%nat -> (w = 0 \/ i + 1 < w)%nat ->
  nth i (ma_of roll_mean w data) NaN = NaN.
Proof.
  intros Hi Hw. unfold ma_of.
  rewrite nth_rolling by (rewrite length_values; lia).
  destruct (Nat.leb_spec w (i + 1)); [|reflexivity].
  assert (w = 0)%nat as -> by lia. reflexivity.
Qed.

(** C6.  The crossover signal keeps the timestamps of the prices.  On each
    row it is 0 where either rolling mean is not a number, which is where
    its window is not yet full (or empty); where both windows are full both
    means are numbers - the values that the rolling mean computes from the
    rows so far - and the signal is +1 where the fast mean is above the slow
    mean and -1 where it is at most the slow mean (a tie gives -1). *)
Theorem crossover_signal_by_case (fast slow : nat) (data : Series Q) :
  index (crossover_generate_signals roll_mean fast slow data) = index data /\
  forall i, (i < length data)%nat ->
    let f := nth i (ma_of roll_mean fast data) NaN in
    let sl := nth i (ma_of roll_mean slow data) NaN in
    let s := nth i (values (crossover_generate_signals roll_mean fast slow
                                                       data)) 0%Z in
    (f = NaN \/ sl = NaN -> s = 0%Z) /\
    ((fast = 0 \/ i + 1 < fast \/ slow = 0 \/ i + 1 < slow)%nat ->
     (f = NaN \/ sl = NaN) /\ s = 0%Z) /\
    ((0 < fast <= i + 1)%nat -> (0 < slow <= i + 1)%nat ->
     let a := roll_mean fast (firstn (i + 1) (values data)) in
     let b := roll_mean slow (firstn (i + 1) (values data)) in
     f = Fin a /\ sl = Fin b /\
     (b < a -> s = 1%Z) /\
     (a <= b -> s = (-1)%Z)).
Proof.
  set (up := map2 fgt (ma_of roll_mean fast data) (ma_of roll_mean slow data)).
  set (down :=
         map2 fle (ma_of roll_mean fast data) (ma_of roll_mean slow data)).
  pose proof (length_ma_of fast data) as Hf.
  pose proof (length_ma_of slow data) as Hs.
  assert (Hu : length up = length data)
    by (unfold up; rewrite length_map2; lia).
  assert (Hd : length down = length data)
    by (unfold down; rewrite length_map2; lia).
  assert (Hlen : length (index data)
                 = length (mask_assign
                             (mask_assign (repeat 0%Z (length data)) up 1%Z)
                             down (-1)%Z)).
  { rewrite length_index, !length_mask_assign; rewrite ?repeat_length; auto.
    rewrite length_mask_assign; rewrite repeat_length; auto. }
  unfold crossover_generate_signals. fold up down. split.
  - now apply index_mk_series.
  - intros i Hi. cbv zeta. rewrite values_mk_series by exact Hlen.
    rewrite (two_way_signal _ up down 1%Z (-1)%Z i Hu Hd Hi).
    unfold up, down.
    rewrite (nth_map2 fle _ _ _ false NaN NaN) by lia.
    rewrite (nth_map2 fgt _ _ _ false NaN NaN) by lia.
    assert (Hnan : nth i (ma_of roll_mean fast data) NaN = NaN \/
                   nth i (ma_of roll_mean slow data) NaN = NaN ->
                   (if fle (nth i (ma_of roll_mean fast data) NaN)
                           (nth i (ma_of roll_mean slow data) NaN)
                    then -1
                    else if fgt (nth i (ma_of roll_mean fast data) NaN)
                                (nth i (ma_of roll_mean slow data) NaN)
                         then 1 else 0)%Z = 0%Z).
    { intros [-> | ->]; [reflexivity|].
      now destruct (nth i (ma_of roll_mean fast data) NaN). }
    split; [exact Hnan|]. split.
    + intros Hshort.
      assert (Hor : nth i (ma_of roll_mean fast data) NaN = NaN \/
                    nth i (ma_of roll_mean slow data) NaN = NaN).
      { destruct Hshort as [H | [H | [H | H]]].
        - left. apply ma_undefined; auto.
        - left. apply ma_undefined; auto.
        - right. apply ma_undefined; auto.
        - right. apply ma_undefined; auto. }
      split; [exact Hor | now apply Hnan].
    + intros [Hf0 Hf1] [Hs0 Hs1].
      rewrite (ma_defined fast data i Hi Hf0 Hf1),
        (ma_defined slow data i Hi Hs0 Hs1).
      repeat split.
      * intros Hlt. apply fgt_fin in Hlt.
        now rewrite (fgt_fle_exclusive _ _ Hlt), Hlt.
      * intros Hle. apply fle_fin in Hle. now rewrite Hle.
Qed.

End Crossover.

(** In exact arithmetic the rolling mean of a full window is the mean of
    its [w] prices. *)
Lemma ma_exact w (data : Series Q) i :
  (i < length data)%nat -> (0 < w)%nat -> (w <= i + 1)%nat ->
  nth i (ma_of mean_exact w data) NaN
  = Fin (window_mean w i (values data)).
Proof.
  intros Hi H0 Hw. rewrite ma_defined by assumption.
  unfold mean_exact, window_mean.
  rewrite length_firstn, length_values.
  replace (Nat.min (i + 1) (length data) - 1)%nat with i by lia.
  now rewrite window_of_firstn.
Qed.

Lemma crossover_signal_by_case_witness :
  nth 4 (values (crossover_generate_signals mean_exact 2 3 scenario_a_prices))
      0%Z
  = (-1)%Z.
Proof.
  destruct (crossover_signal_by_case mean_exact 2 3 scenario_a_prices)
    as [_ H].
  destruct (H 4%nat ltac:(simpl; lia)) as (_ & _ & Hfull).
  destruct (Hfull ltac:(lia) ltac:(lia)) as (_ & _ & _ & Hle).
  apply Hle. vm_compute. discriminate.
Defined.

(* ================================================================== *)
(** ** Return composition (backtesting/engine.py, lines 69-84) *)
(* ================================================================== *)

Lemma fsub_nan_r x : fsub x NaN = NaN.
Proof. now destruct x. Qed.

Lemma values_reindex s idx :
  values (reindex s idx)
  = map (fun t => match lookup t s with Some v => v | None => NaN end) idx.
Proof.
  unfold values, reindex. rewrite map_map. reflexivity.
Qed.

Lemma length_align_positions positions (returns_series : Series fval) :
  length (align_positions positions returns_series) = length returns_series.
Proof.
  unfold align_positions.
  now rewrite length_fillna, values_reindex, length_map, length_index.
Qed.

Lemma length_diff vs : length (diff vs) = length vs.
Proof.
  unfold diff. rewrite length_map2, length_shift. lia.
Qed.

Lemma nth_diff vs i :
  (i < length vs)%nat ->
  nth i (diff vs) NaN =
  match i with
  | O => NaN
  | S j => fsub (nth i vs NaN) (nth j vs NaN)
  end.
Proof.
  intros Hi. unfold diff.
  rewrite (nth_map2 fsub _ _ _ NaN NaN NaN) by (rewrite ?length_shift; lia).
  rewrite nth_shift by lia.
  destruct i as [|j]; simpl; [apply fsub_nan_r|].
  now rewrite Nat.sub_0_r.
Qed.

Lemma length_trades_of p : length (trades_of p) = length p.
Proof. unfold trades_of. now rewrite length_map, length_diff. Qed.

Lemma nth_trades_of p i :
  (i < length p)%nat ->
  nth i (trades_of p) NaN =
  match i with
  | O => NaN
  | S j => fabs (fsub (nth i p NaN) (nth j p NaN))
  end.
Proof.
  intros Hi. unfold trades_of.
  rewrite (nth_map_in fabs _ _ NaN NaN) by (rewrite length_diff; lia).
  rewrite nth_diff by lia. now destruct i.
Qed.

Lemma length_costs_of c p : length (costs_of c p) = length p.
Proof. unfold costs_of. now rewrite length_map, length_trades_of. Qed.

Lemma nth_costs_of c p i :
  (i < length p)%nat ->
  nth i (costs_of c p) NaN =
  match i with
  | O => NaN
  | S j => fmul (fabs (fsub (nth i p NaN) (nth j p NaN))) (Fin c)
  end.
Proof.
  intros Hi. unfold costs_of.
  rewrite (nth_map_in _ _ _ NaN NaN) by (rewrite length_trades_of; lia).
  rewrite nth_trades_of by lia. now destruct i.
Qed.

Lemma length_net_returns c p m :
  length p = length m -> length (net_returns c p m) = length m.
Proof.
  intros H. unfold net_returns, calculate_returns.
  rewrite !length_map2, length_costs_of. lia.
Qed.

Lemma nth_net_returns c p m i :
  length p = length m -> (i < length m)%nat ->
  nth i (net_returns c p m) NaN =
  fsub (fmul (nth i p NaN) (nth i m NaN)) (nth i (costs_of c p) NaN).
Proof.
  intros Hl Hi. unfold net_returns, calculate_returns.
  rewrite (nth_map2 fsub _ _ _ NaN NaN NaN)
    by (rewrite ?length_map2, ?length_costs_of; lia).
  now rewrite (nth_map2 fmul _ _ _ NaN NaN NaN) by lia.
Qed.

Lemma nth_error_nth_some {A} (l : list A) i d :
  (i < length l)%nat -> nth_error l i = Some (nth i l d).
Proof.
  intros H. now apply nth_error_nth'.
Qed.

(** The first row of the composition: no trade indicator, cost or net
    return. *)
Lemma first_row_undefined (cost_rate : Q)
      (positions returns_series : Series fval) :
  returns_series <> [] ->
  let p := align_positions positions returns_series in
  nth_error (trades_of p) 0 = Some NaN /\
  nth_error (costs_of cost_rate p) 0 = Some NaN /\
  nth_error (net_returns cost_rate p (values returns_series)) 0 = Some NaN.
Proof.
  intros Hne p.
  assert (Hp : length p = length returns_series)
    by apply length_align_positions.
  assert (Hpos : (0 < length returns_series)%nat)
    by (destruct returns_series; simpl; [congruence | lia]).
  repeat split.
  - rewrite (nth_error_nth_some _ _ NaN) by (rewrite length_trades_of; lia).
    now rewrite nth_trades_of by lia.
  - rewrite (nth_error_nth_some _ _ NaN) by (rewrite length_costs_of; lia).
    now rewrite nth_costs_of by lia.
  - rewrite (nth_error_nth_some _ _ NaN)
      by (rewrite length_net_returns; rewrite ?length_values; lia).
    rewrite nth_net_returns by (rewrite ?length_values; lia).
    rewrite nth_costs_of by lia. now rewrite fsub_nan_r.
Qed.

(** C3 (as the code has it).  On the first row of the aligned positions
    the trade indicator is not a number: [diff] has no earlier row and
    nothing stands in for one.  The cost and the net return of the first
    row are therefore not numbers either, whatever the first position is.
    On every later row the trade indicator is |position[t] - position[t-1]|
    and the cost is that times the cost rate. *)
Theorem first_trade_is_undefined (cost_rate : Q)
        (positions returns_series : Series fval) :
  returns_series <> [] ->
  let p := align_positions positions returns_series in
  nth_error (trades_of p) 0 = Some NaN /\
  nth_error (costs_of cost_rate p) 0 = Some NaN /\
  nth_error (net_returns cost_rate p (values returns_series)) 0 = Some NaN /\
  forall i, (S i < length returns_series)%nat ->
    nth_error (trades_of p) (S i)
    = Some (fabs (fsub (nth (S i) p NaN) (nth i p NaN))) /\
    nth_error (costs_of cost_rate p) (S i)
    = Some (fmul (fabs (fsub (nth (S i) p NaN) (nth i p NaN))) (Fin cost_rate)).
Proof.
  intros Hne p.
  destruct (first_row_undefined cost_rate positions returns_series Hne)
    as (Ht & Hc & Hn).
  fold p in Ht, Hc, Hn.
  assert (Hp : length p = length returns_series)
    by apply length_align_positions.
  split; [exact Ht|]. split; [exact Hc|]. split; [exact Hn|].
  intros i Hi. split.
  - rewrite (nth_error_nth_some _ _ NaN) by (rewrite length_trades_of; lia).
    now rewrite nth_trades_of by lia.
  - rewrite (nth_error_nth_some _ _ NaN) by (rewrite length_costs_of; lia).
    now rewrite nth_costs_of by lia.
Qed.

Lemma first_trade_is_undefined_witness :
  nth_error (costs_of (1 # 1000)
               (align_positions [(0%Z, Fin 0); (1%Z, Fin 1)]
                                [(0%Z, Fin (1 # 100)); (1%Z, Fin (1 # 50))]))
            0
  = Some NaN.
Proof.
  destruct (first_trade_is_undefined (1 # 1000)
              [(0%Z, Fin 0); (1%Z, Fin 1)]
              [(0%Z, Fin (1 # 100)); (1%Z, Fin (1 # 50))]
              ltac:(discriminate)) as (_ & H & _).
  exact H.
Defined.

(** C3 as stated fails: with position 0 on the only row, the trade
    indicator of that row is not a number, not |0 - 0| = 0. *)
Lemma first_trade_not_from_flat :
  ~ first_trade_from_flat (1 # 1000)
      [(0%Z, Fin 0)] [(0%Z, Fin (1 # 100))].
Proof.
  intros H. destruct (H ltac:(discriminate)) as [H1 _].
  vm_compute in H1. exact H1.
Qed.

Lemma feq_fone_inv x : feq x fone -> exists a, x = Fin a /\ a == 1.
Proof.
  destruct x; simpl; try contradiction. intros H. now exists q.
Qed.

Lemma feq_fzero_inv x : feq x fzero -> exists a, x = Fin a /\ a == 0.
Proof.
  destruct x; simpl; try contradiction. intros H. now exists q.
Qed.

Lemma inf_of_sign_pos a : 0 < a -> inf_of_sign a = PInf.
Proof.
  intros H. unfold inf_of_sign. apply Qgt_alt in H. now rewrite H.
Qed.

Lemma inf_of_sign_neg a : a < 0 -> inf_of_sign a = NInf.
Proof.
  intros H. unfold inf_of_sign. now rewrite (proj1 (Qlt_alt a 0) H).
Qed.

Lemma Forall_nth_in {A} (P : A -> Prop) l i d :
  Forall P l -> (i < length l)%nat -> P (nth i l d).
Proof.
  intros H Hi. rewrite Forall_forall in H. apply H. now apply nth_In.
Qed.

(** C4 (as the code has it).  With a cost rate of 0 and an aligned position
    of +1 on every row, the net return equals the market return on every
    row after the first; on the first row the net return is not a number,
    because the cost of that row is. *)
Theorem zero_cost_long_tracks_market (positions returns_series : Series fval) :
  let p := align_positions positions returns_series in
  Forall (fun x => feq x fone) p ->
  (returns_series <> [] ->
   nth_error (net_returns 0 p (values returns_series)) 0 = Some NaN) /\
  forall i, (S i < length returns_series)%nat ->
    feq (nth (S i) (net_returns 0 p (values returns_series)) NaN)
        (nth (S i) (values returns_series) NaN).
Proof.
  intros p Hlong.
  assert (Hp : length p = length returns_series)
    by apply length_align_positions.
  split.
  - intros Hne.
    now destruct (first_row_undefined 0 positions returns_series Hne)
      as (_ & _ & H).
  - intros i Hi.
    rewrite nth_net_returns by (rewrite ?length_values; lia).
    rewrite nth_costs_of by lia.
    destruct (feq_fone_inv _ (Forall_nth_in _ p (S i) NaN Hlong ltac:(lia)))
      as (a & -> & Ha).
    destruct (feq_fone_inv _ (Forall_nth_in _ p i NaN Hlong ltac:(lia)))
      as (b & -> & Hb).
    destruct (nth (S i) (values returns_series) NaN) as [r | | |];
      cbv [fsub fmul fabs fneg fadd feq].
    + rewrite Ha. ring.
    + rewrite inf_of_sign_pos by lra. exact I.
    + rewrite inf_of_sign_neg by lra. exact I.
    + exact I.
Qed.

Lemma zero_cost_long_tracks_market_witness :
  feq (nth 1 (net_returns 0 (align_positions always_long two_day_market)
                          (values two_day_market)) NaN)
      (Fin (1 # 50)).
Proof.
  destruct (zero_cost_long_tracks_market always_long two_day_market
              ltac:(vm_compute; repeat (constructor; try reflexivity)))
    as [_ H].
  exact (H 0%nat ltac:(simpl; lia)).
Defined.

(** C4 as stated fails on the first row: held long at no cost over two
    rows, the net return of the first row is not a number while the market
    return is 0.01. *)
Lemma zero_cost_long_first_row_differs :
  ~ zero_cost_long_is_market always_long two_day_market.
Proof.
  intros H.
  specialize (H ltac:(vm_compute; repeat (constructor; try reflexivity))
                0%nat ltac:(simpl; lia)).
  vm_compute in H. exact H.
Qed.

Lemma lookup_finite t s v :
  Forall (fun x => is_finite x = true) (values s) ->
  lookup t s = Some v -> is_finite v = true.
Proof.
  induction s as [|[t' x] s IH]; simpl; intros Hall Hl; [discriminate|].
  inversion Hall; subst.
  destruct (Z.eqb t t'); [now inversion Hl; subst | now apply IH].
Qed.

(** Aligned positions are numbers when the positions are: a missing label
    is filled with 0. *)
Lemma align_positions_finite positions returns_series i :
  Forall (fun x => is_finite x = true) (values positions) ->
  (i < length returns_series)%nat ->
  exists a, nth i (align_positions positions returns_series) NaN = Fin a.
Proof.
  intros Hall Hi. unfold align_positions.
  rewrite nth_fillna
    by (rewrite values_reindex, length_map, length_index; lia).
  rewrite values_reindex.
  rewrite (nth_map_in _ (index returns_series) _ NaN 0%Z)
    by (rewrite length_index; lia).
  destruct (lookup (nth i (index returns_series) 0%Z) positions) as [v|] eqn:E.
  - pose proof (lookup_finite _ _ _ Hall E) as Hv.
    destruct v; try discriminate. simpl. now exists q.
  - simpl. now exists 0.
Qed.

(** C2 (as the code has it).  In a flat market (every market return 0)
    with positions that are numbers, the gross return is 0 on every row,
    the first included, but the cost does not depend on the market: on every row after the
    first it is |position[t] - position[t-1]| times the cost rate and the
    net return is minus that cost.  Cost and net return are therefore 0 on
    a later row where the position did not change, and not where it
    changed at a cost rate other than 0.  On the first row cost and net
    return are not numbers. *)
Theorem flat_market_net_is_minus_cost (cost_rate : Q)
        (positions returns_series : Series fval) :
  Forall (fun x => is_finite x = true) (values positions) ->
  Forall (fun r => feq r fzero) (values returns_series) ->
  let p := align_positions positions returns_series in
  let cost := costs_of cost_rate p in
  let net := net_returns cost_rate p (values returns_series) in
  (forall i, (i < length returns_series)%nat ->
     feq (nth i (calculate_returns p (values returns_series)) NaN) fzero) /\
  (returns_series <> [] ->
   nth_error cost 0 = Some NaN /\ nth_error net 0 = Some NaN) /\
  forall i, (S i < length returns_series)%nat ->
    exists a b,
      nth i p NaN = Fin a /\ nth (S i) p NaN = Fin b /\
      feq (nth (S i) (calculate_returns p (values returns_series)) NaN) fzero /\
      feq (nth (S i) cost NaN) (Fin (Qabs (b - a) * cost_rate)) /\
      feq (nth (S i) net NaN) (Fin (- (Qabs (b - a) * cost_rate))) /\
      (a == b -> feq (nth (S i) cost NaN) fzero /\
                 feq (nth (S i) net NaN) fzero) /\
      (~ a == b -> ~ cost_rate == 0 ->
       ~ feq (nth (S i) cost NaN) fzero /\
       ~ feq (nth (S i) net NaN) fzero).
Proof.
  intros Hfin Hflat p cost net.
  assert (Hp : length p = length returns_series)
    by apply length_align_positions.
  split; [|split].
  - intros i Hi.
    destruct (align_positions_finite positions returns_series i Hfin Hi)
      as [a Ha].
    destruct (feq_fzero_inv _ (Forall_nth_in _ (values returns_series)
                                 i NaN Hflat
                                 ltac:(rewrite length_values; lia)))
      as (r & Hr & Hr0).
    fold p in Ha. unfold calculate_returns.
    rewrite (nth_map2 fmul _ _ _ NaN NaN NaN) by (rewrite ?length_values; lia).
    rewrite Ha, Hr. cbv [fmul feq fzero]. rewrite Hr0. ring.
  - intros Hne.
    destruct (first_row_undefined cost_rate positions
                returns_series Hne) as (_ & Hc & Hn).
    now split.
  - intros i Hi.
    destruct (align_positions_finite positions returns_series i Hfin
                ltac:(lia)) as [a Ha].
    destruct (align_positions_finite positions returns_series (S i) Hfin Hi)
      as [b Hb].
    destruct (feq_fzero_inv _ (Forall_nth_in _ (values returns_series)
                                 (S i) NaN Hflat
                                 ltac:(rewrite length_values; lia)))
      as (r & Hr & Hr0).
    exists a, b. fold p in Ha, Hb.
    unfold cost, net, calculate_returns.
    rewrite (nth_map2 fmul _ _ _ NaN NaN NaN) by (rewrite ?length_values; lia).
    rewrite nth_net_returns by (rewrite ?length_values; lia).
    rewrite nth_costs_of by lia.
    rewrite Ha, Hb, Hr.
    cbv [fsub fmul fabs fneg fadd feq fzero].
    unfold Qminus.
    split; [reflexivity|]. split; [reflexivity|].
    split; [rewrite Hr0; ring|]. split; [reflexivity|].
    split; [rewrite Hr0; ring|]. split.
    + intros Hab.
      assert (E : b + - a == 0) by (rewrite Hab; ring).
      split.
      * rewrite E. simpl. ring.
      * rewrite Hr0, E. simpl. ring.
    + intros Hab Hrate.
      assert (Hd : ~ Qabs (b + - a) * cost_rate == 0).
      { intros E. apply Qmult_integral in E. destruct E as [E | E];
          [|contradiction].
        apply Hab.
        destruct (Qlt_le_dec (b + - a) 0) as [Hneg | Hpos];
          [rewrite Qabs_neg in E by lra | rewrite Qabs_pos in E by lra];
          lra. }
      split; intros E; apply Hd; [exact E|].
      rewrite Hr0 in E. lra.
Qed.

Lemma flat_market_net_is_minus_cost_witness :
  feq (nth 0 (calculate_returns (align_positions enter_on_second flat_market)
                                (values flat_market)) NaN) fzero /\
  exists a b,
    nth 0 (align_positions enter_on_second flat_market) NaN = Fin a /\
    nth 1 (align_positions enter_on_second flat_market) NaN = Fin b /\
    feq (nth 1 (net_returns (1 # 1000)
                  (align_positions enter_on_second flat_market)
                  (values flat_market)) NaN)
        (Fin (- (Qabs (b - a) * (1 # 1000)))).
Proof.
  destruct (flat_market_net_is_minus_cost (1 # 1000)
              enter_on_second flat_market
              ltac:(vm_compute; repeat (constructor; try reflexivity))
              ltac:(vm_compute; repeat (constructor; try reflexivity)))
    as (Hgross & _ & H).
  split; [exact (Hgross 0%nat ltac:(simpl; lia))|].
  destruct (H 0%nat ltac:(simpl; lia))
    as (a & b & Ha & Hb & _ & _ & Hn & _ & _).
  exists a, b. repeat split; assumption.
Defined.

(** C2 as stated fails: entering a long position on the second row of a
    flat market at a cost rate of 0.001 costs 0.001 on that row and the
    net return is -0.001, not 0. *)
Lemma flat_market_entry_costs :
  ~ flat_market_costless (1 # 1000) enter_on_second flat_market.
Proof.
  intros H.
  specialize (H ltac:(vm_compute; repeat (constructor; try reflexivity))
                1%nat ltac:(simpl; lia)).
  destruct H as [H _]. vm_compute in H. discriminate H.
Qed.

(* ================================================================== *)
(** ** Mean reversion (strategies/mean_reversion.py) *)
(* ================================================================== *)

Lemma Qsqr_nonneg_mult a : 0 <= a * a.
Proof.
  destruct (Qlt_le_dec a 0) as [H | H].
  - setoid_replace (a * a) with ((- a) * (- a)) by ring.
    apply Qmult_le_0_compat; lra.
  - now apply Qmult_le_0_compat.
Qed.

Lemma sq_dev_sum_nonneg mu xs : 0 <= sq_dev_sum mu xs.
Proof.
  unfold sq_dev_sum, Qsum.
  induction xs as [|x xs IH]; cbn [map fold_right]; [lra|].
  pose proof (Qsqr_nonneg_mult (x + - mu)). lra.
Qed.

Lemma sq_dev_sum_zero mu xs :
  sq_dev_sum mu xs == 0 -> Forall (fun x => x == mu) xs.
Proof.
  induction xs as [|x xs IH]; intros H; constructor.
  - pose proof (sq_dev_sum_nonneg mu xs) as Hn.
    pose proof (Qsqr_nonneg_mult (x + - mu)) as Hx.
    unfold sq_dev_sum, Qsum in *. cbn [map fold_right] in H.
    assert (E : (x + - mu) * (x + - mu) == 0) by lra.
    apply Qmult_integral in E. lra.
  - apply IH. pose proof (sq_dev_sum_nonneg mu xs) as Hn.
    pose proof (Qsqr_nonneg_mult (x + - mu)) as Hx.
    unfold sq_dev_sum, Qsum in *. cbn [map fold_right] in H. lra.
Qed.

Lemma fsum_sq_dev mu xs :
  fsum (map (fun x => fsquare (fsub x (Fin mu))) (as_float xs))
  = Fin (sq_dev_sum mu xs).
Proof.
  unfold sq_dev_sum, Qsum, fsum, as_float.
  induction xs as [|x xs IH]; simpl; [reflexivity|].
  now rewrite IH.
Qed.

Lemma fvar_as_float xs :
  (1 < length xs)%nat ->
  fvar (as_float xs)
  = Fin (sq_dev_sum (Qsum xs / inject_Z (Z.of_nat (length xs))) xs
         / inject_Z (Z.of_nat (length xs - 1))).
Proof.
  intros H. unfold fvar.
  assert (Hl : length (as_float xs) = length xs)
    by (unfold as_float; apply length_map).
  rewrite Hl. destruct (Nat.leb_spec (length xs) 1); [lia|].
  rewrite fmean_as_float by lia. rewrite fsum_sq_dev.
  unfold of_nat, fdiv. now rewrite Qeq_bool_of_nat_pos by lia.
Qed.

(** The price of row [i] is in the window that ends at row [i]. *)
Lemma last_in_window {A} w i (xs : list A) d :
  (0 < w)%nat -> (w <= i + 1)%nat -> (i < length xs)%nat ->
  In (nth i xs d) (window w i xs).
Proof.
  intros H0 Hw Hi.
  assert (E : nth (w - 1) (window w i xs) d = nth i xs d).
  { unfold window. rewrite nth_firstn.
    destruct (Nat.ltb_spec (w - 1) w); [|lia].
    rewrite nth_skipn. f_equal. lia. }
  rewrite <- E. apply nth_In. rewrite length_window; lia.
Qed.

Lemma fdiv_nan_r x : fdiv x NaN = NaN.
Proof. now destruct x. Qed.

Lemma inf_of_sign_zero a : a == 0 -> inf_of_sign a = NaN.
Proof.
  intros H. unfold inf_of_sign. now rewrite (proj1 (Qeq_alt a 0) H).
Qed.

(** Above a non-negative threshold is not below its negation. *)
Lemma above_not_below z threshold :
  0 <= threshold -> fgt z (Fin threshold) = true ->
  flt z (Fin (- threshold)) = false.
Proof.
  intros H0 Hgt. destruct z as [q | | |]; try reflexivity.
  - apply fgt_fin in Hgt.
    destruct (flt (Fin q) (Fin (- threshold))) eqn:E; [|reflexivity].
    apply flt_fin in E. lra.
  - discriminate Hgt.
Qed.

Section ZScore.

Variable roll_mean : nat -> list Q -> Q.
Variable roll_std : nat -> list Q -> fval.

Lemma length_zscore_of w (data : Series Q) :
  length (zscore_of roll_mean roll_std w data) = length data.
Proof.
  unfold zscore_of, rolling_mean_of, rolling_std_of.
  rewrite !length_map2, !length_rolling, length_as_float_values,
    length_values. lia.
Qed.

Lemma nth_zscore_of w (data : Series Q) i :
  (i < length data)%nat ->
  nth i (zscore_of roll_mean roll_std w data) NaN =
  fdiv (fsub (Fin (nth i (values data) 0))
             (nth i (rolling_mean_of roll_mean w data) NaN))
       (nth i (rolling_std_of roll_std w data) NaN).
Proof.
  intros Hi. unfold zscore_of.
  assert (Hm : length (rolling_mean_of roll_mean w data) = length data)
    by (unfold rolling_mean_of; now rewrite length_rolling, length_values).
  assert (Hs : length (rolling_std_of roll_std w data) = length data)
    by (unfold rolling_std_of; now rewrite length_rolling, length_values).
  rewrite (nth_map2 fdiv _ _ _ NaN NaN NaN)
    by (rewrite ?length_map2, ?length_as_float_values; lia).
  rewrite (nth_map2 fsub _ _ _ NaN NaN NaN)
    by (rewrite ?length_as_float_values; lia).
  unfold as_float.
  now rewrite (nth_map_in Fin (values data) _ NaN 0)
    by (rewrite length_values; lia).
Qed.

(** The rolling standard deviation is not a number before the window is
    full, and on every row for a window of fewer than two rows. *)
Lemma rolling_std_warmup w (data : Series Q) i :
  (i < length data)%nat -> (w <= 1 \/ i + 1 < w)%nat ->
  nth i (rolling_std_of roll_std w data) NaN = NaN.
Proof.
  intros Hi Hw. unfold rolling_std_of.
  rewrite nth_rolling by (rewrite length_values; lia).
  destruct (Nat.leb_spec w (i + 1)); [|reflexivity].
  unfold rolling_std. destruct (Nat.leb_spec w 1); [reflexivity | lia].
Qed.

Lemma rolling_mean_warmup w (data : Series Q) i :
  (i < length data)%nat -> (w = 0 \/ i + 1 < w)%nat ->
  nth i (rolling_mean_of roll_mean w data) NaN = NaN.
Proof.
  intros Hi Hw. exact (ma_undefined roll_mean w data i Hi Hw).
Qed.

(** The two assignments of the mean-reversion strategy on one row, for any
    threshold: the second one (+1, below the negated threshold) wins where
    both masks hold, which a negative threshold allows. *)
Lemma zscore_signal_row (w : nat) (threshold : Q) (data : Series Q) i :
  (i < length data)%nat ->
  nth i (values (zscore_generate_signals roll_mean roll_std w threshold data))
      0%Z =
  (if flt (nth i (zscore_of roll_mean roll_std w data) NaN)
          (Fin (- threshold)) then 1
   else if fgt (nth i (zscore_of roll_mean roll_std w data) NaN)
               (Fin threshold) then -1
        else 0)%Z.
Proof.
  intros Hi.
  pose proof (length_zscore_of w data) as Hz.
  set (over := map (fun z => fgt z (Fin threshold))
                   (zscore_of roll_mean roll_std w data)).
  set (under := map (fun z => flt z (Fin (- threshold)))
                    (zscore_of roll_mean roll_std w data)).
  assert (Ho : length over = length data)
    by (unfold over; now rewrite length_map).
  assert (Hu : length under = length data)
    by (unfold under; now rewrite length_map).
  assert (Hlen : length (index data)
                 = length (mask_assign
                             (mask_assign (repeat 0%Z (length data)) over (-1)%Z)
                             under 1%Z)).
  { rewrite length_index, !length_mask_assign; rewrite ?repeat_length; auto.
    rewrite length_mask_assign; rewrite repeat_length; auto. }
  unfold zscore_generate_signals. fold over under.
  rewrite values_mk_series by exact Hlen.
  rewrite (two_way_signal _ over under (-1)%Z 1%Z i Ho Hu Hi).
  unfold over, under.
  rewrite (nth_map_in (fun z => flt z (Fin (- threshold))) _ _ false NaN)
    by lia.
  now rewrite (nth_map_in (fun z => fgt z (Fin threshold)) _ _ false NaN)
    by lia.
Qed.

Lemma index_zscore_generate_signals (w : nat) (threshold : Q)
      (data : Series Q) :
  index (zscore_generate_signals roll_mean roll_std w threshold data)
  = index data.
Proof.
  pose proof (length_zscore_of w data) as Hz.
  unfold zscore_generate_signals. apply index_mk_series.
  rewrite length_index, !length_mask_assign;
    rewrite ?length_mask_assign, ?repeat_length, ?length_map; auto.
  now rewrite length_map, repeat_length.
Qed.

(** The z-score is not a number where a rolling statistic is not. *)
Lemma zscore_of_undefined (w : nat) (data : Series Q) i :
  (i < length data)%nat ->
  nth i (rolling_std_of roll_std w data) NaN = NaN \/
  nth i (rolling_mean_of roll_mean w data) NaN = NaN ->
  nth i (zscore_of roll_mean roll_std w data) NaN = NaN.
Proof.
  intros Hi [Hs | Hm]; rewrite nth_zscore_of by exact Hi.
  - rewrite Hs. apply fdiv_nan_r.
  - rewrite Hm. now rewrite fsub_nan_r.
Qed.

(** Where the rolling standard deviation is 0 the z-score is a division by
    zero: 0/0 where the price is the rolling mean, an infinity with the
    sign of the deviation elsewhere. *)
Lemma zscore_of_zero_std (w : nat) (data : Series Q) i m :
  (i < length data)%nat ->
  feq (nth i (rolling_std_of roll_std w data) NaN) fzero ->
  nth i (rolling_mean_of roll_mean w data) NaN = Fin m ->
  nth i (zscore_of roll_mean roll_std w data) NaN
  = inf_of_sign (nth i (values data) 0 + - m).
Proof.
  intros Hi Hsd Hmu. rewrite nth_zscore_of by exact Hi. rewrite Hmu.
  destruct (nth i (rolling_std_of roll_std w data) NaN) as [q | | |];
    simpl in Hsd; try contradiction.
  cbv [fsub fneg fadd fdiv]. now rewrite (Qeq_eq_bool _ _ Hsd).
Qed.

(** C7 (as the code has it).  The mean-reversion signal keeps the
    timestamps of the prices.  On each row it is +1 where the z-score is
    below the negated threshold; -1 where it is above the threshold and not
    below the negated threshold; 0 elsewhere.  For a threshold of at least 0
    the two conditions exclude each other, so the signal is -1 wherever the
    z-score is above the threshold.  The z-score is not a number and the
    signal is 0 where the rolling mean or standard deviation is not a
    number, which includes the rows before the window is full.  Where the
    rolling standard deviation is 0, the z-score is not a number and the
    signal is 0 if the price is the rolling mean; if it is above (below) the
    rolling mean the z-score is plus (minus) infinity and the signal is -1
    (+1). *)
Theorem zscore_signal_by_case (w : nat) (threshold : Q) (data : Series Q) :
  index (zscore_generate_signals roll_mean roll_std w threshold data)
  = index data /\
  forall i, (i < length data)%nat ->
    let x := nth i (values data) 0 in
    let z := nth i (zscore_of roll_mean roll_std w data) NaN in
    let mu := nth i (rolling_mean_of roll_mean w data) NaN in
    let sd := nth i (rolling_std_of roll_std w data) NaN in
    let s := nth i (values (zscore_generate_signals roll_mean roll_std w
                                                    threshold data)) 0%Z in
    (flt z (Fin (- threshold)) = true -> s = 1%Z) /\
    (fgt z (Fin threshold) = true -> flt z (Fin (- threshold)) = false ->
     s = (-1)%Z) /\
    (fgt z (Fin threshold) = false -> flt z (Fin (- threshold)) = false ->
     s = 0%Z) /\
    (0 <= threshold -> fgt z (Fin threshold) = true -> s = (-1)%Z) /\
    (sd = NaN \/ mu = NaN -> z = NaN /\ s = 0%Z) /\
    ((i + 1 < w)%nat -> mu = NaN /\ sd = NaN /\ z = NaN /\ s = 0%Z) /\
    (feq sd fzero -> forall m, mu = Fin m ->
     (x == m -> z = NaN /\ s = 0%Z) /\
     (m < x -> z = PInf /\ s = (-1)%Z) /\
     (x < m -> z = NInf /\ s = 1%Z)).
Proof.
  split; [apply index_zscore_generate_signals|].
  intros i Hi. cbv zeta. rewrite (zscore_signal_row w threshold data i Hi).
  assert (Hnan : nth i (zscore_of roll_mean roll_std w data) NaN = NaN ->
                 (if flt (nth i (zscore_of roll_mean roll_std w data) NaN)
                         (Fin (- threshold))
                  then 1
                  else if fgt (nth i (zscore_of roll_mean roll_std w data) NaN)
                              (Fin threshold)
                       then -1 else 0)%Z = 0%Z)
    by (intros ->; reflexivity).
  split; [|split; [|split; [|split; [|split; [|split]]]]].
  - intros Hlt. now rewrite Hlt.
  - intros Hgt Hlt. now rewrite Hlt, Hgt.
  - intros Hgt Hlt. now rewrite Hlt, Hgt.
  - intros H0 Hgt. now rewrite (above_not_below _ _ H0 Hgt), Hgt.
  - intros H. pose proof (zscore_of_undefined w data i Hi H) as Hz.
    split; [exact Hz | now apply Hnan].
  - intros Hw.
    pose proof (rolling_mean_warmup w data i Hi (or_intror Hw)) as Hm.
    pose proof (rolling_std_warmup w data i Hi (or_intror Hw)) as Hs.
    pose proof (zscore_of_undefined w data i Hi (or_introl Hs)) as Hz.
    repeat split; auto.
  - intros Hsd m Hmu.
    rewrite (zscore_of_zero_std w data i m Hi Hsd Hmu).
    unfold inf_of_sign. split; [|split]; intros Hx.
    + rewrite (proj1 (Qeq_alt _ 0)); [now split | rewrite Hx; ring].
    + rewrite (proj1 (Qgt_alt _ 0)); [now split | lra].
    + rewrite (proj1 (Qlt_alt _ 0)); [now split | lra].
Qed.

End ZScore.

Section ZScoreExact.

Variable fsqrt : fval -> fval.

(** The one property of the square root that is used: it is 0 only at 0. *)
Hypothesis fsqrt_zero :
  forall q, 0 <= q -> feq (fsqrt (Fin q)) fzero -> q == 0.

(** In exact arithmetic a rolling standard deviation of 0 means a constant
    window, whose mean is the price of the row: the z-score is then 0/0. *)
Lemma zscore_exact_zero_std w (data : Series Q) i :
  (i < length data)%nat ->
  feq (nth i (rolling_std_of (std_exact fsqrt) w data) NaN) fzero ->
  exists m, nth i (rolling_mean_of mean_exact w data) NaN = Fin m /\
            nth i (values data) 0 == m.
Proof.
  intros Hi Hsd.
  unfold rolling_std_of in Hsd.
  rewrite nth_rolling in Hsd by (rewrite length_values; lia).
  destruct (Nat.leb_spec w (i + 1)) as [Hw|]; [|contradiction].
  unfold rolling_std in Hsd.
  destruct (Nat.leb_spec w 1) as [|Hw1]; [contradiction|].
  unfold std_exact in Hsd.
  rewrite length_firstn, length_values in Hsd.
  replace (Nat.min (i + 1) (length data) - 1)%nat with i in Hsd by lia.
  rewrite window_of_firstn in Hsd by exact Hw.
  unfold fstd in Hsd.
  assert (Hlw : length (window w i (values data)) = w)
    by (rewrite length_window; rewrite ?length_values; lia).
  assert (Hl : length (as_float (window w i (values data))) = w)
    by (unfold as_float; now rewrite length_map).
  rewrite Hl in Hsd.
  destruct (Nat.leb_spec w 1); [lia|].
  rewrite fvar_as_float in Hsd by lia. rewrite Hlw in Hsd.
  set (mu := Qsum (window w i (values data)) / inject_Z (Z.of_nat w)) in *.
  set (ss := sq_dev_sum mu (window w i (values data))) in *.
  assert (Hpos : 0 < inject_Z (Z.of_nat (w - 1))).
  { unfold Qlt. simpl. lia. }
  assert (Hss : ss == 0).
  { pose proof (sq_dev_sum_nonneg mu (window w i (values data))) as Hn.
    fold ss in Hn.
    assert (Hv : ss / inject_Z (Z.of_nat (w - 1)) == 0).
    { apply fsqrt_zero; [|exact Hsd].
      apply Qle_shift_div_l; [exact Hpos | lra]. }
    assert (E : ss == ss / inject_Z (Z.of_nat (w - 1))
                      * inject_Z (Z.of_nat (w - 1)))
      by (field; lra).
    rewrite E, Hv. ring. }
  pose proof (sq_dev_sum_zero mu _ Hss) as Hall.
  rewrite Forall_forall in Hall.
  exists mu. split.
  - exact (ma_exact w data i Hi ltac:(lia) Hw).
  - apply Hall. apply last_in_window; rewrite ?length_values; lia.
Qed.

End ZScoreExact.

(** The computable square root meets the hypothesis of the section. *)
Lemma newton_root_pos steps k a y :
  0 < a -> 0 < y -> 0 < newton_root steps k a y.
Proof.
  intros Ha. revert y.
  induction steps as [|n IH]; intros y Hy; cbn [newton_root]; [exact Hy|].
  apply IH. rewrite Qred_correct.
  assert (Hk : 0 < inject_Z (Z.pos k)) by (unfold Qlt; simpl; lia).
  assert (Hk1 : 0 <= inject_Z (Z.pos k - 1))
    by (change 0 with (inject_Z 0); rewrite <- Zle_Qle; lia).
  assert (Hp : 0 < Qpower y (Z.pos k - 1)) by now apply Qpower_0_lt.
  apply Qlt_shift_div_l; [exact Hk|].
  assert (Hq : 0 < a / Qpower y (Z.pos k - 1)).
  { apply Qlt_shift_div_l; [exact Hp | lra]. }
  assert (Hm : 0 <= inject_Z (Z.pos k - 1) * y)
    by (apply Qmult_le_0_compat; lra).
  lra.
Qed.

Lemma root_approx_pos k a : 0 < a -> 0 < root_approx k a.
Proof.
  intros Ha. unfold root_approx. apply newton_root_pos; [exact Ha|].
  rewrite Qred_correct. apply Qlt_shift_div_l; lra.
Qed.

Lemma sqrt_approx_zero q :
  0 <= q -> feq (sqrt_approx (Fin q)) fzero -> q == 0.
Proof.
  intros _ H. unfold sqrt_approx in H.
  destruct (q ?= 0) eqn:E.
  - now apply Qeq_alt.
  - contradiction.
  - apply Qgt_alt in E. pose proof (root_approx_pos 2 q E) as Hp.
    cbv [feq fzero] in H. lra.
Qed.

Lemma zscore_signal_by_case_witness :
  nth 4 (values (zscore_generate_signals mean_exact std_approx 3 1
                                         constant_segment)) 0%Z
  = 0%Z.
Proof.
  destruct (zscore_signal_by_case mean_exact std_approx 3 1 constant_segment)
    as [_ H].
  destruct (H 4%nat ltac:(simpl; lia)) as (_ & _ & _ & _ & _ & _ & Hzero).
  destruct (Hzero ltac:(vm_compute; reflexivity)
                  (mean_exact 3 (firstn 5 (values constant_segment)))
                  eq_refl) as (Hsame & _).
  exact (proj2 (Hsame ltac:(vm_compute; reflexivity))).
Defined.

(** C7 as stated fails for a negative threshold: with window 3 and
    threshold -1 on prices 1, 3, 2 the z-score of the last row is 0, which
    is above the threshold and below its negation, and the signal is +1,
    not -1. *)
Lemma zscore_negative_threshold_buys :
  ~ zscore_sell_above_threshold mean_exact std_approx 3 (-1) back_to_mean.
Proof.
  intros H. specialize (H 2%nat ltac:(simpl; lia)).
  cbv zeta in H. destruct H as [H _].
  specialize (H ltac:(vm_compute; reflexivity)).
  vm_compute in H. discriminate H.
Qed.

(* ================================================================== *)
(** ** Equity curve and drawdown (backtesting/engine.py) *)
(* ================================================================== *)

Lemma length_cumprod_from acc vs : length (cumprod_from acc vs) = length vs.
Proof.
  revert acc. induction vs as [|v vs IH]; intros acc; [reflexivity|].
  destruct v; simpl; now rewrite IH.
Qed.

Lemma length_equity_curve rets : length (equity_curve rets) = length rets.
Proof.
  unfold equity_curve, cumprod.
  now rewrite length_cumprod_from, length_map.
Qed.

Lemma Qeq_bool_pos m : 0 < m -> Qeq_bool m 0 = false.
Proof.
  intros H. destruct (Qeq_bool m 0) eqn:E; [|reflexivity].
  apply Qeq_bool_eq in E. lra.
Qed.

(** The factors [1 + r] of net returns that leave some equity. *)
Lemma growth_factors_positive net :
  forallb above_total_loss net = true ->
  Forall2 (number_where (fun q => 0 < q)) net (map (fadd fone) net).
Proof.
  induction net as [|x net IH]; simpl; intros H; constructor.
  - apply andb_true_iff in H. destruct H as [Hx _].
    destruct x as [q | | |]; simpl in Hx; try discriminate.
    + right. split; [discriminate|]. exists (1 + q). split; [reflexivity|].
      destruct (Qle_bool q (-1)) eqn:E; [discriminate|].
      destruct (Qlt_le_dec (-1) q) as [Hlt | Hle]; [lra|].
      apply Qle_bool_iff in Hle. congruence.
    + now left.
  - apply IH. apply andb_true_iff in H. tauto.
Qed.

(** A running product of positive factors from a positive seed. *)
Lemma cumprod_from_positive xs fs acc :
  0 < acc ->
  Forall2 (number_where (fun q => 0 < q)) xs fs ->
  Forall2 (number_where (fun q => 0 < q)) xs (cumprod_from (Fin acc) fs).
Proof.
  intros Hacc H. revert acc Hacc.
  induction H as [|x f xs fs Hxf _ IH]; intros acc Hacc; [constructor|].
  destruct Hxf as [[-> ->] | [Hx (q & -> & Hq)]]; simpl.
  - constructor; [now left | now apply IH].
  - constructor.
    + right. split; [exact Hx|]. exists (acc * q).
      split; [reflexivity | now apply Qmult_lt_0_compat].
    + apply IH. now apply Qmult_lt_0_compat.
Qed.

(** The drawdown of a positive curve against its running maximum. *)
Lemma drawdown_from_in_range xs cs (acc : option Q) :
  (forall a, acc = Some a -> 0 < a) ->
  Forall2 (number_where (fun q => 0 < q)) xs cs ->
  Forall2 (number_where (fun d => -1 <= d /\ d <= 0)) xs
          (map2 (fun c m => fdiv (fsub c m) m) cs
                (cummax_from (option_map Fin acc) cs)).
Proof.
  intros Hacc H. revert acc Hacc.
  induction H as [|x c xs cs Hxc _ IH]; intros acc Hacc; [constructor|].
  destruct Hxc as [[-> ->] | [Hx (q & -> & Hq)]].
  - unfold map2. simpl. constructor; [now left | now apply IH].
  - assert (Hm : exists m,
               (match option_map Fin acc with
                | None => Fin q
                | Some a => if fgt (Fin q) a then Fin q else a
                end) = Fin m /\ q <= m /\ 0 < m).
    { destruct acc as [a|]; simpl.
      - specialize (Hacc a eq_refl).
        destruct (fgt (Fin q) (Fin a)) eqn:E.
        + exists q. repeat split; [lra | exact Hq].
        + exists a. repeat split; [|exact Hacc].
          destruct (Qlt_le_dec a q) as [Hlt | Hle]; [|exact Hle].
          apply fgt_fin in Hlt. congruence.
      - exists q. repeat split; [lra | exact Hq]. }
    destruct Hm as (m & Em & Hqm & Hm0).
    unfold map2. cbn [cummax_from combine map fst snd]. rewrite Em.
    constructor.
    + right. split; [exact Hx|].
      exists ((q + - m) / m). split.
      * cbv [fsub fneg fadd fdiv]. now rewrite Qeq_bool_pos.
      * split.
        -- apply Qle_shift_div_l; [exact Hm0 | lra].
        -- apply Qle_shift_div_r; [exact Hm0 | lra].
    + apply (IH (Some m)). intros a Ha. now inversion Ha; subst.
Qed.

(** The least number of a column whose numbers all satisfy [P]. *)
Lemma fmin_from_selects (P : Q -> Prop) ds acc :
  (acc = NaN \/ exists a, acc = Fin a /\ P a) ->
  Forall (fun d => d = NaN \/ exists q, d = Fin q /\ P q) ds ->
  acc <> NaN \/ Exists (fun d => d <> NaN) ds ->
  exists q, fold_left fmin_step ds acc = Fin q /\ P q.
Proof.
  intros Hacc Hall. revert acc Hacc.
  induction Hall as [|d ds Hd _ IH]; intros acc Hacc Hex; simpl.
  - destruct Hex as [Hn | Hex]; [|inversion Hex].
    destruct Hacc as [-> | (a & -> & Ha)]; [congruence | now exists a].
  - apply IH.
    + destruct Hd as [-> | (q & -> & Hq)].
      * destruct acc; exact Hacc.
      * destruct Hacc as [-> | (a & -> & Ha)]; simpl.
        -- right. now exists q.
        -- right. destruct (flt (Fin q) (Fin a)); [now exists q | now exists a].
    + destruct Hd as [-> | (q & -> & Hq)].
      * destruct Hex as [Hn | Hex].
        -- left. now destruct acc.
        -- inversion Hex; subst; [congruence | now right].
      * left. destruct acc; simpl; try discriminate.
        destruct (flt (Fin q) (Fin q0)); discriminate.
Qed.

Lemma Forall2_number_where_right (P : Q -> Prop) xs ys :
  Forall2 (number_where P) xs ys ->
  Forall (fun d => d = NaN \/ exists q, d = Fin q /\ P q) ys.
Proof.
  induction 1 as [|x y xs ys Hxy _ IH]; constructor; [|exact IH].
  destruct Hxy as [[_ ->] | [_ Hq]]; auto.
Qed.

Lemma Forall2_number_where_exists (P : Q -> Prop) xs ys :
  Forall2 (number_where P) xs ys ->
  Exists (fun x => x <> NaN) xs -> Exists (fun y => y <> NaN) ys.
Proof.
  induction 1 as [|x y xs ys Hxy _ IH]; intros Hex; inversion Hex; subst.
  - left. destruct Hxy as [[-> _] | [_ (q & -> & _)]];
      [congruence | discriminate].
  - right. now apply IH.
Qed.

Lemma dropna_nonempty_exists vs :
  dropna vs <> [] -> Exists (fun x => x <> NaN) vs.
Proof.
  induction vs as [|v vs IH]; simpl; intros H; [congruence|].
  destruct v; simpl in H; try (left; discriminate).
  right. now apply IH.
Qed.

(** Drawdown of the equity curve of net returns that leave some equity. *)
Lemma max_drawdown_of_equity_in_range net :
  forallb above_total_loss net = true ->
  dropna net <> [] ->
  exists d, max_drawdown_of (equity_curve net) = Fin d /\ -1 <= d /\ d <= 0.
Proof.
  intros Hok Hne.
  pose proof (growth_factors_positive net Hok) as Hf.
  pose proof (cumprod_from_positive net _ 1 ltac:(lra) Hf) as Hc.
  pose proof (drawdown_from_in_range net _ None
                ltac:(intros a Ha; discriminate Ha) Hc) as Hd.
  unfold max_drawdown_of, fmin_list, drawdown_of, cummax, equity_curve,
    cumprod, fone.
  apply (fmin_from_selects (fun d => -1 <= d /\ d <= 0)).
  - now left.
  - exact (Forall2_number_where_right _ _ _ Hd).
  - right. apply (Forall2_number_where_exists _ _ _ Hd).
    now apply dropna_nonempty_exists.
Qed.

(* ================================================================== *)
(** ** The backtest run and its metrics (backtesting/engine.py) *)
(* ================================================================== *)

Lemma iloc_last_nonempty vs : vs <> [] -> exists v, iloc_last vs = Some v.
Proof.
  intros H. unfold iloc_last. destruct (rev vs) as [|v r] eqn:E.
  - apply (f_equal (@rev fval)) in E. rewrite rev_involutive in E.
    simpl in E. congruence.
  - now exists v.
Qed.

Section Run.

Variable roll_mean : nat -> list Q -> Q.
Variable roll_std : nat -> list Q -> fval.
Variable fsqrt : fval -> fval.
Variable fpow : fval -> fval -> fval.

(** The columns that [run] stores, as lists of values. *)
Lemma run_data_columns bt strategy price_data (returns_data : Series fval) :
  let d := run_data roll_mean roll_std bt strategy price_data returns_data in
  let net :=
    net_returns (transaction_cost bt)
                (align_positions
                   (get_positions (generate_signals roll_mean roll_std
                         strategy price_data))
                   returns_data)
                (values returns_data) in
  values (r_strategy_returns d) = net /\
  values (r_cumulative_returns d) = equity_curve net /\
  values (r_buy_hold_cumulative d) = equity_curve (values returns_data) /\
  length net = length returns_data.
Proof.
  intros d net.
  assert (Hn : length net = length returns_data).
  { unfold net. rewrite length_net_returns;
      rewrite ?length_align_positions, length_values; reflexivity. }
  unfold d, run_data. cbn [r_strategy_returns r_cumulative_returns
                            r_buy_hold_cumulative].
  fold net. repeat split.
  - apply values_mk_series. now rewrite length_index.
  - apply values_mk_series. now rewrite length_index, length_equity_curve.
  - apply values_mk_series.
    now rewrite length_index, length_equity_curve, length_values.
  - exact Hn.
Qed.

(** The metrics exist when the two curves have a row; the drawdown entry
    is the drawdown of the equity curve, and the entries that are guarded
    report 0 when no net return is a number. *)
Lemma calculate_metrics_defined (d : RunData) :
  values (r_cumulative_returns d) <> [] ->
  values (r_buy_hold_cumulative d) <> [] ->
  exists m,
    calculate_metrics fsqrt fpow d = Some m /\
    m_max_drawdown m = max_drawdown_of (values (r_cumulative_returns d)) /\
    (dropna (values (r_strategy_returns d)) = [] -> reports_zeros m).
Proof.
  intros Hc Hb.
  destruct (iloc_last_nonempty _ Hc) as [lc Hlc].
  destruct (iloc_last_nonempty _ Hb) as [lb Hlb].
  unfold calculate_metrics. rewrite Hlc, Hlb.
  eexists. split; [reflexivity|]. split; [reflexivity|].
  intros Hdrop. rewrite Hdrop.
  unfold reports_zeros. cbn. repeat split.
Qed.

Lemma run_defined bt strategy price_data (returns_data : Series fval) :
  returns_data <> [] ->
  let d := run_data roll_mean roll_std bt strategy price_data returns_data in
  exists m,
    run roll_mean roll_std fsqrt fpow bt strategy price_data returns_data
    = Some (mkResults d m) /\
    m_max_drawdown m = max_drawdown_of (values (r_cumulative_returns d)) /\
    (dropna (values (r_strategy_returns d)) = [] -> reports_zeros m).
Proof.
  intros Hne d.
  destruct (run_data_columns bt strategy price_data returns_data)
    as (Hs & Hc & Hb & Hn).
  fold d in Hs, Hc, Hb.
  assert (Hpos : (0 < length returns_data)%nat)
    by (destruct returns_data; simpl; [congruence | lia]).
  destruct (calculate_metrics_defined d) as (m & Hm & Hdd & Hz).
  - rewrite Hc. intros E. apply (f_equal (@length fval)) in E.
    rewrite length_equity_curve, Hn in E. simpl in E. lia.
  - rewrite Hb. intros E. apply (f_equal (@length fval)) in E.
    rewrite length_equity_curve, length_values in E. simpl in E. lia.
  - exists m. unfold run. fold d. rewrite Hm. auto.
Qed.

(** C8 (as the code has it).  For every backtest run in which each net
    return is not-a-number or a number above -1 (so that the equity stays
    positive) and at least one net return is a number, the run returns its
    results and the Max Drawdown entry is a number between -1 and 0. *)
Theorem max_drawdown_in_unit_interval bt strategy price_data
        (returns_data : Series fval) :
  let d := run_data roll_mean roll_std bt strategy price_data returns_data in
  forallb above_total_loss (values (r_strategy_returns d)) = true ->
  dropna (values (r_strategy_returns d)) <> [] ->
  exists res dd,
    run roll_mean roll_std fsqrt fpow bt strategy price_data returns_data = Some res /\
    m_max_drawdown (res_metrics res) = Fin dd /\ -1 <= dd /\ dd <= 0.
Proof.
  intros d Hok Hne.
  destruct (run_data_columns bt strategy price_data returns_data)
    as (Hs & Hc & _ & Hn).
  fold d in Hs, Hc.
  assert (Hrows : returns_data <> []).
  { intros ->. apply Hne. rewrite Hs. reflexivity. }
  destruct (run_defined bt strategy price_data returns_data Hrows)
    as (m & Hrun & Hdd & _).
  fold d in Hrun, Hdd.
  rewrite Hs in Hok, Hne. rewrite Hc in Hdd.
  destruct (max_drawdown_of_equity_in_range _ Hok Hne) as (dd & Edd & Hlo & Hhi).
  exists (mkResults d m), dd. cbn [res_metrics].
  rewrite Hdd, Edd. auto.
Qed.

(** C9 (as the code has it).  The metrics computation fails exactly when
    the equity curve (or the benchmark curve) has no row, which in a run
    on prices with distinct timestamps is when the returns series has no
    row.  When the curves have rows it
    returns a metrics table, also when no net return is a number (a run
    over a single row): CAGR, Sharpe Ratio, Win Rate, Total Trades, Avg
    Win, Avg Loss and Win/Loss Ratio are then reported as 0. *)
Theorem metrics_fail_only_without_rows :
  (forall d : RunData,
      (values (r_cumulative_returns d) = [] \/
       values (r_buy_hold_cumulative d) = [] ->
       calculate_metrics fsqrt fpow d = None) /\
      (values (r_cumulative_returns d) <> [] ->
       values (r_buy_hold_cumulative d) <> [] ->
       exists m, calculate_metrics fsqrt fpow d = Some m /\
                 (dropna (values (r_strategy_returns d)) = [] ->
                  reports_zeros m))) /\
  (forall bt strategy price_data (returns_data : Series fval),
      (returns_data = [] ->
       run roll_mean roll_std fsqrt fpow bt strategy price_data returns_data = None) /\
      (NoDup (index price_data) -> returns_data <> [] ->
       exists res,
         run roll_mean roll_std fsqrt fpow bt strategy price_data
             returns_data = Some res /\
         (dropna (values (r_strategy_returns (res_data res))) = [] ->
          reports_zeros (res_metrics res)))).
Proof.
  split.
  - intros d. split.
    + intros [E | E]; unfold calculate_metrics; rewrite E.
      * reflexivity.
      * now destruct (iloc_last (values (r_cumulative_returns d))).
    + intros Hc Hb.
      destruct (calculate_metrics_defined d Hc Hb) as (m & Hm & _ & Hz).
      now exists m.
  - intros bt strategy price_data returns_data. split.
    + intros ->. reflexivity.
    + intros _ Hne.
      destruct (run_defined bt strategy price_data returns_data Hne)
        as (m & Hrun & _ & Hz).
      eexists. split; [exact Hrun | exact Hz].
Qed.

(** C10.  Two backtesters that differ only in [initial_capital] (they have
    the same [transaction_cost]) produce, on the same strategy, prices and
    returns, the same stored series (signals, positions, net returns,
    equity curve, benchmark curve) and the same outcome of [run]: the same
    results with the same metrics table, or a failure in both. *)
Theorem initial_capital_is_unused (bt1 bt2 : Backtester)
        (strategy : Strategy) (price_data : Series Q)
        (returns_data : Series fval) :
  transaction_cost bt1 = transaction_cost bt2 ->
  run_data roll_mean roll_std bt1 strategy price_data returns_data
  = run_data roll_mean roll_std bt2 strategy price_data returns_data /\
  run roll_mean roll_std fsqrt fpow bt1 strategy price_data returns_data
  = run roll_mean roll_std fsqrt fpow bt2 strategy price_data returns_data.
Proof.
  intros Hcost.
  assert (Hd : run_data roll_mean roll_std bt1 strategy price_data returns_data
               = run_data roll_mean roll_std bt2 strategy price_data returns_data).
  { unfold run_data. now rewrite Hcost. }
  split; [exact Hd|].
  unfold run. now rewrite Hd.
Qed.

End Run.

Lemma initial_capital_is_unused_witness :
  run mean_exact std_approx sqrt_approx pow_approx
        default_backtester (MomentumStrategy 1)
      quiet_prices quiet_returns
  = run mean_exact std_approx sqrt_approx pow_approx
        small_backtester (MomentumStrategy 1)
        quiet_prices quiet_returns.
Proof.
  exact (proj2 (initial_capital_is_unused mean_exact std_approx sqrt_approx pow_approx
                  default_backtester small_backtester (MomentumStrategy 1)
                  quiet_prices quiet_returns eq_refl)).
Defined.

Lemma max_drawdown_in_unit_interval_witness :
  exists res dd,
    run mean_exact std_approx sqrt_approx pow_approx
          default_backtester (MomentumStrategy 1)
        quiet_prices quiet_returns = Some res /\
    m_max_drawdown (res_metrics res) = Fin dd /\ -1 <= dd /\ dd <= 0.
Proof.
  apply (max_drawdown_in_unit_interval mean_exact std_approx sqrt_approx pow_approx
           default_backtester (MomentumStrategy 1) quiet_prices quiet_returns).
  - vm_compute. reflexivity.
  - vm_compute. discriminate.
Defined.

(** C8 as stated fails: the momentum strategy is short on the last row of
    prices 10, 9, 8, 20, where the market return is +1.5; the net return of
    that row is -1.5, the equity turns negative and the Max Drawdown is
    -1.5, below -1. *)
Lemma short_squeeze_drawdown_below_minus_one :
  ~ drawdown_in_unit_interval mean_exact std_approx sqrt_approx pow_approx
        default_backtester
      (MomentumStrategy 1) squeeze_prices squeeze_returns.
Proof.
  intros H.
  destruct (H ltac:(vm_compute; discriminate)) as (res & d & Hrun & Hd & Hlo & _).
  destruct (run_defined mean_exact std_approx sqrt_approx pow_approx default_backtester
              (MomentumStrategy 1) squeeze_prices squeeze_returns
              ltac:(discriminate)) as (m & Hrun' & Hdd & _).
  rewrite Hrun' in Hrun. inversion Hrun; subst res.
  cbn [res_metrics] in Hd. rewrite Hdd in Hd.
  vm_compute in Hd. inversion Hd; subst d.
  vm_compute in Hlo. now apply Hlo.
Qed.

Lemma metrics_fail_only_without_rows_witness :
  exists res,
    run mean_exact std_approx sqrt_approx pow_approx
          default_backtester (MomentumStrategy 1)
        one_row_prices one_row_returns = Some res /\
    reports_zeros (res_metrics res).
Proof.
  destruct (metrics_fail_only_without_rows mean_exact std_approx sqrt_approx pow_approx) as [_ H].
  destruct (H default_backtester (MomentumStrategy 1)
              one_row_prices one_row_returns) as [_ Hrows].
  destruct (Hrows ltac:(vm_compute; repeat constructor; simpl; intuition)
                  ltac:(discriminate)) as (res & Hrun & Hz).
  exists res. split; [exact Hrun|].
  apply Hz. vm_compute in Hrun. inversion Hrun; subst res. reflexivity.
Defined.

(** C9 as stated fails: in a run over a single row the only net return is
    not a number, none is left after dropping it, and the metrics
    computation returns a table all the same. *)
Lemma one_row_run_has_metrics :
  ~ empty_returns_rejected sqrt_approx pow_approx
      (run_data mean_exact std_approx default_backtester (MomentumStrategy 1)
                one_row_prices one_row_returns).
Proof.
  intros H. specialize (H ltac:(vm_compute; reflexivity)).
  vm_compute in H. discriminate H.
Qed.

(* ================================================================== *)
(** ** The model on the sample inputs *)
(* ================================================================== *)

(** Scenario A of the specification: crossover with fast = 2, slow = 3. *)
Example scenario_a_signals :
  values (crossover_generate_signals mean_exact 2 3 scenario_a_prices)
  = [0; 0; 1; 1; -1; -1; -1; 1; 1; 1]%Z.
Proof. vm_compute. reflexivity. Qed.

Example scenario_a_positions :
  values (get_positions (crossover_generate_signals mean_exact 2 3 scenario_a_prices))
  = map of_Z [0; 0; 0; 1; 1; -1; -1; -1; 1; 1]%Z.
Proof. vm_compute. reflexivity. Qed.

Example squeeze_momentum_signals :
  values (momentum_generate_signals 1 squeeze_prices) = [0; -1; -1; 1]%Z.
Proof. vm_compute. reflexivity. Qed.

Example constant_segment_signals :
  values (zscore_generate_signals mean_exact std_approx 3 1 constant_segment)
  = [0; 0; 0; 0; 0; -1]%Z.
Proof. vm_compute. reflexivity. Qed.

Example one_row_run_metrics :
  option_map res_metrics
             (run mean_exact std_approx sqrt_approx pow_approx
                   default_backtester (MomentumStrategy 1)
                  one_row_prices one_row_returns)
  = Some (mkMetrics NaN (Fin 0) NaN (Fin 0) NaN NaN (Fin 0) 0%Z
                    (Fin 0) (Fin 0) (Fin 0) (Fin 0) NaN).
Proof. vm_compute. reflexivity. Qed.

Example empty_run_fails :
  run mean_exact std_approx sqrt_approx pow_approx
        default_backtester (MomentumStrategy 1)
      one_row_prices [] = None.
Proof. reflexivity. Qed.

(* ================================================================== *)
(** ** Filling and dropping missing values (data/collector.py) *)
(* ================================================================== *)

Lemma length_ffill_from last vs : length (ffill_from last vs) = length vs.
Proof.
  revert last. induction vs as [|v vs IH]; intros last; simpl; auto.
Qed.

Lemma length_bfill vs : length (bfill vs) = length vs.
Proof.
  induction vs as [|v vs IH]; simpl; auto.
Qed.

Lemma count_isnan_zero vs :
  count isnan vs = 0%nat <-> Forall (fun v => v <> NaN) vs.
Proof.
  unfold count. induction vs as [|v vs IH]; simpl.
  - split; auto.
  - destruct v; simpl; split; intros H;
      try (constructor; [discriminate | now apply IH]);
      try (inversion H; subst; now apply IH);
      try discriminate.
    inversion H; subst. congruence.
Qed.

Lemma ffill_from_complete last vs :
  Forall (fun v => v <> NaN) vs -> ffill_from last vs = vs.
Proof.
  intros H. revert last. induction H as [|v vs Hv _ IH]; intros last; simpl.
  - reflexivity.
  - destruct v; try congruence; simpl; now rewrite IH.
Qed.

Lemma bfill_complete vs :
  Forall (fun v => v <> NaN) vs -> bfill vs = vs.
Proof.
  induction 1 as [|v vs Hv _ IH]; simpl; [reflexivity|].
  rewrite IH. destruct v; try congruence; reflexivity.
Qed.

Lemma ffill_from_keeps last vs i :
  nth i vs NaN <> NaN -> nth i (ffill_from last vs) NaN = nth i vs NaN.
Proof.
  revert last i. induction vs as [|v vs IH]; intros last [|i] H; simpl in *;
    try congruence.
  - destruct v; try congruence; reflexivity.
  - now apply IH.
Qed.

Lemma bfill_keeps vs i :
  nth i vs NaN <> NaN -> nth i (bfill vs) NaN = nth i vs NaN.
Proof.
  revert i. induction vs as [|v vs IH]; intros [|i] H; simpl in *;
    try congruence.
  - destruct v; try congruence; reflexivity.
  - now apply IH.
Qed.

Lemma ffill_from_values last vs v :
  In v (ffill_from last vs) -> v = last \/ In v vs.
Proof.
  revert last. induction vs as [|x vs IH]; intros last H; simpl in *;
    [contradiction|].
  destruct H as [H | H].
  - destruct x; simpl in H; auto.
  - destruct (IH _ H) as [E | E]; [|auto].
    destruct x; simpl in E; auto.
Qed.

Lemma bfill_values vs v : In v (bfill vs) -> v = NaN \/ In v vs.
Proof.
  induction vs as [|x vs IH]; intros H; simpl in *; [contradiction|].
  destruct H as [H | H].
  - destruct x; simpl in H; auto.
    destruct (bfill vs) as [|y ys] eqn:E; simpl in H; [auto|].
    destruct IH as [E' | E']; [left; now rewrite <- H | auto | auto].
  - destruct (IH H); auto.
Qed.

(** After a value that is not missing, [ffill] leaves nothing missing. *)
Lemma ffill_from_settled last vs :
  last <> NaN -> Forall (fun v => v <> NaN) (ffill_from last vs).
Proof.
  revert last. induction vs as [|v vs IH]; intros last H; simpl;
    constructor.
  - destruct v; simpl; congruence.
  - apply IH. destruct v; simpl; congruence.
Qed.

Lemma bfill_head vs :
  Exists (fun v => v <> NaN) vs -> hd NaN (bfill vs) <> NaN.
Proof.
  induction 1 as [v vs Hv | v vs _ IH]; simpl.
  - destruct v; simpl; congruence.
  - destruct v; simpl; try discriminate. exact IH.
Qed.

(** A column that has a value is complete after [ffill().bfill()] and
    after [bfill().ffill()]. *)
Lemma ffill_bfill_complete vs :
  Exists (fun v => v <> NaN) vs ->
  Forall (fun v => v <> NaN) (bfill (ffill vs)).
Proof.
  unfold ffill. induction vs as [|v vs IH]; intros H; [inversion H|].
  destruct (isnan v) eqn:E.
  - destruct v; try discriminate.
    assert (Hr : Exists (fun v => v <> NaN) vs)
      by (inversion H; subst; [congruence | assumption]).
    specialize (IH Hr).
    cbn [ffill_from isnan bfill].
    destruct (bfill (ffill_from NaN vs)) as [|y ys] eqn:Eb.
    + apply (f_equal (@length fval)) in Eb.
      rewrite length_bfill, length_ffill_from in Eb.
      destruct Hr; simpl in Eb; lia.
    + cbn [hd]. constructor; [now inversion IH | exact IH].
  - assert (Hv : v <> NaN) by (destruct v; simpl in E; congruence).
    cbn [ffill_from]. rewrite E.
    assert (Hall : Forall (fun x => x <> NaN) (v :: ffill_from v vs))
      by (constructor; [exact Hv | now apply ffill_from_settled]).
    now rewrite (bfill_complete _ Hall).
Qed.

Lemma bfill_ffill_complete vs :
  Exists (fun v => v <> NaN) vs ->
  Forall (fun v => v <> NaN) (ffill (bfill vs)).
Proof.
  intros H. pose proof (bfill_head vs H) as Hh. unfold ffill.
  destruct (bfill vs) as [|h r] eqn:E.
  - constructor.
  - simpl in Hh. simpl.
    assert (Ei : isnan h = false) by (destruct h; simpl; congruence).
    rewrite Ei. constructor; [exact Hh | now apply ffill_from_settled].
Qed.

(** A column with no value stays as it is. *)
Lemma ffill_from_all_missing vs :
  Forall (fun v => v = NaN) vs -> ffill_from NaN vs = vs.
Proof.
  induction 1 as [|v vs Hv _ IH]; simpl; [reflexivity|].
  subst v. simpl. now rewrite IH.
Qed.

Lemma bfill_all_missing vs :
  Forall (fun v => v = NaN) vs -> bfill vs = vs.
Proof.
  induction 1 as [|v vs Hv H IH]; simpl; [reflexivity|].
  subst v. rewrite IH. simpl. destruct H; simpl; congruence.
Qed.

Lemma list_sum_zero l : list_sum l = 0%nat <-> Forall (fun n => n = 0%nat) l.
Proof.
  induction l as [|n l IH]; simpl; split; intros H; auto.
  - constructor; [lia | apply IH; lia].
  - inversion H; subst. apply IH in H3. lia.
Qed.

Lemma count_missing_zero df :
  count_missing df = 0%nat <->
  Forall (fun c => Forall (fun v => v <> NaN) (snd c)) (df_columns df).
Proof.
  unfold count_missing. rewrite list_sum_zero, Forall_map.
  split; intros H; eapply Forall_impl; try exact H;
    intros c Hc; now apply count_isnan_zero.
Qed.

Lemma map_nth_seq {A} (l : list A) d :
  map (fun i => nth i l d) (seq 0 (length l)) = l.
Proof.
  induction l as [|x l IH]; simpl; [reflexivity|].
  f_equal. rewrite <- seq_shift, map_map. exact IH.
Qed.

(** A row that is kept has a value in every column. *)
Lemma kept_row_value df c i :
  In c (df_columns df) ->
  In i (filter (row_complete (df_columns df)) (seq 0 (nrows df))) ->
  nth i (snd c) NaN <> NaN /\ (i < length (snd c))%nat /\ (i < nrows df)%nat.
Proof.
  intros Hc Hi. apply filter_In in Hi. destruct Hi as [Hs Hr].
  apply in_seq in Hs. unfold row_complete in Hr.
  rewrite forallb_forall in Hr. specialize (Hr c Hc).
  assert (Hn : nth i (snd c) NaN <> NaN)
    by (destruct (nth i (snd c) NaN); simpl in Hr; congruence).
  repeat split; [exact Hn | | lia].
  destruct (Nat.lt_ge_cases i (length (snd c))) as [|Hge]; [assumption|].
  now rewrite nth_overflow in Hn.
Qed.

Lemma dropna_complete df : count_missing (frame_dropna df) = 0%nat.
Proof.
  apply count_missing_zero. unfold frame_dropna. cbn [df_columns].
  rewrite Forall_map. apply Forall_forall. intros c Hc. cbn [snd].
  rewrite Forall_map. apply Forall_forall. intros i Hi.
  now destruct (kept_row_value df c i Hc Hi).
Qed.

Lemma dropna_well_formed df : well_formed (frame_dropna df).
Proof.
  unfold well_formed, frame_dropna. cbn [df_columns df_index].
  rewrite Forall_map. apply Forall_forall. intros c _. cbn [snd].
  now rewrite !length_map.
Qed.

Lemma complete_rows_all_kept df :
  well_formed df -> count_missing df = 0%nat ->
  filter (row_complete (df_columns df)) (seq 0 (nrows df)) = seq 0 (nrows df).
Proof.
  intros Hwf Hc. apply count_missing_zero in Hc.
  apply forallb_filter_id. apply forallb_forall. intros i Hi.
  apply in_seq in Hi. unfold row_complete. apply forallb_forall.
  intros c Hin.
  unfold well_formed in Hwf. rewrite Forall_forall in Hwf, Hc.
  specialize (Hwf c Hin). specialize (Hc c Hin).
  rewrite Forall_forall in Hc.
  assert (Hn : nth i (snd c) NaN <> NaN).
  { apply Hc. apply nth_In. unfold nrows in Hi. lia. }
  destruct (nth i (snd c) NaN); simpl; congruence.
Qed.

(** Dropping the incomplete rows of a complete frame changes nothing. *)
Lemma dropna_identity df :
  well_formed df -> count_missing df = 0%nat -> frame_dropna df = df.
Proof.
  intros Hwf Hc. unfold frame_dropna.
  rewrite (complete_rows_all_kept df Hwf Hc).
  destruct df as [idx cols]. unfold nrows. cbn [df_index df_columns] in *.
  f_equal; [apply map_nth_seq|].
  rewrite <- (map_id cols) at 2. apply map_ext_in. intros [n vs] Hin.
  cbn [fst snd]. f_equal.
  unfold well_formed in Hwf. cbn [df_index df_columns] in Hwf.
  rewrite Forall_forall in Hwf. specialize (Hwf _ Hin). cbn [snd] in Hwf.
  rewrite <- Hwf. apply map_nth_seq.
Qed.

Lemma map_columns_well_formed f df :
  (forall vs, length (f vs) = length vs) ->
  well_formed df -> well_formed (map_columns f df).
Proof.
  intros Hf Hwf. unfold well_formed, map_columns in *.
  cbn [df_columns df_index]. rewrite Forall_map.
  eapply Forall_impl; [|exact Hwf]. intros c Hc. cbn [snd].
  now rewrite Hf.
Qed.

Lemma map_columns_complete f df :
  (forall vs, Forall (fun v => v <> NaN) vs -> f vs = vs) ->
  count_missing df = 0%nat -> map_columns f df = df.
Proof.
  intros Hf Hc. apply count_missing_zero in Hc.
  destruct df as [idx cols]. unfold map_columns.
  cbn [df_index df_columns] in *. f_equal.
  rewrite <- (map_id cols) at 2. apply map_ext_in. intros [n vs] Hin.
  cbn [fst snd]. rewrite Forall_forall in Hc. specialize (Hc _ Hin).
  cbn [snd] in Hc. now rewrite Hf.
Qed.

(** The frame that [clean_data] stores and returns. *)
Lemma clean_data_inv method c F c' :
  Collector.clean_data method c = Some (F, c') ->
  exists df, Collector.price_data c = Some df /\
             F = Collector.clean_frame method df /\
             c' = Collector.set_price_data c F.
Proof.
  unfold Collector.clean_data. destruct (Collector.price_data c) as [df|];
    [|discriminate].
  intros H. inversion H; subst. now exists df.
Qed.

Lemma clean_frame_complete method df :
  count_missing (Collector.clean_frame method df) = 0%nat.
Proof.
  unfold Collector.clean_frame.
  match goal with
  | |- context [(0 <? count_missing ?d)%nat] =>
      destruct (Nat.ltb_spec 0 (count_missing d)) as [H | H]
  end; [apply dropna_complete | lia].
Qed.

Lemma clean_frame_well_formed method df :
  well_formed df -> well_formed (Collector.clean_frame method df).
Proof.
  intros Hwf. unfold Collector.clean_frame.
  match goal with
  | |- context [(0 <? count_missing ?d)%nat] =>
      destruct (0 <? count_missing d)%nat
  end; [apply dropna_well_formed|].
  assert (Hlf : forall vs, length (ffill vs) = length vs)
    by (intros vs; apply length_ffill_from).
  destruct (String.eqb method "ffill").
  { apply map_columns_well_formed; [apply length_bfill|].
    now apply map_columns_well_formed. }
  destruct (String.eqb method "bfill").
  { apply map_columns_well_formed; [exact Hlf|].
    apply map_columns_well_formed; [apply length_bfill | exact Hwf]. }
  destruct (String.eqb method "drop"); [apply dropna_well_formed | exact Hwf].
Qed.

Lemma clean_frame_of_complete method df :
  well_formed df -> count_missing df = 0%nat ->
  Collector.clean_frame method df = df.
Proof.
  intros Hwf Hc. unfold Collector.clean_frame.
  assert (Hff : map_columns ffill df = df)
    by (apply map_columns_complete; [apply ffill_from_complete | exact Hc]).
  assert (Hbf : map_columns bfill df = df)
    by (apply map_columns_complete; [apply bfill_complete | exact Hc]).
  rewrite Hff, Hbf, Hff, (dropna_identity df Hwf Hc).
  assert (E : (0 <? count_missing df)%nat = false)
    by (apply Nat.ltb_ge; lia).
  destruct (String.eqb method "ffill"); [now rewrite E|].
  destruct (String.eqb method "bfill"); [now rewrite E|].
  destruct (String.eqb method "drop"); now rewrite E.
Qed.

(** X1.  [clean_data] raises exactly when no price data was fetched.
    Otherwise, whatever the method (also one that is not 'ffill', 'bfill' or
    'drop'), the frame it returns is the one it stores, has no missing
    value, and is well formed when the fetched frame is; the stored returns
    are not touched. *)
Theorem clean_data_leaves_no_missing (method : string) (c : Collector.t) :
  (Collector.price_data c = None -> Collector.clean_data method c = None) /\
  (forall df, Collector.price_data c = Some df ->
     exists F c',
       Collector.clean_data method c = Some (F, c') /\
       Collector.price_data c' = Some F /\
       Collector.returns c' = Collector.returns c /\
       count_missing F = 0%nat /\
       (well_formed df -> well_formed F)).
Proof.
  unfold Collector.clean_data. split.
  - intros ->. reflexivity.
  - intros df ->. eexists. eexists. split; [reflexivity|].
    repeat split.
    + apply clean_frame_complete.
    + apply clean_frame_well_formed.
Qed.

(** X2.  Cleaning is idempotent: on a well-formed frame, cleaning the
    frame that an earlier [clean_data] stored returns it unchanged,
    whatever the two methods are. *)
Theorem clean_data_idempotent (m1 m2 : string) (c c1 c2 : Collector.t)
        (df F1 F2 : DataFrame) :
  Collector.price_data c = Some df -> well_formed df ->
  Collector.clean_data m1 c = Some (F1, c1) ->
  Collector.clean_data m2 c1 = Some (F2, c2) ->
  F2 = F1 /\ c2 = c1.
Proof.
  intros Hp Hwf H1 H2.
  destruct (clean_data_inv _ _ _ _ H1) as (df1 & Hp1 & -> & ->).
  rewrite Hp in Hp1. inversion Hp1; subst df1.
  destruct (clean_data_inv _ _ _ _ H2) as (df2 & Hp2 & -> & ->).
  cbn [Collector.set_price_data Collector.price_data] in Hp2.
  inversion Hp2; subst df2.
  rewrite (clean_frame_of_complete m2 _
             (clean_frame_well_formed m1 df Hwf)
             (clean_frame_complete m1 df)).
  split; reflexivity.
Qed.

Lemma Forall2_map_right {A B} (R : A -> B -> Prop) (g : A -> B) l :
  Forall (fun x => R x (g x)) l -> Forall2 R l (map g l).
Proof.
  induction 1; simpl; constructor; auto.
Qed.

Lemma fill_both_keeps vs i :
  nth i vs NaN <> NaN ->
  nth i (bfill (ffill vs)) NaN = nth i vs NaN /\
  nth i (ffill (bfill vs)) NaN = nth i vs NaN.
Proof.
  intros H. unfold ffill. split.
  - rewrite bfill_keeps; rewrite ffill_from_keeps; auto.
  - rewrite ffill_from_keeps; rewrite bfill_keeps; auto.
Qed.

(** X3.  With 'ffill' or 'bfill', when every column of the fetched frame
    has at least one value, [clean_data] drops no row: the index is
    unchanged, the columns keep their names and lengths, and every value
    that was present is unchanged (only missing cells are written). *)
Theorem clean_data_fill_keeps_rows (method : string) (c c' : Collector.t)
        (df F : DataFrame) :
  method = "ffill"%string \/ method = "bfill"%string ->
  Collector.price_data c = Some df ->
  Forall (fun col => Exists (fun v => v <> NaN) (snd col)) (df_columns df) ->
  Collector.clean_data method c = Some (F, c') ->
  df_index F = df_index df /\
  Forall2 (fun col col' =>
             fst col' = fst col /\
             length (snd col') = length (snd col) /\
             forall i, nth i (snd col) NaN <> NaN ->
                       nth i (snd col') NaN = nth i (snd col) NaN)
          (df_columns df) (df_columns F).
Proof.
  intros Hm Hp Hex Hc.
  destruct (clean_data_inv _ _ _ _ Hc) as (df' & Hp' & -> & _).
  rewrite Hp in Hp'. inversion Hp'; subst df'. clear Hp'.
  assert (Hfilled :
            exists g,
              (if String.eqb method "ffill"
               then map_columns bfill (map_columns ffill df)
               else if String.eqb method "bfill"
                    then map_columns ffill (map_columns bfill df)
                    else if String.eqb method "drop" then frame_dropna df
                         else df)
              = map_columns g df /\
              (forall vs, length (g vs) = length vs) /\
              (forall vs, Exists (fun v => v <> NaN) vs ->
                          Forall (fun v => v <> NaN) (g vs)) /\
              (forall vs i, nth i vs NaN <> NaN ->
                            nth i (g vs) NaN = nth i vs NaN)).
  { destruct Hm as [-> | ->]; cbn [String.eqb Ascii.eqb Bool.eqb].
    - exists (fun vs => bfill (ffill vs)). repeat split.
      + unfold map_columns. cbn [df_index df_columns]. now rewrite map_map.
      + intros vs. unfold ffill. now rewrite length_bfill, length_ffill_from.
      + apply ffill_bfill_complete.
      + intros vs i H. now apply fill_both_keeps.
    - exists (fun vs => ffill (bfill vs)). repeat split.
      + unfold map_columns. cbn [df_index df_columns]. now rewrite map_map.
      + intros vs. unfold ffill. now rewrite length_ffill_from, length_bfill.
      + apply bfill_ffill_complete.
      + intros vs i H. now apply fill_both_keeps. }
  destruct Hfilled as (g & Eg & Hlen & Hcomplete & Hkeep).
  unfold Collector.clean_frame. rewrite Eg.
  assert (Hzero : count_missing (map_columns g df) = 0%nat).
  { apply count_missing_zero. unfold map_columns. cbn [df_columns].
    rewrite Forall_map. eapply Forall_impl; [|exact Hex].
    intros col Hcol. cbn [snd]. now apply Hcomplete. }
  rewrite Hzero. cbn [Nat.ltb Nat.leb].
  unfold map_columns. cbn [df_index df_columns]. split; [reflexivity|].
  apply Forall2_map_right. apply Forall_forall. intros col _.
  cbn [fst snd]. repeat split; [apply Hlen | apply Hkeep].
Qed.

(** Every value of a filled column is missing or was in the column. *)
Lemma fill_both_values vs v :
  (In v (bfill (ffill vs)) -> v = NaN \/ In v vs) /\
  (In v (ffill (bfill vs)) -> v = NaN \/ In v vs).
Proof.
  unfold ffill. split; intros H.
  - destruct (bfill_values _ _ H) as [E | E]; [auto|].
    destruct (ffill_from_values _ _ _ E); auto.
  - destruct (ffill_from_values _ _ _ H) as [E | E]; [auto|].
    destruct (bfill_values _ _ E); auto.
Qed.

Lemma dropna_column_values df :
  Forall2 (fun col col' =>
             fst col' = fst col /\
             forall v, In v (snd col') -> v <> NaN /\ In v (snd col))
          (df_columns df) (df_columns (frame_dropna df)).
Proof.
  unfold frame_dropna. cbn [df_columns].
  apply Forall2_map_right. apply Forall_forall. intros col Hcol.
  cbn [fst snd]. split; [reflexivity|]. intros v Hv.
  apply in_map_iff in Hv. destruct Hv as (i & <- & Hi).
  destruct (kept_row_value df col i Hcol Hi) as (Hn & Hlt & _).
  split; [exact Hn | now apply nth_In].
Qed.

Lemma Forall2_trans_rel {A} (R S T : A -> A -> Prop) l1 l2 l3 :
  (forall a b c, R a b -> S b c -> T a c) ->
  Forall2 R l1 l2 -> Forall2 S l2 l3 -> Forall2 T l1 l3.
Proof.
  intros H H12. revert l3.
  induction H12 as [|a b l1 l2 Hab _ IH]; intros l3 H23;
    inversion H23; subst; constructor; eauto.
Qed.

Lemma Forall2_with_right {A B} (R : A -> B -> Prop) (P : B -> Prop) l l' :
  Forall2 R l l' -> Forall P l' ->
  Forall2 (fun a b => R a b /\ P b) l l'.
Proof.
  induction 1 as [|a b l l' Hab _ IH]; intros HP; constructor;
    inversion HP; subst; auto.
Qed.

Lemma Forall2_refl_rel {A} (R : A -> A -> Prop) l :
  (forall a, R a a) -> Forall2 R l l.
Proof.
  intros H. induction l; constructor; auto.
Qed.

(** X4.  [clean_data] never invents a price: whatever the method, every
    column of the result keeps its name, and every value in it is a value
    (not a missing one) that the same column of the fetched frame holds. *)
Theorem clean_data_values_from_input (method : string) (c c' : Collector.t)
        (df F : DataFrame) :
  Collector.price_data c = Some df ->
  Collector.clean_data method c = Some (F, c') ->
  Forall2 (fun col col' =>
             fst col' = fst col /\
             forall v, In v (snd col') -> v <> NaN /\ In v (snd col))
          (df_columns df) (df_columns F).
Proof.
  intros Hp Hc.
  destruct (clean_data_inv _ _ _ _ Hc) as (df' & Hp' & -> & _).
  rewrite Hp in Hp'. inversion Hp'; subst df'. clear Hp'.
  set (weak := fun (col col' : string * list fval) =>
                 fst col' = fst col /\
                 forall v, In v (snd col') -> v = NaN \/ In v (snd col)).
  set (strong := fun (col col' : string * list fval) =>
                   fst col' = fst col /\
                   forall v, In v (snd col') -> v <> NaN /\ In v (snd col)).
  assert (Hfill :
            Forall2 weak (df_columns df)
                    (df_columns
                       (if String.eqb method "ffill"
                        then map_columns bfill (map_columns ffill df)
                        else if String.eqb method "bfill"
                             then map_columns ffill (map_columns bfill df)
                             else if String.eqb method "drop"
                                  then frame_dropna df
                                  else df))).
  { destruct (String.eqb method "ffill").
    { unfold map_columns. cbn [df_index df_columns]. rewrite map_map.
      apply Forall2_map_right. apply Forall_forall. intros col _.
      split; [reflexivity|]. cbn [fst snd]. intros v.
      apply fill_both_values. }
    destruct (String.eqb method "bfill").
    { unfold map_columns. cbn [df_index df_columns]. rewrite map_map.
      apply Forall2_map_right. apply Forall_forall. intros col _.
      split; [reflexivity|]. cbn [fst snd]. intros v.
      apply fill_both_values. }
    destruct (String.eqb method "drop").
    { eapply Forall2_impl; [|apply dropna_column_values].
      intros a b [Hn Hv]. split; [exact Hn|]. intros v Hin.
      right. now apply Hv. }
    apply Forall2_refl_rel. intros a. split; auto. }
  unfold Collector.clean_frame.
  match goal with
  | |- context [(0 <? count_missing ?d)%nat] =>
      set (filled := d) in *;
      destruct (Nat.ltb_spec 0 (count_missing filled)) as [Hpos | Hzero]
  end.
  - apply (Forall2_trans_rel weak strong strong _ (df_columns filled));
      [|exact Hfill | apply dropna_column_values].
    intros a b d [Hn1 Hv1] [Hn2 Hv2]. split; [congruence|].
    intros v Hin. destruct (Hv2 v Hin) as [Hnn Hb].
    split; [exact Hnn|]. destruct (Hv1 v Hb); [congruence | assumption].
  - assert (Hc0 : count_missing filled = 0%nat) by lia.
    apply count_missing_zero in Hc0.
    eapply Forall2_impl; [|exact (Forall2_with_right _ _ _ _ Hfill Hc0)].
    intros a b [[Hn Hv] Hb]. split; [exact Hn|].
    intros v Hin. rewrite Forall_forall in Hb.
    split; [now apply Hb|].
    destruct (Hv v Hin) as [E | E]; [|exact E].
    exfalso. now apply (Hb v Hin).
Qed.

(** X5.  One column without any value empties the data set: if a column
    of a well-formed fetched frame is entirely missing, [clean_data]
    returns a frame with no row, whatever the method. *)
Theorem clean_data_empty_column_drops_all (method : string)
        (c c' : Collector.t) (df F : DataFrame) (col : string * list fval) :
  Collector.price_data c = Some df -> well_formed df ->
  In col (df_columns df) -> Forall (fun v => v = NaN) (snd col) ->
  Collector.clean_data method c = Some (F, c') ->
  df_index F = [].
Proof.
  intros Hp Hwf Hin Hall Hc.
  destruct (clean_data_inv _ _ _ _ Hc) as (df' & Hp' & -> & _).
  rewrite Hp in Hp'. inversion Hp'; subst df'. clear Hp'.
  assert (Hdrop : forall d,
            (exists col', In col' (df_columns d) /\
                          Forall (fun v => v = NaN) (snd col')) ->
            df_index (frame_dropna d) = []).
  { intros d (col' & Hin' & Hall'). unfold frame_dropna. cbn [df_index].
    assert (E : filter (row_complete (df_columns d)) (seq 0 (nrows d)) = []).
    { destruct (filter (row_complete (df_columns d)) (seq 0 (nrows d)))
        as [|i l] eqn:E; [reflexivity|].
      assert (Hi : In i (filter (row_complete (df_columns d))
                                (seq 0 (nrows d))))
        by (rewrite E; now left).
      destruct (kept_row_value d col' i Hin' Hi) as (Hn & Hlt & _).
      exfalso. apply Hn. rewrite Forall_forall in Hall'.
      apply Hall'. now apply nth_In. }
    now rewrite E. }
  destruct (df_index df) as [|t idx] eqn:Eidx.
  - (* no row to begin with *)
    unfold Collector.clean_frame.
    assert (Hidx : forall d, df_index d = [] -> df_index (frame_dropna d) = []).
    { intros d Hd. unfold frame_dropna, nrows. now rewrite Hd. }
    match goal with
    | |- context [(0 <? count_missing ?d)%nat] =>
        assert (Hd : df_index d = [])
    end.
    { destruct (String.eqb method "ffill"); [exact Eidx|].
      destruct (String.eqb method "bfill"); [exact Eidx|].
      destruct (String.eqb method "drop"); [now apply Hidx | exact Eidx]. }
    match goal with
    | |- context [(0 <? count_missing ?d)%nat] =>
        destruct (0 <? count_missing d)%nat
    end; [now apply Hidx | exact Hd].
  - (* at least one row: the column has a missing value in it *)
    assert (Hlen : length (snd col) = S (length idx)).
    { unfold well_formed in Hwf. rewrite Forall_forall in Hwf.
      rewrite (Hwf col Hin), Eidx. reflexivity. }
    assert (Hsame : bfill (ffill (snd col)) = snd col /\
                    ffill (bfill (snd col)) = snd col).
    { unfold ffill. split.
      - rewrite ffill_from_all_missing by exact Hall.
        now apply bfill_all_missing.
      - rewrite bfill_all_missing by exact Hall.
        now apply ffill_from_all_missing. }
    destruct Hsame as [Hfb Hbf].
    unfold Collector.clean_frame.
    match goal with
    | |- context [(0 <? count_missing ?d)%nat] => set (filled := d)
    end.
    assert (Hcase :
              df_index filled = [] \/
              exists col', In col' (df_columns filled) /\
                           Forall (fun v => v = NaN) (snd col') /\
                           snd col' <> []).
    { unfold filled.
      destruct (String.eqb method "ffill").
      { right. exists (fst col, bfill (ffill (snd col))). split.
        - unfold map_columns. cbn [df_columns]. rewrite map_map.
          apply in_map_iff. now exists col.
        - cbn [snd]. rewrite Hfb. split; [exact Hall|].
          destruct (snd col); simpl in Hlen; [lia | discriminate]. }
      destruct (String.eqb method "bfill").
      { right. exists (fst col, ffill (bfill (snd col))). split.
        - unfold map_columns. cbn [df_columns]. rewrite map_map.
          apply in_map_iff. now exists col.
        - cbn [snd]. rewrite Hbf. split; [exact Hall|].
          destruct (snd col); simpl in Hlen; [lia | discriminate]. }
      destruct (String.eqb method "drop").
      { left. apply Hdrop. now exists col. }
      right. exists col. repeat split; [exact Hin | exact Hall|].
      destruct (snd col); simpl in Hlen; [lia | discriminate]. }
    destruct Hcase as [Hempty | (col' & Hin' & Hall' & Hne)].
    + destruct (0 <? count_missing filled)%nat; [|exact Hempty].
      unfold frame_dropna, nrows. now rewrite Hempty.
    + assert (Hpos : (0 < count_missing filled)%nat).
      { destruct (Nat.eq_dec (count_missing filled) 0) as [E | E]; [|lia].
        apply count_missing_zero in E. rewrite Forall_forall in E.
        specialize (E col' Hin').
        destruct (snd col') as [|v vs]; [congruence|].
        inversion E; subst. inversion Hall'; subst. congruence. }
      destruct (Nat.ltb_spec 0 (count_missing filled)); [|lia].
      apply Hdrop. now exists col'.
Qed.

(* ================================================================== *)
(** ** Returns from prices (data/collector.py) *)
(* ================================================================== *)

Lemma nth_pct_change_one vs i :
  (i < length vs)%nat ->
  nth i (pct_change 1 vs) NaN =
  match i with
  | O => NaN
  | S j => fsub (fdiv (nth i vs NaN) (nth j vs NaN)) fone
  end.
Proof.
  intros Hi. unfold pct_change.
  rewrite (nth_map2 _ _ _ _ NaN NaN NaN) by (rewrite ?length_shift; lia).
  rewrite nth_shift by lia. destruct i as [|j]; simpl.
  - now destruct (nth 0 vs NaN).
  - now rewrite Nat.sub_0_r.
Qed.

Lemma map_nth_seq_tail {A} (l : list A) d :
  map (fun i => nth i l d) (seq 1 (length l - 1)) = tl l.
Proof.
  destruct l as [|x l]; [reflexivity|].
  simpl. rewrite Nat.sub_0_r, <- seq_shift, map_map. apply map_nth_seq.
Qed.

(** The rows that [dropna] keeps of a frame whose first row is incomplete. *)
Lemma kept_after_first cols n :
  row_complete cols 0 = false ->
  filter (row_complete cols) (seq 0 n)
  = filter (row_complete cols) (seq 1 (n - 1)).
Proof.
  intros H0. destruct n as [|n]; [reflexivity|].
  simpl. rewrite H0. now rewrite Nat.sub_0_r.
Qed.

Lemma pct_first_row_incomplete df :
  well_formed df -> df_columns df <> [] -> df_index df <> [] ->
  row_complete (df_columns (frame_pct_change df)) 0 = false.
Proof.
  intros Hwf Hc Hi. unfold frame_pct_change, map_columns.
  cbn [df_columns]. destruct (df_columns df) as [|col cols] eqn:E;
    [congruence|].
  unfold well_formed in Hwf. rewrite E in Hwf. inversion Hwf; subst.
  unfold row_complete. cbn [map forallb fst snd].
  rewrite nth_pct_change_one; [reflexivity|].
  destruct (df_index df); [congruence | simpl in *; lia].
Qed.

Lemma simple_returns_inv flog c R c' :
  Collector.calculate_returns flog "simple" c = Some (R, c') ->
  exists df, Collector.price_data c = Some df /\
             R = frame_dropna (frame_pct_change df) /\
             c' = Collector.set_returns c R.
Proof.
  unfold Collector.calculate_returns. cbn [String.eqb Ascii.eqb Bool.eqb].
  destruct (Collector.price_data c) as [df|]; [|discriminate].
  cbn [Collector.returns Collector.set_returns].
  intros H. inversion H; subst. now exists df.
Qed.

(** The rows of [pct_change().dropna()]. *)
Lemma dropna_pct_change_rows df :
  well_formed df -> df_columns df <> [] ->
  incl (df_index (frame_dropna (frame_pct_change df))) (tl (df_index df)) /\
  (nrows (frame_dropna (frame_pct_change df)) <= nrows df - 1)%nat.
Proof.
  intros Hwf Hcols.
  destruct (df_index df) as [|t idx] eqn:Eidx.
  - unfold frame_dropna, nrows, frame_pct_change, map_columns.
    cbn [df_index df_columns]. rewrite Eidx. simpl.
    split; [intros x Hx; exact Hx | lia].
  - assert (H0 : row_complete (df_columns (frame_pct_change df)) 0 = false)
      by (apply pct_first_row_incomplete; auto; rewrite Eidx; discriminate).
    unfold frame_dropna, nrows. cbn [df_index].
    rewrite (kept_after_first _ _ H0).
    assert (Hidx : df_index (frame_pct_change df) = t :: idx) by exact Eidx.
    rewrite Hidx. cbn [length tl]. rewrite Nat.sub_succ, Nat.sub_0_r.
    split.
    + intros x Hx. apply in_map_iff in Hx. destruct Hx as (i & <- & Hi).
      apply filter_In in Hi. destruct Hi as [Hi _]. apply in_seq in Hi.
      destruct i as [|j]; [lia|]. cbn [nth]. apply nth_In. lia.
    + rewrite length_map.
      etransitivity; [apply filter_length_le|]. rewrite length_seq.
      rewrite Eidx. simpl. lia.
Qed.

(** X6.  Simple returns lose the first row and hold no missing value: for
    a well-formed price frame with a column and without missing values (a
    cleaned one), [calculate_returns('simple')] stores and returns a
    well-formed frame without missing values whose labels are labels of the
    prices after the first, so it has fewer rows than the prices whenever
    the prices have a row; the prices are not touched. *)
Theorem simple_returns_drop_first_row (flog : fval -> fval)
        (c c' : Collector.t) (df R : DataFrame) :
  Collector.price_data c = Some df -> well_formed df ->
  count_missing df = 0%nat ->
  df_columns df <> [] ->
  Collector.calculate_returns flog "simple" c = Some (R, c') ->
  Collector.returns c' = Some R /\
  Collector.price_data c' = Some df /\
  well_formed R /\ count_missing R = 0%nat /\
  incl (df_index R) (tl (df_index df)) /\
  (nrows R <= nrows df - 1)%nat.
Proof.
  intros Hp Hwf _ Hcols Hc.
  destruct (simple_returns_inv _ _ _ _ Hc) as (df' & Hp' & -> & ->).
  rewrite Hp in Hp'. inversion Hp'; subst df'. clear Hp'.
  cbn [Collector.returns Collector.price_data Collector.set_returns].
  split; [reflexivity|]. split; [exact Hp|].
  split; [apply dropna_well_formed|]. split; [apply dropna_complete|].
  now apply dropna_pct_change_rows.
Qed.

Lemma is_price_inv v : is_price v = true -> exists q, v = Fin q /\ ~ q == 0.
Proof.
  destruct v as [q | | |]; simpl; try discriminate.
  intros H. exists q. split; [reflexivity|]. intros E.
  apply Qeq_bool_iff in E. rewrite E in H. discriminate.
Qed.

Lemma pct_change_of_prices vs i :
  Forall (fun v => is_price v = true) vs ->
  (S i < length vs)%nat ->
  exists p q, nth i vs NaN = Fin p /\ nth (S i) vs NaN = Fin q /\
              ~ p == 0 /\
              nth (S i) (pct_change 1 vs) NaN = Fin (q / p + - (1)).
Proof.
  intros Hall Hi.
  destruct (is_price_inv _ (Forall_nth_in _ vs i NaN Hall ltac:(lia)))
    as (p & Ep & Hp).
  destruct (is_price_inv _ (Forall_nth_in _ vs (S i) NaN Hall Hi))
    as (q & Eq & _).
  exists p, q. rewrite nth_pct_change_one by exact Hi.
  rewrite Ep, Eq. repeat split; auto.
  cbv [fsub fdiv fneg fadd fone].
  destruct (Qeq_bool p 0) eqn:E; [|reflexivity].
  apply Qeq_bool_iff in E. contradiction.
Qed.

(** X7.  On a well-formed frame of prices that are all numbers other than
    zero, simple returns are the prices' index without its first label and,
    in every column, the one-period relative changes
    [price[t] / price[t-1] - 1] of the rows after the first: no other row
    is dropped. *)
Theorem simple_returns_of_prices (flog : fval -> fval)
        (c c' : Collector.t) (df R : DataFrame) :
  Collector.price_data c = Some df -> well_formed df ->
  df_columns df <> [] ->
  Forall (fun col => Forall (fun v => is_price v = true) (snd col))
         (df_columns df) ->
  Collector.calculate_returns flog "simple" c = Some (R, c') ->
  df_index R = tl (df_index df) /\
  df_columns R
  = map (fun col => (fst col, tl (pct_change 1 (snd col)))) (df_columns df) /\
  forall col i, In col (df_columns df) -> (S i < nrows df)%nat ->
    exists p q, nth i (snd col) NaN = Fin p /\
                nth (S i) (snd col) NaN = Fin q /\
                nth i (tl (pct_change 1 (snd col))) NaN = Fin (q / p + - (1)).
Proof.
  intros Hp Hwf Hcols Hprices Hc.
  destruct (simple_returns_inv _ _ _ _ Hc) as (df' & Hp' & -> & _).
  rewrite Hp in Hp'. inversion Hp'; subst df'. clear Hp'.
  assert (Hlen : forall col, In col (df_columns df) ->
                             length (snd col) = nrows df).
  { intros col Hin. unfold well_formed in Hwf. rewrite Forall_forall in Hwf.
    now apply Hwf. }
  assert (Hrow : forall col i, In col (df_columns df) -> (S i < nrows df)%nat ->
            exists p q, nth i (snd col) NaN = Fin p /\
                        nth (S i) (snd col) NaN = Fin q /\
                        nth (S i) (pct_change 1 (snd col)) NaN
                        = Fin (q / p + - (1))).
  { intros col i Hin Hi. rewrite Forall_forall in Hprices.
    destruct (pct_change_of_prices (snd col) i (Hprices col Hin)
                ltac:(rewrite Hlen; auto)) as (p & q & Ep & Eq & _ & E).
    now exists p, q. }
  assert (Hkept : filter (row_complete (df_columns (frame_pct_change df)))
                         (seq 0 (nrows df))
                  = seq 1 (nrows df - 1)).
  { destruct (df_index df) as [|t idx] eqn:Eidx.
    - unfold nrows. now rewrite Eidx.
    - rewrite kept_after_first
        by (apply pct_first_row_incomplete; auto; rewrite Eidx; discriminate).
      apply forallb_filter_id. apply forallb_forall. intros i Hi.
      apply in_seq in Hi. destruct i as [|j]; [lia|].
      unfold row_complete. apply forallb_forall. intros col' Hin'.
      unfold frame_pct_change, map_columns in Hin'. cbn [df_columns] in Hin'.
      apply in_map_iff in Hin'. destruct Hin' as (col & <- & Hin).
      cbn [snd].
      destruct (Hrow col j Hin ltac:(lia)) as (p & q & _ & _ & E).
      now rewrite E. }
  unfold frame_dropna.
  change (nrows (frame_pct_change df)) with (nrows df).
  rewrite Hkept. cbn [df_index df_columns].
  split; [|split].
  - change (df_index (frame_pct_change df)) with (df_index df).
    unfold nrows. apply map_nth_seq_tail.
  - unfold frame_pct_change, map_columns. cbn [df_columns].
    rewrite map_map. apply map_ext_in. intros col Hin. cbn [fst snd].
    f_equal. rewrite <- (Hlen col Hin), <- (length_pct_change 1 (snd col)).
    apply map_nth_seq_tail.
  - intros col i Hin Hi.
    destruct (Hrow col i Hin Hi) as (p & q & Ep & Eq & E).
    exists p, q. repeat split; auto.
    rewrite <- E.
    destruct (pct_change 1 (snd col)) as [|x l] eqn:Epc; [|reflexivity].
    apply (f_equal (@length fval)) in Epc.
    rewrite length_pct_change, (Hlen col Hin) in Epc. simpl in Epc. lia.
Qed.

(* ================================================================== *)
(** ** The three strategies, row by row *)
(* ================================================================== *)

Lemma length_signal_column n (first second : list bool) (v1 v2 : Z) :
  length first = n -> length second = n ->
  length (mask_assign (mask_assign (repeat 0%Z n) first v1) second v2) = n.
Proof.
  intros H1 H2.
  rewrite length_mask_assign; rewrite length_mask_assign;
    rewrite ?repeat_length; auto.
Qed.

Lemma index_momentum_generate_signals lookback (data : Series Q) :
  index (momentum_generate_signals lookback data) = index data.
Proof.
  unfold momentum_generate_signals. apply index_mk_series.
  rewrite length_index, length_signal_column; auto;
    now rewrite length_map, length_momentum_of.
Qed.

Lemma index_crossover_generate_signals roll_mean fast slow (data : Series Q) :
  index (crossover_generate_signals roll_mean fast slow data) = index data.
Proof.
  unfold crossover_generate_signals. apply index_mk_series.
  rewrite length_index, length_signal_column; auto;
    rewrite length_map2, !length_ma_of; lia.
Qed.

Lemma momentum_signal_row lookback (data : Series Q) i :
  (i < length data)%nat ->
  nth i (values (momentum_generate_signals lookback data)) 0%Z =
  (if fle (nth i (momentum_of lookback data) NaN) fzero then -1
   else if fgt (nth i (momentum_of lookback data) NaN) fzero then 1
        else 0)%Z.
Proof.
  intros Hi. pose proof (length_momentum_of lookback data) as Hm.
  unfold momentum_generate_signals.
  rewrite values_mk_series
    by (rewrite length_index, length_signal_column; auto;
        now rewrite length_map).
  rewrite (two_way_signal (length data) _ _ 1%Z (-1)%Z i)
    by (rewrite ?length_map; auto).
  rewrite (nth_map_in (fun m => fle m fzero) _ _ false NaN) by lia.
  now rewrite (nth_map_in (fun m => fgt m fzero) _ _ false NaN) by lia.
Qed.

Lemma crossover_signal_row roll_mean fast slow (data : Series Q) i :
  (i < length data)%nat ->
  nth i (values (crossover_generate_signals roll_mean fast slow data)) 0%Z =
  (if fle (nth i (ma_of roll_mean fast data) NaN)
          (nth i (ma_of roll_mean slow data) NaN) then -1
   else if fgt (nth i (ma_of roll_mean fast data) NaN)
               (nth i (ma_of roll_mean slow data) NaN)
        then 1 else 0)%Z.
Proof.
  intros Hi.
  pose proof (length_ma_of roll_mean fast data) as Hf.
  pose proof (length_ma_of roll_mean slow data) as Hs.
  unfold crossover_generate_signals.
  rewrite values_mk_series
    by (rewrite length_index, length_signal_column; auto;
        rewrite length_map2; lia).
  rewrite (two_way_signal (length data) _ _ 1%Z (-1)%Z i)
    by (rewrite ?length_map2; lia).
  rewrite (nth_map2 fle _ _ _ false NaN NaN) by lia.
  now rewrite (nth_map2 fgt _ _ _ false NaN NaN) by lia.
Qed.

Lemma index_generate_signals roll_mean roll_std strategy (data : Series Q) :
  index (generate_signals roll_mean roll_std strategy data) = index data.
Proof.
  destruct strategy; simpl.
  - apply index_crossover_generate_signals.
  - apply index_zscore_generate_signals.
  - apply index_momentum_generate_signals.
Qed.

Lemma length_generate_signals roll_mean roll_std strategy (data : Series Q) :
  length (generate_signals roll_mean roll_std strategy data) = length data.
Proof.
  rewrite <- (length_index (generate_signals roll_mean roll_std strategy data)),
    index_generate_signals.
  apply length_index.
Qed.

(** The signal of a row, for the three strategies. *)
Lemma generate_signals_row roll_mean roll_std strategy (data : Series Q) i :
  (i < length data)%nat ->
  exists a b : bool,
    nth i (values (generate_signals roll_mean roll_std strategy data)) 0%Z =
    (if a then -1 else if b then 1 else 0)%Z \/
    nth i (values (generate_signals roll_mean roll_std strategy data)) 0%Z =
    (if a then 1 else if b then -1 else 0)%Z.
Proof.
  intros Hi. destruct strategy; simpl.
  - eexists. eexists. left. now apply crossover_signal_row.
  - eexists. eexists. right. now apply zscore_signal_row.
  - eexists. eexists. left. now apply momentum_signal_row.
Qed.

(* ================================================================== *)
(** ** Exporting the results (backtesting/engine.py) *)
(* ================================================================== *)

Lemma export_rows_spec dates prices signals positions srets cum bh :
  length prices = length dates -> length signals = length dates ->
  length positions = length dates -> length srets = length dates ->
  length cum = length dates -> length bh = length dates ->
  length (export_rows dates prices signals positions srets cum bh)
  = length dates /\
  forall i row, nth_error
                  (export_rows dates prices signals positions srets cum bh) i
                = Some row ->
    nth_error dates i = Some (e_date row) /\
    nth_error prices i = Some (e_price row) /\
    nth_error signals i = Some (e_signal row) /\
    nth_error positions i = Some (e_position row) /\
    nth_error srets i = Some (e_strategy_returns row) /\
    nth_error cum i = Some (e_cumulative_returns row) /\
    nth_error bh i = Some (e_buy_hold_returns row).
Proof.
  revert prices signals positions srets cum bh.
  induction dates as [|d dates IH];
    intros [|p prices] [|s signals] [|x positions] [|r srets] [|c cum]
           [|b bh] H1 H2 H3 H4 H5 H6; simpl in *; try discriminate.
  - split; [reflexivity|]. intros [|i] row H; discriminate.
  - destruct (IH prices signals positions srets cum bh) as [Hl Hn];
      try lia.
    split; [now rewrite Hl|].
    intros [|i] row H; simpl in *.
    + inversion H; subst. simpl. repeat split.
    + now apply Hn.
Qed.

Lemma same_length3_true {A B C} (a : list A) (b : list B) (c : list C) :
  same_length3 a b c = true <->
  length b = length a /\ length c = length a.
Proof.
  unfold same_length3. rewrite andb_true_iff, !Nat.eqb_eq. intuition lia.
Qed.

Section ExportResults.

Variable roll_mean : nat -> list Q -> Q.
Variable roll_std : nat -> list Q -> fval.
Variable fsqrt : fval -> fval.
Variable fpow : fval -> fval -> fval.

Lemma run_some_inv bt strategy price_data (returns_data : Series fval) res :
  run roll_mean roll_std fsqrt fpow bt strategy price_data returns_data = Some res ->
  res_data res = run_data roll_mean roll_std bt strategy price_data returns_data /\
  returns_data <> [].
Proof.
  unfold run. intros H.
  destruct (calculate_metrics fsqrt fpow
              (run_data roll_mean roll_std bt strategy price_data returns_data))
    as [m|] eqn:E; [|discriminate].
  inversion H; subst. split; [reflexivity|].
  intros ->. discriminate E.
Qed.

(** The lengths of the seven arrays that [export_results] puts in one
    table. *)
Lemma export_columns_lengths bt strategy price_data
      (returns_data : Series fval) :
  let d := run_data roll_mean roll_std bt strategy price_data returns_data in
  length (index (r_cumulative_returns d)) = length returns_data /\
  length (values (r_price_data d)) = length price_data /\
  length (values (r_signals d)) = length price_data /\
  length (values (r_positions d)) = length returns_data /\
  length (values (r_strategy_returns d)) = length returns_data /\
  length (values (r_cumulative_returns d)) = length returns_data /\
  length (values (r_buy_hold_cumulative d)) = length returns_data.
Proof.
  intros d.
  destruct (run_data_columns roll_mean roll_std bt strategy price_data returns_data)
    as (Hs & Hc & Hb & Hn).
  fold d in Hs, Hc, Hb.
  assert (Hcum : length (values (r_cumulative_returns d))
                 = length returns_data)
    by (rewrite Hc, length_equity_curve; exact Hn).
  split; [now rewrite length_index, <- length_values|].
  split; [unfold d, run_data; cbn [r_price_data]; apply length_values|].
  split.
  { unfold d, run_data. cbn [r_signals].
    rewrite length_values. apply length_generate_signals. }
  split.
  { unfold d, run_data. cbn [r_positions].
    rewrite values_mk_series
      by now rewrite length_index, length_align_positions.
    apply length_align_positions. }
  split; [rewrite Hs; exact Hn|].
  split; [exact Hcum|].
  now rewrite Hb, length_equity_curve, length_values.
Qed.

Lemma export_results_mismatch bt strategy price_data
      (returns_data : Series fval) res :
  run roll_mean roll_std fsqrt fpow bt strategy price_data returns_data = Some res ->
  length price_data <> length returns_data -> export_results res = None.
Proof.
  intros Hrun Hne. destruct (run_some_inv _ _ _ _ _ Hrun) as [Hd _].
  destruct (export_columns_lengths bt strategy price_data returns_data)
    as (L1 & L2 & _).
  rewrite <- Hd in L1, L2.
  unfold export_results.
  destruct (same_length3 (index (r_cumulative_returns (res_data res)))
                         (values (r_price_data (res_data res)))
                         (values (r_signals (res_data res)))) eqn:E;
    [|reflexivity].
  apply same_length3_true in E. lia.
Qed.

(** X9.  [export_results] works only on a run whose price series and
    returns series have the same number of rows: otherwise the arrays given
    to [pd.DataFrame] differ in length and it raises.  When it works, the
    table has one row per label of the returns, and row [i] holds the
    [i]-th entry of each of the seven arrays. *)
Theorem export_results_needs_equal_lengths bt strategy price_data
        (returns_data : Series fval) res :
  run roll_mean roll_std fsqrt fpow bt strategy price_data returns_data = Some res ->
  (length price_data <> length returns_data -> export_results res = None) /\
  (length price_data = length returns_data ->
   exists rows,
     export_results res = Some rows /\
     length rows = length returns_data /\
     forall i row, nth_error rows i = Some row ->
       nth_error (index returns_data) i = Some (e_date row) /\
       nth_error (values price_data) i = Some (e_price row) /\
       nth_error (values (r_signals (res_data res))) i
       = Some (e_signal row) /\
       nth_error (values (r_positions (res_data res))) i
       = Some (e_position row) /\
       nth_error (values (r_strategy_returns (res_data res))) i
       = Some (e_strategy_returns row) /\
       nth_error (values (r_cumulative_returns (res_data res))) i
       = Some (e_cumulative_returns row) /\
       nth_error (values (r_buy_hold_cumulative (res_data res))) i
       = Some (e_buy_hold_returns row)).
Proof.
  intros Hrun. destruct (run_some_inv _ _ _ _ _ Hrun) as [Hd _].
  destruct (export_columns_lengths bt strategy price_data returns_data)
    as (L1 & L2 & L3 & L4 & L5 & L6 & L7).
  rewrite <- Hd in L1, L2, L3, L4, L5, L6, L7.
  split; [now apply (export_results_mismatch bt strategy)|].
  unfold export_results.
  - intros Heq.
    assert (E1 : same_length3 (index (r_cumulative_returns (res_data res)))
                              (values (r_price_data (res_data res)))
                              (values (r_signals (res_data res))) = true)
      by (apply same_length3_true; lia).
    assert (E2 : same_length3 (index (r_cumulative_returns (res_data res)))
                              (values (r_positions (res_data res)))
                              (values (r_strategy_returns (res_data res)))
                 = true)
      by (apply same_length3_true; lia).
    assert (E3 : same_length3 (index (r_cumulative_returns (res_data res)))
                              (values (r_cumulative_returns (res_data res)))
                              (values (r_buy_hold_cumulative (res_data res)))
                 = true)
      by (apply same_length3_true; lia).
    rewrite E1, E2, E3. cbn [andb]. eexists. split; [reflexivity|].
    destruct (export_rows_spec
                (index (r_cumulative_returns (res_data res)))
                (values (r_price_data (res_data res)))
                (values (r_signals (res_data res)))
                (values (r_positions (res_data res)))
                (values (r_strategy_returns (res_data res)))
                (values (r_cumulative_returns (res_data res)))
                (values (r_buy_hold_cumulative (res_data res))))
      as [Hlen Hrows]; try lia.
    split; [lia|].
    intros i row Hrow. specialize (Hrows i row Hrow).
    assert (Hidx : index (r_cumulative_returns (res_data res))
                   = index returns_data).
    { rewrite Hd. unfold run_data. cbn [r_cumulative_returns].
      apply index_mk_series.
      rewrite length_index, length_equity_curve, length_net_returns;
        rewrite ?length_align_positions, ?length_values; reflexivity. }
    assert (Hpr : r_price_data (res_data res) = price_data)
      by (rewrite Hd; reflexivity).
    rewrite Hidx, Hpr in Hrows. exact Hrows.
Qed.

Lemma find_column_in name cols vs :
  find_column name cols = Some vs -> exists n, In (n, vs) cols.
Proof.
  induction cols as [|[n ws] cols IH]; simpl; [discriminate|].
  destruct (String.eqb name n).
  - intros H. inversion H; subst. exists n. now left.
  - intros H. destruct (IH H) as [n' Hn']. exists n'. now right.
Qed.

Lemma frame_column_length name df s :
  well_formed df -> frame_column name df = Some s ->
  length s = nrows df /\ df_columns df <> [].
Proof.
  unfold frame_column. intros Hwf H.
  destruct (find_column name (df_columns df)) as [vs|] eqn:E;
    [|discriminate].
  inversion H; subst. destruct (find_column_in _ _ _ E) as [n Hin].
  unfold well_formed in Hwf. rewrite Forall_forall in Hwf.
  specialize (Hwf _ Hin). cbn [snd] in Hwf.
  split.
  - unfold mk_series, nrows. rewrite length_combine. lia.
  - intros Hnil. rewrite Hnil in Hin. contradiction.
Qed.

(** X10.  In the pipeline of [main.py] - clean the fetched prices,
    compute simple returns from them, run a backtest on one column of
    each - [export_results] always raises: the returns have lost the first
    row at least, so the price array is longer than the others. *)
Theorem export_fails_in_pipeline (flog : fval -> fval)
        (method ticker : string) (c c1 c2 : Collector.t)
        (df P R : DataFrame) (price_data : Series Q)
        (returns_data : Series fval) bt strategy res :
  Collector.price_data c = Some df -> well_formed df ->
  Collector.clean_data method c = Some (P, c1) ->
  Collector.calculate_returns flog "simple" c1 = Some (R, c2) ->
  frame_column ticker P = Some (series_as_float price_data) ->
  frame_column ticker R = Some returns_data ->
  run roll_mean roll_std fsqrt fpow bt strategy price_data returns_data = Some res ->
  export_results res = None.
Proof.
  intros Hp Hwf Hclean Hret Hpc Hrc Hrun.
  destruct (clean_data_inv _ _ _ _ Hclean) as (df' & Hp' & -> & ->).
  rewrite Hp in Hp'. inversion Hp'; subst df'. clear Hp'.
  destruct (simple_returns_inv _ _ _ _ Hret) as (P' & HP' & -> & _).
  cbn [Collector.price_data Collector.set_price_data] in HP'.
  inversion HP'; subst P'. clear HP'.
  pose proof (clean_frame_well_formed method df Hwf) as HwfP.
  destruct (frame_column_length _ _ _ HwfP Hpc) as [Hlp Hcols].
  destruct (frame_column_length _ _ _ (dropna_well_formed _) Hrc)
    as [Hlr _].
  destruct (dropna_pct_change_rows _ HwfP Hcols) as [_ Hrows].
  destruct (run_some_inv _ _ _ _ _ Hrun) as [_ Hne].
  apply (export_results_mismatch bt strategy price_data returns_data);
    [exact Hrun|].
  unfold series_as_float in Hlp. rewrite length_map in Hlp.
  assert (0 < length returns_data)%nat
    by (destruct returns_data; simpl; [congruence | lia]).
  lia.
Qed.

End ExportResults.

(* ================================================================== *)
(** ** Signals, positions and their alignment *)
(* ================================================================== *)

Lemma Forall_of_nth {A} (P : A -> Prop) (l : list A) d :
  (forall i, (i < length l)%nat -> P (nth i l d)) -> Forall P l.
Proof.
  intros H. apply Forall_forall. intros x Hx.
  destruct (In_nth l x d Hx) as (i & Hi & <-). now apply H.
Qed.

Lemma values_get_positions (signals : Series Z) :
  values (get_positions signals)
  = fillna fzero (shift 1 (signals_as_float (values signals))).
Proof.
  unfold get_positions. apply values_mk_series.
  now rewrite length_index, length_get_positions_values.
Qed.

Lemma index_get_positions (signals : Series Z) :
  index (get_positions signals) = index signals.
Proof.
  unfold get_positions. apply index_mk_series.
  now rewrite length_index, length_get_positions_values.
Qed.

Lemma nth_get_positions (signals : Series Z) i :
  (i < length signals)%nat ->
  nth i (values (get_positions signals)) NaN =
  match i with
  | O => fzero
  | S j => of_Z (nth j (values signals) 0%Z)
  end.
Proof.
  intros Hi. rewrite values_get_positions.
  assert (Hf : length (signals_as_float (values signals)) = length signals)
    by (unfold signals_as_float; now rewrite length_map, length_values).
  rewrite nth_fillna by (rewrite length_shift; lia).
  rewrite nth_shift by lia.
  destruct i as [|j]; simpl; [reflexivity|].
  rewrite Nat.sub_0_r. unfold signals_as_float.
  now rewrite (nth_map_in of_Z (values signals) _ NaN 0%Z)
    by (rewrite length_values; lia).
Qed.

Lemma lookup_in t s v : lookup t s = Some v -> In v (values s).
Proof.
  induction s as [|[t' x] s IH]; simpl; [discriminate|].
  destruct (Z.eqb t t').
  - intros H. inversion H; subst. now left.
  - intros H. right. now apply IH.
Qed.

Lemma lookup_not_in t s : ~ In t (index s) -> lookup t s = None.
Proof.
  induction s as [|[t' x] s IH]; simpl; [reflexivity|].
  intros H. destruct (Z.eqb_spec t t') as [-> | Hne].
  - exfalso. apply H. now left.
  - apply IH. intros Hin. apply H. now right.
Qed.

Lemma lookup_nodup s i :
  NoDup (index s) -> (i < length s)%nat ->
  lookup (nth i (index s) 0%Z) s = Some (nth i (values s) NaN).
Proof.
  revert i. induction s as [|[t x] s IH]; intros i Hnd Hi; simpl in *;
    [lia|].
  inversion Hnd; subst. destruct i as [|i].
  - now rewrite Z.eqb_refl.
  - destruct (Z.eqb_spec (nth i (index s) 0%Z) t) as [E | _].
    + exfalso. apply H1. rewrite <- E. apply nth_In.
      rewrite length_index. lia.
    + apply IH; [assumption | lia].
Qed.

Lemma nth_align_positions positions (returns_series : Series fval) j :
  (j < length returns_series)%nat ->
  nth j (align_positions positions returns_series) NaN =
  match lookup (nth j (index returns_series) 0%Z) positions with
  | Some v => if isnan v then fzero else v
  | None => fzero
  end.
Proof.
  intros Hj. unfold align_positions.
  rewrite nth_fillna
    by (rewrite values_reindex, length_map, length_index; lia).
  rewrite values_reindex.
  rewrite (nth_map_in _ (index returns_series) _ NaN 0%Z)
    by (rewrite length_index; lia).
  now destruct (lookup (nth j (index returns_series) 0%Z) positions).
Qed.

Lemma is_signal_two_way (a b : bool) :
  is_signal (if a then -1 else if b then 1 else 0)%Z /\
  is_signal (if a then 1 else if b then -1 else 0)%Z.
Proof.
  unfold is_signal. destruct a, b; auto.
Qed.

Lemma signals_in_range roll_mean roll_std strategy (data : Series Q) :
  Forall is_signal (values (generate_signals roll_mean roll_std strategy data)).
Proof.
  apply (Forall_of_nth _ _ 0%Z). intros i Hi.
  rewrite length_values, length_generate_signals in Hi.
  destruct (generate_signals_row roll_mean roll_std strategy data i Hi)
    as (a & b & [-> | ->]); apply is_signal_two_way.
Qed.

Lemma positions_in_range (signals : Series Z) :
  Forall is_signal (values signals) ->
  Forall is_position (values (get_positions signals)).
Proof.
  intros Hs. apply (Forall_of_nth _ _ NaN). intros i Hi.
  assert (Hl : length (values (get_positions signals)) = length signals)
    by (rewrite values_get_positions; apply length_get_positions_values).
  rewrite nth_get_positions by lia.
  destruct i as [|j]; [right; now left|].
  assert (Hj : is_signal (nth j (values signals) 0%Z))
    by (apply Forall_nth_in; [exact Hs | rewrite length_values; lia]).
  destruct Hj as [-> | [-> | ->]]; unfold is_position; auto.
Qed.

(** X11.  Whatever the strategy, its parameters and the prices, every
    signal is -1, 0 or +1; every position is -1, 0 or +1; and, the labels
    of the prices being distinct, so is every position after it is aligned
    on the returns' index, whatever that index is. *)
Theorem signals_and_positions_in_range (roll_mean : nat -> list Q -> Q)
        (roll_std : nat -> list Q -> fval)
        (strategy : Strategy) (price_data : Series Q)
        (returns_data : Series fval) :
  let signals := generate_signals roll_mean roll_std strategy price_data in
  Forall is_signal (values signals) /\
  Forall is_position (values (get_positions signals)) /\
  (NoDup (index price_data) ->
   Forall is_position
          (align_positions (get_positions signals) returns_data)).
Proof.
  intros signals.
  pose proof (signals_in_range roll_mean roll_std strategy price_data) as Hs.
  pose proof (positions_in_range _ Hs) as Hp.
  fold signals in Hs, Hp.
  split; [exact Hs|]. split; [exact Hp|]. intros _.
  apply (Forall_of_nth _ _ NaN). intros j Hj.
  rewrite length_align_positions in Hj.
  rewrite nth_align_positions by exact Hj.
  destruct (lookup (nth j (index returns_data) 0%Z) (get_positions signals))
    as [v|] eqn:E; [|right; now left].
  apply lookup_in in E. rewrite Forall_forall in Hp. specialize (Hp v E).
  destruct Hp as [-> | [-> | ->]]; unfold is_position; auto.
Qed.

(** X12.  Alignment of positions on the returns' index, the labels of the
    signals being distinct: on a label that the positions do not have the
    aligned position is 0 (flat); on a label that they have it is the
    position of that label. *)
Theorem align_positions_by_label (signals : Series Z)
        (returns_data : Series fval) (j : nat) :
  NoDup (index signals) ->
  (j < length returns_data)%nat ->
  let t := nth j (index returns_data) 0%Z in
  let aligned := nth j (align_positions (get_positions signals) returns_data)
                     NaN in
  (~ In t (index signals) -> aligned = fzero) /\
  (forall i, (i < length signals)%nat -> nth i (index signals) 0%Z = t ->
             aligned = nth i (values (get_positions signals)) NaN).
Proof.
  intros Hnd Hj t aligned. unfold aligned.
  rewrite nth_align_positions by exact Hj. fold t. split.
  - intros Hnot. rewrite lookup_not_in; [reflexivity|].
    now rewrite index_get_positions.
  - intros i Hi <-.
    assert (Hl : length (get_positions signals) = length signals).
    { rewrite <- (length_values (get_positions signals)),
        values_get_positions.
      apply length_get_positions_values. }
    rewrite <- (index_get_positions signals).
    rewrite lookup_nodup
      by (rewrite ?index_get_positions, ?Hl; assumption).
    rewrite nth_get_positions by exact Hi.
    destruct i as [|i']; [reflexivity|].
    reflexivity.
Qed.

(** X13.  The one-row lag survives the alignment used by the pipeline:
    when the returns' index is the signals' index without its first label
    (what simple returns of the same prices give) and labels are distinct,
    the position aligned on the [j]-th return is the signal of the [j]-th
    price row, that is the signal of the row before the one the return
    belongs to. *)
Theorem aligned_position_is_previous_signal (signals : Series Z)
        (returns_data : Series fval) (j : nat) :
  NoDup (index signals) ->
  index returns_data = tl (index signals) ->
  (j < length returns_data)%nat ->
  nth j (align_positions (get_positions signals) returns_data) NaN
  = of_Z (nth j (values signals) 0%Z).
Proof.
  intros Hnd Hidx Hj.
  assert (Hlen : length returns_data = (length signals - 1)%nat).
  { rewrite <- (length_index returns_data), Hidx, <- (length_index signals).
    destruct (index signals); simpl; lia. }
  assert (Hl : length (get_positions signals) = length signals).
  { rewrite <- (length_values (get_positions signals)), values_get_positions.
    apply length_get_positions_values. }
  rewrite nth_align_positions by exact Hj.
  assert (Ht : nth j (index returns_data) 0%Z
               = nth (S j) (index (get_positions signals)) 0%Z).
  { rewrite Hidx, index_get_positions.
    destruct (index signals); [now destruct j | reflexivity]. }
  rewrite Ht.
  rewrite lookup_nodup;
    [| now rewrite index_get_positions | rewrite Hl; lia].
  rewrite nth_get_positions by lia.
  reflexivity.
Qed.

(* ================================================================== *)
(** ** No look-ahead *)
(* ================================================================== *)






(* ================================================================== *)
(** ** Metrics of a run *)
(* ================================================================== *)

Lemma iloc_last_cons x y l : iloc_last (x :: y :: l) = iloc_last (y :: l).
Proof.
  unfold iloc_last. cbn [rev].
  destruct (rev l ++ [y]) as [|z zs] eqn:E; [|reflexivity].
  destruct (rev l); discriminate.
Qed.

Lemma pct_change_one_cons x xs :
  pct_change 1 (x :: xs) = NaN :: relative_changes x xs.
Proof.
  unfold pct_change, shift, map2. cbn [repeat app length firstn combine map].
  f_equal; [cbn [fst snd]; now destruct x|].
  revert x. induction xs as [|y ys IH]; intros x; [reflexivity|].
  cbn [length firstn combine map relative_changes fst snd].
  f_equal. apply IH.
Qed.

Lemma telescope_one (a b c : Q) :
  ~ c == 0 -> a * (1 + (b / c + - (1))) == a * b / c.
Proof.
  intros H. field. exact H.
Qed.

Lemma telescope_step (a b c l : Q) :
  ~ c == 0 -> ~ b == 0 ->
  a * (1 + (b / c + - (1))) * l / b == a * l / c.
Proof.
  intros Hc Hb. field. split; assumption.
Qed.

(** The running product of [1 + change] over consecutive prices
    telescopes. *)
Lemma cumprod_relative_changes ps prev acc :
  ps <> [] -> ~ prev == 0 -> Forall (fun p => ~ p == 0) ps ->
  exists v,
    iloc_last (cumprod_from (Fin acc)
                 (map (fadd fone) (relative_changes (Fin prev) (as_float ps))))
    = Some (Fin v) /\
    v == acc * last ps 0 / prev.
Proof.
  revert prev acc. induction ps as [|p ps IH]; intros prev acc Hne Hprev Hall;
    [congruence|].
  inversion Hall as [|? ? Hp Hps]; subst.
  cbn [as_float map relative_changes].
  assert (E : fadd fone (fsub (fdiv (Fin p) (Fin prev)) fone)
              = Fin (1 + (p / prev + - (1)))).
  { cbv [fsub fdiv fneg fadd fone].
    destruct (Qeq_bool prev 0) eqn:Eb; [|reflexivity].
    apply Qeq_bool_iff in Eb. contradiction. }
  rewrite E. cbn [cumprod_from fmul].
  destruct ps as [|p' ps'].
  - exists (acc * (1 + (p / prev + - (1)))). split; [reflexivity|].
    cbn [last]. now apply telescope_one.
  - destruct (IH p (acc * (1 + (p / prev + - (1)))) ltac:(discriminate)
                Hp Hps) as (v & Hv & Ev).
    exists v. split.
    + unfold as_float in *. cbn [map relative_changes cumprod_from] in *.
      match goal with
      | |- iloc_last (_ :: ?l) = _ =>
          destruct l as [|z zs] eqn:El
      end.
      * exfalso. revert El.
        destruct (fadd fone (fsub (fdiv (Fin p') (Fin p)) fone));
          discriminate.
      * rewrite iloc_last_cons. exact Hv.
    + rewrite Ev. change (last (p :: p' :: ps') 0) with (last (p' :: ps') 0).
      now apply telescope_step.
Qed.

Section Metrics.

Variable roll_mean : nat -> list Q -> Q.
Variable roll_std : nat -> list Q -> fval.
Variable fsqrt : fval -> fval.
Variable fpow : fval -> fval -> fval.

(** The entries of the table that are not ratios of statistics. *)
Lemma calculate_metrics_fields (d : RunData) m :
  calculate_metrics fsqrt fpow d = Some m ->
  let returns := dropna (values (r_strategy_returns d)) in
  let wins := count (fun r => fgt r fzero) returns in
  let trades := count (fun r => fne r fzero) returns in
  exists last_cum last_bh,
    iloc_last (values (r_cumulative_returns d)) = Some last_cum /\
    iloc_last (values (r_buy_hold_cumulative d)) = Some last_bh /\
    m_total_return m = fsub last_cum fone /\
    m_buy_hold_return m = fsub last_bh fone /\
    m_outperformance m = fsub (fsub last_cum fone) (fsub last_bh fone) /\
    m_total_trades m = Z.of_nat trades /\
    m_win_rate m = (if (0 <? trades)%nat
                    then fdiv (of_nat wins) (of_nat trades) else fzero).
Proof.
  unfold calculate_metrics. intros H.
  destruct (iloc_last (values (r_cumulative_returns d))) as [lc|];
    [|discriminate].
  destruct (iloc_last (values (r_buy_hold_cumulative d))) as [lb|];
    [|discriminate].
  inversion H; subst. cbn. exists lc, lb. repeat split.
Qed.

Lemma run_metrics_inv bt strategy price_data (returns_data : Series fval) res :
  run roll_mean roll_std fsqrt fpow bt strategy price_data returns_data = Some res ->
  calculate_metrics fsqrt fpow
    (run_data roll_mean roll_std bt strategy price_data returns_data)
  = Some (res_metrics res).
Proof.
  unfold run.
  destruct (calculate_metrics fsqrt fpow
              (run_data roll_mean roll_std bt strategy price_data returns_data))
    as [m|]; [|discriminate].
  intros H. now inversion H.
Qed.

(** X15.  The benchmark telescopes: when the returns given to [run] are
    the simple returns of the prices (the one-period relative changes of
    the rows after the first), no price is zero and the labels of the
    prices are distinct, the run succeeds and its Buy & Hold Return is the
    last price over the first price, minus one. *)
Theorem buy_hold_is_last_over_first bt strategy (price_data : Series Q)
        (returns_data : Series fval) :
  NoDup (index price_data) ->
  Forall (fun p => ~ p == 0) (values price_data) ->
  (2 <= length price_data)%nat ->
  values returns_data = tl (pct_change 1 (as_float (values price_data))) ->
  exists res b,
    run roll_mean roll_std fsqrt fpow bt strategy price_data returns_data = Some res /\
    m_buy_hold_return (res_metrics res) = Fin b /\
    b == last (values price_data) 0 / hd 0 (values price_data) - 1.
Proof.
  intros _ Hall Hlen Hret.
  destruct (values price_data) as [|p0 [|p1 ps]] eqn:Ev;
    try (apply (f_equal (@length Q)) in Ev; rewrite length_values in Ev;
         simpl in Ev; lia).
  unfold as_float in Hret. cbn [map] in Hret.
  rewrite pct_change_one_cons in Hret. cbn [tl] in Hret.
  inversion Hall as [|? ? Hp0 Hrest]; subst.
  destruct (cumprod_relative_changes (p1 :: ps) p0 1
              ltac:(discriminate) Hp0 Hrest) as (v & Hv & Ev').
  assert (Hne : returns_data <> []).
  { intros ->. discriminate Hret. }
  destruct (run_defined roll_mean roll_std
        fsqrt fpow bt strategy price_data returns_data Hne)
    as (m & Hrun & _).
  destruct (run_data_columns roll_mean roll_std bt strategy price_data returns_data)
    as (_ & _ & Hb & _).
  destruct (calculate_metrics_fields _ m
              (run_metrics_inv _ _ _ _ _ Hrun))
    as (lc & lb & _ & Hlb & _ & Hbh & _).
  rewrite Hb, Hret in Hlb. unfold equity_curve, cumprod in Hlb.
  unfold as_float in Hv. cbn [map] in Hv. unfold fone in Hlb at 1.
  rewrite Hv in Hlb. inversion Hlb; subst lb.
  eexists. exists (v + - (1)). split; [exact Hrun|].
  cbn [res_metrics]. split; [exact Hbh|].
  rewrite Ev'. cbn [hd].
  change (last (p0 :: p1 :: ps) 0) with (last (p1 :: ps) 0).
  generalize (last (p1 :: ps) 0). intros l.
  field. exact Hp0.
Qed.

Lemma count_le_count (p q : fval -> bool) vs :
  (forall v, p v = true -> q v = true) -> (count p vs <= count q vs)%nat.
Proof.
  intros H. unfold count. induction vs as [|v vs IH]; simpl; [lia|].
  destruct (p v) eqn:E.
  - rewrite (H v E). simpl. lia.
  - destruct (q v); simpl; lia.
Qed.

Lemma fgt_zero_fne_zero v : fgt v fzero = true -> fne v fzero = true.
Proof.
  unfold fgt, fne, feqb. now destruct (fcompare v fzero) as [[]|].
Qed.

(** X16.  The Win Rate of a metrics table is a number between 0 and 1,
    and Total Trades - the number of net returns that are numbers other
    than zero - is between 0 and the number of net returns that are
    numbers; with no such return the Win Rate is reported as 0. *)
Theorem win_rate_in_unit_interval (d : RunData) (m : Metrics) :
  calculate_metrics fsqrt fpow d = Some m ->
  (exists w, m_win_rate m = Fin w /\ 0 <= w /\ w <= 1) /\
  (0 <= m_total_trades m
   <= Z.of_nat (length (dropna (values (r_strategy_returns d)))))%Z /\
  (m_total_trades m = 0%Z -> m_win_rate m = fzero).
Proof.
  intros H.
  destruct (calculate_metrics_fields d m H)
    as (lc & lb & _ & _ & _ & _ & _ & Ht & Hw).
  set (returns := dropna (values (r_strategy_returns d))) in *.
  set (wins := count (fun r => fgt r fzero) returns) in *.
  set (trades := count (fun r => fne r fzero) returns) in *.
  assert (Hwt : (wins <= trades)%nat)
    by (apply count_le_count; apply fgt_zero_fne_zero).
  assert (Htn : (trades <= length returns)%nat)
    by (unfold trades, count; apply filter_length_le).
  split; [|split].
  - rewrite Hw. destruct (Nat.ltb_spec 0 trades) as [Hpos | Hz].
    + exists (inject_Z (Z.of_nat wins) / inject_Z (Z.of_nat trades)).
      unfold of_nat, fdiv. rewrite Qeq_bool_of_nat_pos by exact Hpos.
      split; [reflexivity|].
      assert (Hd : 0 < inject_Z (Z.of_nat trades))
        by (change 0 with (inject_Z 0); rewrite <- Zlt_Qlt; lia).
      split.
      * apply Qle_shift_div_l; [exact Hd|].
        rewrite Qmult_0_l. change 0 with (inject_Z 0).
        rewrite <- Zle_Qle. lia.
      * apply Qle_shift_div_r; [exact Hd|].
        rewrite Qmult_1_l. rewrite <- Zle_Qle. lia.
    + exists 0. split; [reflexivity|]. split; [apply Qle_refl | discriminate].
  - rewrite Ht. lia.
  - intros Hz. rewrite Hw. rewrite Ht in Hz.
    destruct (Nat.ltb_spec 0 trades); [lia | reflexivity].
Qed.

End Metrics.

(** X17.  The equity curve and the benchmark curve never go negative as
    long as no return loses more than everything: when every return is a
    number above -1 or is missing, the running product [cumprod(1 + r)] is
    missing exactly where the return is, and on every other row it is not
    missing and not below 0.  (In exact arithmetic it is above 0; a long
    product of doubles can reach 0 itself.) *)
Theorem equity_curve_never_negative (rets : list fval) :
  forallb above_total_loss rets = true ->
  Forall2 (fun r e => (r = NaN /\ e = NaN) \/
                      (r <> NaN /\ e <> NaN /\ fle fzero e = true))
          rets (equity_curve rets).
Proof.
  intros H.
  assert (Hpos : Forall2 (number_where (fun q => 0 < q))
                         rets (equity_curve rets)).
  { unfold equity_curve, cumprod, fone.
    apply cumprod_from_positive; [reflexivity|].
    now apply growth_factors_positive. }
  revert Hpos. apply Forall2_impl. intros r e Hre.
  destruct Hre as [[-> ->] | [Hr (q & -> & Hq)]]; [now left|].
  right. split; [exact Hr|]. split; [discriminate|].
  apply fle_fin. lra.
Qed.

(* ================================================================== *)
(** ** Strategies at the edge of their parameters *)
(* ================================================================== *)

Lemma fle_refl_fin a : fle (Fin a) (Fin a) = true.
Proof. apply fle_fin. apply Qle_refl. Qed.

(** X18.  A crossover whose two windows are equal never buys: the two
    means are the same computation, the tie goes to -1, so the signal is 0
    while the window is not full (or is empty) and -1 on every row after
    that - whatever the rolling mean computes. *)
Theorem crossover_equal_windows_never_buys (roll_mean : nat -> list Q -> Q)
        (w : nat) (data : Series Q) (i : nat) :
  (i < length data)%nat ->
  nth i (values (crossover_generate_signals roll_mean w w data)) 0%Z
  = (if (0 <? w)%nat && (w <=? i + 1)%nat then -1 else 0)%Z.
Proof.
  intros Hi. rewrite crossover_signal_row by exact Hi.
  destruct (Nat.ltb_spec 0 w) as [H0 | H0];
    destruct (Nat.leb_spec w (i + 1)) as [Hw | Hw]; cbn [andb].
  - rewrite (ma_defined roll_mean w data i Hi H0 Hw).
    now rewrite fle_refl_fin.
  - now rewrite (ma_undefined roll_mean w data i Hi) by lia.
  - now rewrite (ma_undefined roll_mean w data i Hi) by lia.
  - now rewrite (ma_undefined roll_mean w data i Hi) by lia.
Qed.

(** X19.  A momentum strategy with a lookback of 0 never buys: the
    momentum of a row is [p / p - 1], which is 0 for every price other than
    zero (signal -1) and not a number for a price of zero (signal 0). *)
Theorem momentum_zero_lookback_never_buys (data : Series Q) (i : nat) :
  (i < length data)%nat ->
  nth i (values (momentum_generate_signals 0 data)) 0%Z
  = if Qeq_bool (nth i (values data) 0) 0 then 0%Z else (-1)%Z.
Proof.
  intros Hi. rewrite momentum_signal_row by exact Hi.
  unfold momentum_of, pct_change.
  pose proof (length_as_float_values data) as Hl.
  rewrite (nth_map2 _ _ _ _ NaN NaN NaN) by (rewrite ?length_shift; lia).
  rewrite nth_shift by lia. cbn [Nat.ltb Nat.leb]. rewrite Nat.sub_0_r.
  unfold as_float.
  rewrite (nth_map_in Fin (values data) _ NaN 0)
    by (rewrite length_values; lia).
  set (p := nth i (values data) 0).
  cbv [fdiv]. destruct (Qeq_bool p 0) eqn:E.
  - apply Qeq_bool_iff in E. now rewrite (inf_of_sign_zero p E).
  - assert (Hp : ~ p == 0) by (intros H; apply Qeq_bool_iff in H; congruence).
    assert (Hz : p / p + - (1) == 0) by (field; exact Hp).
    cbv [fsub fneg fadd fone fzero].
    assert (Hle : fle (Fin (p / p + - (1))) (Fin 0) = true)
      by (apply fle_fin; rewrite Hz; apply Qle_refl).
    now rewrite Hle.
Qed.

(** X20.  A mean-reversion strategy with a window of 0 or 1 never trades:
    the sample standard deviation of fewer than two prices is not a number,
    so the z-score is not a number and every signal is 0 - whatever the
    threshold, the prices and the values the rolling statistics compute. *)
Theorem zscore_short_window_never_trades (roll_mean : nat -> list Q -> Q)
        (roll_std : nat -> list Q -> fval) (w : nat)
        (threshold : Q) (data : Series Q) :
  (w <= 1)%nat ->
  Forall (fun s => s = 0%Z)
         (values (zscore_generate_signals roll_mean roll_std w threshold data)).
Proof.
  intros Hw. apply (Forall_of_nth _ _ 0%Z). intros i Hi.
  rewrite length_values in Hi.
  rewrite <- (length_index (zscore_generate_signals roll_mean roll_std w
                                                    threshold data)),
    index_zscore_generate_signals, length_index in Hi.
  rewrite zscore_signal_row by exact Hi.
  assert (Hsd : nth i (rolling_std_of roll_std w data) NaN = NaN)
    by (apply rolling_std_warmup; [exact Hi | now left]).
  rewrite nth_zscore_of by exact Hi. rewrite Hsd, fdiv_nan_r.
  reflexivity.
Qed.

(* ================================================================== *)
(** ** Choices of [main] (main.py) *)
(* ================================================================== *)

(** X21.  The strategy prompt of [main]: the answers "1", "2" and "3" (and
    an empty answer, read as "1") select one strategy, "4" selects the
    three of them in the order crossover, mean reversion, momentum, always
    with the parameters of [config.py]; every other answer selects no
    strategy at all, so that no backtest is run. *)
Theorem select_strategies_by_answer (answer : string) :
  (answer = ""%string \/ answer = "1"%string ->
   select_strategies answer = [MovingAverageCrossover MA_FAST MA_SLOW]) /\
  (answer = "2"%string ->
   select_strategies answer
   = [MeanReversionZScore ZSCORE_WINDOW ZSCORE_THRESHOLD]) /\
  (answer = "3"%string ->
   select_strategies answer = [MomentumStrategy MOMENTUM_LOOKBACK]) /\
  (answer = "4"%string ->
   select_strategies answer
   = [MovingAverageCrossover MA_FAST MA_SLOW;
      MeanReversionZScore ZSCORE_WINDOW ZSCORE_THRESHOLD;
      MomentumStrategy MOMENTUM_LOOKBACK]) /\
  (~ In answer [""; "1"; "2"; "3"; "4"]%string ->
   select_strategies answer = []).
Proof.
  split; [intros [-> | ->]; reflexivity|].
  split; [intros ->; reflexivity|].
  split; [intros ->; reflexivity|].
  split; [intros ->; reflexivity|].
  intros Hnot. unfold select_strategies.
  assert (H0 : String.eqb answer "" = false)
    by (apply String.eqb_neq; intros E; apply Hnot; simpl; intuition congruence).
  assert (H1 : String.eqb answer "1" = false)
    by (apply String.eqb_neq; intros E; apply Hnot; simpl; intuition congruence).
  assert (H2 : String.eqb answer "2" = false)
    by (apply String.eqb_neq; intros E; apply Hnot; simpl; intuition congruence).
  assert (H3 : String.eqb answer "3" = false)
    by (apply String.eqb_neq; intros E; apply Hnot; simpl; intuition congruence).
  assert (H4 : String.eqb answer "4" = false)
    by (apply String.eqb_neq; intros E; apply Hnot; simpl; intuition congruence).
  rewrite H0. cbv zeta. now rewrite H1, H2, H3, H4.
Qed.

Lemma string_in_iff s l : string_in s l = true <-> In s l.
Proof.
  unfold string_in. rewrite existsb_exists. split.
  - intros (x & Hx & E). apply String.eqb_eq in E. now subst.
  - intros H. exists s. split; [exact H | apply String.eqb_refl].
Qed.

(** X22.  The ticker prompt of [main]: the ticker that is used is always
    one of [DEFAULT_TICKERS]; it is the answer when the answer is one of
    them, and the first of them ("SPY") for an empty answer and for every
    other answer. *)
Theorem select_ticker_is_listed (answer : string) :
  In (select_ticker answer) DEFAULT_TICKERS /\
  (In answer DEFAULT_TICKERS -> select_ticker answer = answer) /\
  (~ In answer DEFAULT_TICKERS -> select_ticker answer = "SPY"%string).
Proof.
  unfold select_ticker.
  change (hd ""%string DEFAULT_TICKERS) with "SPY"%string.
  destruct (String.eqb_spec answer "") as [-> | Hne].
  - split; [simpl; auto|]. split; [|reflexivity].
    intros H. simpl in H. intuition discriminate.
  - destruct (string_in answer DEFAULT_TICKERS) eqn:E.
    + apply string_in_iff in E. split; [exact E|].
      split; [reflexivity | intros H; contradiction].
    + split; [simpl; auto|]. split; [|reflexivity].
      intros H. apply string_in_iff in H. congruence.
Qed.

(* ================================================================== *)
(** ** Cache file names (data/collector.py) *)
(* ================================================================== *)

Lemma append_inj_l (s a b : string) :
  String.append s a = String.append s b -> a = b.
Proof.
  induction s as [|ch s IH]; simpl; intros H; [exact H|].
  inversion H. now apply IH.
Qed.

Lemma length_append (a b : string) :
  String.length (String.append a b)
  = (String.length a + String.length b)%nat.
Proof.
  induction a as [|ch a IH]; simpl; [reflexivity | now rewrite IH].
Qed.

Lemma append_inj_r (a b t : string) :
  String.append a t = String.append b t -> a = b.
Proof.
  revert b. induction a as [|ch a IH]; intros [|ch' b] H; simpl in *.
  - reflexivity.
  - apply (f_equal String.length) in H. simpl in H.
    rewrite length_append in H. lia.
  - apply (f_equal String.length) in H. simpl in H.
    rewrite length_append in H. lia.
  - inversion H; subst. f_equal. now apply IH.
Qed.

Lemma starts_with_sep_append (a b c : string) :
  Collector.starts_with_sep (String.append a (String.append "_" b))
  = Collector.starts_with_sep (String.append a (String.append "_" c)).
Proof.
  destruct a; reflexivity.
Qed.

Lemma path_join_inj (dir a b c : string) :
  Collector.path_join dir (String.append a (String.append "_" b))
  = Collector.path_join dir (String.append a (String.append "_" c)) ->
  b = c.
Proof.
  unfold Collector.path_join.
  rewrite (starts_with_sep_append a b c).
  destruct (Collector.starts_with_sep
              (String.append a (String.append "_" c))).
  - intros H. apply append_inj_l in H. now apply append_inj_l in H.
  - destruct (String.eqb dir "" || Collector.ends_with_sep dir); intros H.
    + apply append_inj_l in H. apply append_inj_l in H.
      now apply append_inj_l in H.
    + apply append_inj_l in H. apply append_inj_l in H.
      apply append_inj_l in H. now apply append_inj_l in H.
Qed.

(** X23.  Two requests for the same ticker and dates use the same cache
    file exactly when their data types are equal once every space is
    replaced by an underscore: 'Adj Close' and 'Adj_Close' share a file,
    and no two data types that differ in any other way do. *)
Theorem cache_file_shared_up_to_spaces (c : Collector.t)
        (ticker start_date end_date type1 type2 : string) :
  Collector.get_cache_filename c ticker start_date end_date type1
  = Collector.get_cache_filename c ticker start_date end_date type2
  <-> Collector.replace_char " " "_" type1
      = Collector.replace_char " " "_" type2.
Proof.
  unfold Collector.get_cache_filename. split.
  - intros H. apply path_join_inj in H.
    apply append_inj_l in H. apply append_inj_l in H.
    apply append_inj_l in H. apply append_inj_l in H.
    now apply append_inj_r in H.
  - intros ->. reflexivity.
Qed.

(* ================================================================== *)
(** ** The added properties on the sample inputs *)
(* ================================================================== *)

Lemma clean_data_leaves_no_missing_witness :
  exists F c',
    Collector.clean_data "bogus" (collector_with gappy_frame) = Some (F, c') /\
    count_missing F = 0%nat /\ well_formed F.
Proof.
  destruct (clean_data_leaves_no_missing "bogus" (collector_with gappy_frame))
    as [_ H].
  destruct (H gappy_frame eq_refl) as (F & c' & Hc & _ & _ & Hm & Hwf).
  exists F, c'. repeat split; [exact Hc | exact Hm |].
  apply Hwf. repeat constructor.
Defined.

Lemma clean_data_idempotent_witness :
  Collector.clean_frame "drop" (Collector.clean_frame "ffill" gappy_frame)
  = Collector.clean_frame "ffill" gappy_frame.
Proof.
  exact (proj1 (clean_data_idempotent "ffill" "drop"
                  (collector_with gappy_frame) _ _ gappy_frame _ _
                  eq_refl ltac:(repeat constructor) eq_refl eq_refl)).
Defined.

Lemma clean_data_fill_keeps_rows_witness :
  df_index (Collector.clean_frame "ffill" gappy_frame) = [0; 1; 2; 3]%Z.
Proof.
  refine (proj1 (clean_data_fill_keeps_rows "ffill"
                   (collector_with gappy_frame) _ gappy_frame _
                   (or_introl eq_refl) eq_refl _ eq_refl)).
  constructor; [| constructor; [| constructor]].
  - apply Exists_cons_tl, Exists_cons_hd. discriminate.
  - apply Exists_cons_hd. discriminate.
Defined.

Lemma clean_data_values_from_input_witness :
  Forall2 (fun col col' =>
             fst col' = fst col /\
             forall v, In v (snd col') -> v <> NaN /\ In v (snd col))
          (df_columns gappy_frame)
          (df_columns (Collector.clean_frame "bfill" gappy_frame)).
Proof.
  exact (clean_data_values_from_input "bfill" (collector_with gappy_frame) _
           gappy_frame _ eq_refl eq_refl).
Defined.

Lemma clean_data_empty_column_drops_all_witness :
  df_index (Collector.clean_frame "ffill" frame_with_empty_column) = [].
Proof.
  exact (clean_data_empty_column_drops_all "ffill"
           (collector_with frame_with_empty_column) _
           frame_with_empty_column _ ("BAD"%string, [NaN; NaN])
           eq_refl ltac:(repeat constructor)
           ltac:(simpl; auto) ltac:(repeat constructor) eq_refl).
Defined.

Lemma simple_returns_drop_first_row_witness :
  (nrows (frame_dropna
            (frame_pct_change (Collector.clean_frame "ffill" gappy_frame)))
   <= nrows (Collector.clean_frame "ffill" gappy_frame) - 1)%nat.
Proof.
  destruct (simple_returns_drop_first_row log_approx
              (collector_with (Collector.clean_frame "ffill" gappy_frame)) _
              (Collector.clean_frame "ffill" gappy_frame) _
              eq_refl ltac:(repeat constructor) eq_refl
              ltac:(discriminate) eq_refl)
    as (_ & _ & _ & _ & _ & H).
  exact H.
Defined.

Lemma simple_returns_of_prices_witness :
  df_index (frame_dropna (frame_pct_change quiet_frame)) = [1; 2; 3]%Z.
Proof.
  exact (proj1 (simple_returns_of_prices log_approx
                  (collector_with quiet_frame) _ quiet_frame _
                  eq_refl ltac:(repeat constructor) ltac:(discriminate)
                  ltac:(repeat constructor) eq_refl)).
Defined.

Lemma export_results_needs_equal_lengths_witness :
  exists res rows,
    run mean_exact std_approx sqrt_approx pow_approx
          default_backtester (MomentumStrategy 1)
        quiet_prices quiet_returns = Some res /\
    export_results res = Some rows /\ length rows = 4%nat.
Proof.
  destruct (run_defined mean_exact std_approx sqrt_approx pow_approx default_backtester
              (MomentumStrategy 1) quiet_prices quiet_returns
              ltac:(discriminate)) as (m & Hrun & _).
  destruct (export_results_needs_equal_lengths mean_exact std_approx sqrt_approx pow_approx
              default_backtester (MomentumStrategy 1)
              quiet_prices quiet_returns _ Hrun) as [_ H].
  destruct (H eq_refl) as (rows & Hrows & Hlen & _).
  eexists. exists rows. split; [exact Hrun|]. split; [exact Hrows|exact Hlen].
Defined.

Lemma export_fails_in_pipeline_witness :
  exists res,
    run mean_exact std_approx sqrt_approx pow_approx
          default_backtester (MomentumStrategy 1)
        quiet_prices quiet_simple_returns = Some res /\
    export_results res = None.
Proof.
  destruct (run_defined mean_exact std_approx sqrt_approx pow_approx default_backtester
              (MomentumStrategy 1) quiet_prices quiet_simple_returns
              ltac:(discriminate)) as (m & Hrun & _).
  eexists. split; [exact Hrun|].
  exact (export_fails_in_pipeline mean_exact std_approx sqrt_approx pow_approx
        log_approx
           "ffill" "SPY" (collector_with quiet_frame) _ _
           quiet_frame _ _ quiet_prices quiet_simple_returns
           default_backtester (MomentumStrategy 1) _
           eq_refl ltac:(repeat constructor) eq_refl eq_refl
           eq_refl eq_refl Hrun).
Defined.

Lemma signals_and_positions_in_range_witness :
  Forall is_position
         (align_positions
            (get_positions (generate_signals mean_exact std_approx (MomentumStrategy 1)
                                             quiet_prices))
            quiet_simple_returns).
Proof.
  apply (signals_and_positions_in_range mean_exact std_approx (MomentumStrategy 1)
           quiet_prices quiet_simple_returns).
  vm_compute. repeat constructor; simpl; intuition discriminate.
Defined.

Lemma align_positions_by_label_witness :
  nth 0 (align_positions
           (get_positions (momentum_generate_signals 1 quiet_prices))
           [(7%Z, Fin 0)]) NaN
  = fzero.
Proof.
  destruct (align_positions_by_label
              (momentum_generate_signals 1 quiet_prices) [(7%Z, Fin 0)]
              0%nat) as [H _].
  - vm_compute. repeat constructor; simpl; intuition discriminate.
  - simpl. lia.
  - apply H. vm_compute. intuition discriminate.
Defined.

Lemma aligned_position_is_previous_signal_witness :
  nth 2 (align_positions
           (get_positions (momentum_generate_signals 1 quiet_prices))
           quiet_simple_returns) NaN
  = of_Z (nth 2 (values (momentum_generate_signals 1 quiet_prices)) 0%Z).
Proof.
  apply (aligned_position_is_previous_signal
           (momentum_generate_signals 1 quiet_prices) quiet_simple_returns 2).
  - vm_compute. repeat constructor; simpl; intuition discriminate.
  - reflexivity.
  - simpl. lia.
Defined.


Lemma buy_hold_is_last_over_first_witness :
  exists res b,
    run mean_exact std_approx sqrt_approx pow_approx
          default_backtester (MomentumStrategy 1)
        quiet_prices quiet_simple_returns = Some res /\
    m_buy_hold_return (res_metrics res) = Fin b /\
    b == last (values quiet_prices) 0 / hd 0 (values quiet_prices) - 1.
Proof.
  apply (buy_hold_is_last_over_first mean_exact std_approx sqrt_approx pow_approx
           default_backtester (MomentumStrategy 1)
           quiet_prices quiet_simple_returns).
  - vm_compute. repeat constructor; simpl; intuition discriminate.
  - repeat constructor; discriminate.
  - simpl. lia.
  - reflexivity.
Defined.

Lemma win_rate_in_unit_interval_witness :
  exists m w,
    calculate_metrics sqrt_approx pow_approx
      (run_data mean_exact std_approx default_backtester (MomentumStrategy 1)
                quiet_prices quiet_returns) = Some m /\
    m_win_rate m = Fin w /\ 0 <= w /\ w <= 1.
Proof.
  destruct (calculate_metrics_defined sqrt_approx pow_approx
              (run_data mean_exact std_approx default_backtester (MomentumStrategy 1)
                        quiet_prices quiet_returns)
              ltac:(discriminate) ltac:(discriminate)) as (m & Hm & _).
  destruct (win_rate_in_unit_interval sqrt_approx pow_approx _ m Hm)
    as [(w & Hw & Hlo & Hhi) _].
  exists m, w. repeat split; assumption.
Defined.

Lemma equity_curve_never_negative_witness :
  Forall2 (fun r e => (r = NaN /\ e = NaN) \/
                      (r <> NaN /\ e <> NaN /\ fle fzero e = true))
          (values quiet_returns) (equity_curve (values quiet_returns)).
Proof.
  exact (equity_curve_never_negative (values quiet_returns) eq_refl).
Defined.

Lemma crossover_equal_windows_never_buys_witness :
  nth 5 (values (crossover_generate_signals mean_exact 3 3 scenario_a_prices)) 0%Z
  = (-1)%Z.
Proof.
  exact (crossover_equal_windows_never_buys mean_exact 3 scenario_a_prices 5
           ltac:(simpl; lia)).
Defined.

Lemma momentum_zero_lookback_never_buys_witness :
  nth 2 (values (momentum_generate_signals 0 scenario_a_prices)) 0%Z
  = (-1)%Z.
Proof.
  exact (momentum_zero_lookback_never_buys scenario_a_prices 2
           ltac:(simpl; lia)).
Defined.

Lemma zscore_short_window_never_trades_witness :
  Forall (fun s => s = 0%Z)
         (values (zscore_generate_signals mean_exact std_approx 1 2 scenario_a_prices)).
Proof.
  exact (zscore_short_window_never_trades mean_exact std_approx 1 2 scenario_a_prices
           ltac:(lia)).
Defined.

Lemma select_strategies_by_answer_witness :
  select_strategies "run everything" = [].
Proof.
  destruct (select_strategies_by_answer "run everything")
    as (_ & _ & _ & _ & H).
  apply H. simpl. intuition discriminate.
Defined.

Lemma select_ticker_is_listed_witness :
  select_ticker "AAPL" = "SPY"%string.
Proof.
  destruct (select_ticker_is_listed "AAPL") as (_ & _ & H).
  apply H. simpl. intuition discriminate.
Defined.

Lemma cache_file_shared_up_to_spaces_witness :
  Collector.get_cache_filename fresh_collector "SPY" "2020-01-01"
                               "2024-12-31" "Adj Close"
  = Collector.get_cache_filename fresh_collector "SPY" "2020-01-01"
                                 "2024-12-31" "Adj_Close".
Proof.
  exact (proj2 (cache_file_shared_up_to_spaces fresh_collector "SPY"
                  "2020-01-01" "2024-12-31" "Adj Close" "Adj_Close")
               eq_refl).
Defined.
